(** * DrawingScoring.py: category registry, response interpreter, scoring pipeline

    A shallow embedding of [add_category], [process_ai_response],
    [analyze_drawing] and [Player_playing] together with the fragment of
    the Python runtime they run on: strings as sequences of code points,
    the exception classes and their hierarchy,
    [str.strip]/[find]/[rfind]/slicing, [int()], [str()], [json.loads],
    [json.dump(..., indent=2)], [base64.b64encode] and [input()].

    Standard output is taken to encode as UTF-8 with strict error
    handling, so that [print] fails exactly on surrogate code points (with
    the handler [surrogateescape], which Python selects in the C locale,
    U+DC80 to U+DCFF are written as well; the numbered properties below
    hold there too).  The prints of literals and of exception messages,
    which quote text through [repr] and so hold no surrogate, are left
    out, and the lines of standard input are decoded text that [print] can
    write back.  Integer conversions carry CPython's bound of 4300 digits,
    and [json.loads] the recursion limit, as a depth the runtime provides.

    Not modelled: the text of exception messages, faults of the file
    system on the registry file other than its absence, interpreter-exit
    signals (KeyboardInterrupt, SystemExit), and the validation pydantic
    runs when a [DrawingScore] is built. *)

From Stdlib Require Import String Ascii DecimalString.
From Stdlib Require Import List ZArith NArith Lia Bool.
Import ListNotations.

Set Implicit Arguments.

(* ================================================================== *)
(** ** Python strings *)
(* ================================================================== *)

(** A Python [str] is a sequence of code points in [0, 0x10FFFF]; lone
    surrogates are possible. *)
Abbreviation codepoint := N (only parsing).
Abbreviation str := (list N) (only parsing).

(** An ASCII literal of the source text. *)
Definition py (s : string) : str := map N_of_ascii (list_ascii_of_string s).

(** The same, with the apostrophe standing for the double quote. *)
Definition pyq (s : string) : str :=
  map (fun c => if N.eqb c 39 then 34%N else c) (py s).

Fixpoint str_eqb (a b : str) : bool :=
  match a, b with
  | [], [] => true
  | x :: a', y :: b' => N.eqb x y && str_eqb a' b'
  | _, _ => false
  end.

Section StrOps.
Local Open Scope N_scope.

(** [str.isspace] on one code point (Py_UNICODE_ISSPACE). *)
Definition is_space (c : codepoint) : bool :=
  ((9 <=? c) && (c <=? 13)) || ((28 <=? c) && (c <=? 32))
  || (c =? 133) || (c =? 160) || (c =? 5760)
  || ((8192 <=? c) && (c <=? 8202))
  || (c =? 8232) || (c =? 8233) || (c =? 8239) || (c =? 8287) || (c =? 12288).

Fixpoint lstrip (s : str) : str :=
  match s with
  | c :: t => if is_space c then lstrip t else s
  | [] => []
  end.

Definition rstrip (s : str) : str := rev (lstrip (rev s)).

(** [s.strip()] *)
Definition strip (s : str) : str := rstrip (lstrip s).

End StrOps.

Section Search.
Local Open Scope Z_scope.

(** [s.find(ch)] for a one-character needle: the lowest index, or -1. *)
Fixpoint find_from (ch : codepoint) (s : str) (i : Z) : Z :=
  match s with
  | [] => -1
  | c :: t => if N.eqb c ch then i else find_from ch t (i + 1)
  end.

Definition find (ch : codepoint) (s : str) : Z := find_from ch s 0.

(** [s.rfind(ch)]: the highest index, or -1. *)
Fixpoint rfind_from (ch : codepoint) (s : str) (i : Z) (last : Z) : Z :=
  match s with
  | [] => last
  | c :: t => rfind_from ch t (i + 1) (if N.eqb c ch then i else last)
  end.

Definition rfind (ch : codepoint) (s : str) : Z := rfind_from ch s 0 (-1).

(** A slice bound as Python normalises it: negative bounds count from the
    end, and everything is clamped to [0, len]. *)
Definition clamp_index (len i : Z) : Z :=
  let j := if i <? 0 then i + len else i in
  Z.max 0 (Z.min len j).

(** [s[a:b]] *)
Definition slice (s : str) (a b : Z) : str :=
  let len := Z.of_nat (length s) in
  let lo := clamp_index len a in
  let hi := clamp_index len b in
  firstn (Z.to_nat (hi - lo)) (skipn (Z.to_nat lo) s).

End Search.

(* ================================================================== *)
(** ** Exceptions *)
(* ================================================================== *)

(** The classes of [Exception] that occur in the program or that its
    environment may raise.  An exception is modelled by its class. *)
Inductive exn : Type :=
| Exception
| ArithmeticError | OverflowError
| AttributeError
| LookupError | IndexError | KeyError
| OSError | FileNotFoundError | PermissionError | ConnectionError
| RecursionError
| TypeError
| ValueError | JSONDecodeError | UnicodeDecodeError | UnicodeEncodeError.

Definition exn_eqb (a b : exn) : bool :=
  match a, b with
  | Exception, Exception | ArithmeticError, ArithmeticError
  | OverflowError, OverflowError | AttributeError, AttributeError
  | LookupError, LookupError | IndexError, IndexError | KeyError, KeyError
  | OSError, OSError | FileNotFoundError, FileNotFoundError
  | PermissionError, PermissionError | ConnectionError, ConnectionError
  | RecursionError, RecursionError | TypeError, TypeError
  | ValueError, ValueError | JSONDecodeError, JSONDecodeError
  | UnicodeDecodeError, UnicodeDecodeError
  | UnicodeEncodeError, UnicodeEncodeError => true
  | _, _ => false
  end.

(** The direct base class; [None] for [Exception] itself. *)
Definition base_class (e : exn) : option exn :=
  match e with
  | Exception => None
  | OverflowError => Some ArithmeticError
  | IndexError | KeyError => Some LookupError
  | FileNotFoundError | PermissionError | ConnectionError => Some OSError
  | JSONDecodeError | UnicodeDecodeError | UnicodeEncodeError =>
      Some ValueError
  | _ => Some Exception
  end.

Fixpoint subclass_upto (depth : nat) (e c : exn) : bool :=
  exn_eqb e c ||
  match depth, base_class e with
  | S d, Some b => subclass_upto d b c
  | _, _ => false
  end.

(** [isinstance(e, c)]; the hierarchy above is three levels deep. *)
Definition isinstance (e c : exn) : bool := subclass_upto 3 e c.

(** [except (c1, c2, ...)] *)
Definition caught_by (classes : list exn) (e : exn) : bool :=
  existsb (isinstance e) classes.

(** The outcome of an expression that may raise. *)
Inductive res (A : Type) : Type :=
| Return (a : A)
| Raise (e : exn).
Arguments Raise {A} e.


(* ================================================================== *)
(** ** JSON values and [json.loads] *)
(* ================================================================== *)

(** A Python [float] as [json.loads] produces it: one of the three
    constants Python's decoder accepts, or the decimal literal
    [(-1)^neg * m * 10^e], kept exact. *)
Inductive pyfloat : Type :=
| FNaN
| FInf (neg : bool)
| FDec (neg : bool) (m : N) (e : Z).

(** The Python objects [json.loads] returns.  A [dict] keeps its keys in
    insertion order, each key once. *)
#[warnings="-register-all"]
Inductive json : Type :=
| JNull
| JBool (b : bool)
| JInt (z : Z)
| JFloat (f : pyfloat)
| JStr (s : str)
| JList (l : list json)
| JDict (d : list (str * json)).

(** [d[k] = v] *)
Fixpoint dict_set (d : list (str * json)) (k : str) (v : json)
  : list (str * json) :=
  match d with
  | [] => [(k, v)]
  | (k', v') :: d' =>
      if str_eqb k' k then (k', v) :: d' else (k', v') :: dict_set d' k v
  end.

Fixpoint dict_lookup (d : list (str * json)) (k : str) : option json :=
  match d with
  | [] => None
  | (k', v) :: d' => if str_eqb k' k then Some v else dict_lookup d' k
  end.

(** The bound on the decimal digits of an integer that is read from, or
    written as, text ([sys.get_int_max_str_digits()], 4300 unless it is
    configured otherwise): [int(s)] and [str(z)] raise [ValueError] beyond
    it. *)
Definition max_str_digits : Z := 4300.

(** [z] has at most [max_str_digits] decimal digits.  As in CPython,
    small numbers pass without a look at the bound. *)
Definition int_str_ok (z : Z) : bool :=
  if (Z.abs z <? 2 ^ 64)%Z then true
  else (Z.abs z <? 10 ^ max_str_digits)%Z.

(** What a scanner returns: a value and the unread input; a decoding
    error; an integer literal of too many digits, for which the decoder's
    [int()] raises [ValueError]; values nested deeper than the interpreter's
    recursion limit allows, a [RecursionError]; or that the budget of the
    definition below is used up, which does not happen
    ([fuel_suffices]). *)
Inductive scanned (A : Type) : Type :=
| Ok (a : A) (rest : str)
| Bad
| TooLong
| TooDeep
| Fuel.
Arguments Bad {A}.
Arguments TooLong {A}.
Arguments TooDeep {A}.
Arguments Fuel {A}.

Section Scanner.
Local Open Scope N_scope.

(** JSON whitespace: space, tab, line feed, carriage return. *)
Definition is_json_ws (c : codepoint) : bool :=
  (c =? 32) || (c =? 9) || (c =? 10) || (c =? 13).

Fixpoint skip_ws (s : str) : str :=
  match s with
  | c :: t => if is_json_ws c then skip_ws t else s
  | [] => []
  end.

Definition is_digit (c : codepoint) : bool := (48 <=? c) && (c <=? 57).

Definition hex_digit (c : codepoint) : option N :=
  if is_digit c then Some (c - 48)
  else if (97 <=? c) && (c <=? 102) then Some (c - 87)
  else if (65 <=? c) && (c <=? 70) then Some (c - 55)
  else None.

Definition hex4 (a b c d : codepoint) : option N :=
  match hex_digit a, hex_digit b, hex_digit c, hex_digit d with
  | Some x, Some y, Some z, Some w => Some (((x * 16 + y) * 16 + z) * 16 + w)
  | _, _, _, _ => None
  end.

Definition is_high_surrogate (c : N) : bool := (55296 <=? c) && (c <=? 56319).
Definition is_low_surrogate (c : N) : bool := (56320 <=? c) && (c <=? 57343).

Definition join_surrogates (hi lo : N) : N :=
  65536 + (hi - 55296) * 1024 + (lo - 56320).

(** The character a one-letter escape stands for. *)
Definition unescape (c : codepoint) : option codepoint :=
  if c =? 34 then Some 34        (* quote *)
  else if c =? 92 then Some 92   (* backslash *)
  else if c =? 47 then Some 47   (* slash *)
  else if c =? 98 then Some 8    (* backspace *)
  else if c =? 102 then Some 12  (* form feed *)
  else if c =? 110 then Some 10  (* line feed *)
  else if c =? 114 then Some 13  (* carriage return *)
  else if c =? 116 then Some 9   (* tab *)
  else None.

Definition push_char {A} (c : codepoint) (r : option (str * A))
  : option (str * A) :=
  match r with
  | Some (s, rest) => Some (c :: s, rest)
  | None => None
  end.

(** [scanstring], strict mode, entered after the opening quote: the decoded
    string and the input after the closing quote.  A high surrogate escape
    directly followed by a low surrogate escape is one code point. *)
Fixpoint scanstring (s : str) : option (str * str) :=
  match s with
  | [] => None
  | c :: t =>
      if c =? 34 then Some ([], t)
      else if c =? 92 then
        match t with
        | [] => None
        | e :: t1 =>
            if e =? 117 then
              match t1 with
              | h1 :: h2 :: h3 :: h4 :: t2 =>
                  match hex4 h1 h2 h3 h4 with
                  | None => None
                  | Some u =>
                      if is_high_surrogate u then
                        match t2 with
                        | b :: u' :: l1 :: l2 :: l3 :: l4 :: t3 =>
                            if (b =? 92) && (u' =? 117) then
                              match hex4 l1 l2 l3 l4 with
                              | None => None
                              | Some u2 =>
                                  if is_low_surrogate u2
                                  then push_char (join_surrogates u u2)
                                                 (scanstring t3)
                                  else push_char u (scanstring t2)
                              end
                            else push_char u (scanstring t2)
                        | _ => push_char u (scanstring t2)
                        end
                      else push_char u (scanstring t2)
                  end
              | _ => None
              end
            else
              match unescape e with
              | Some ch => push_char ch (scanstring t1)
              | None => None
              end
        end
      else if c <=? 31 then None
      else push_char c (scanstring t)
  end.

(** The longest prefix of ASCII digits, as digit values. *)
Fixpoint span_digits (s : str) : list N * str :=
  match s with
  | c :: t =>
      if is_digit c
      then let (ds, r) := span_digits t in ((c - 48) :: ds, r)
      else ([], s)
  | [] => ([], [])
  end.

Definition digits_value (ds : list N) : N :=
  fold_left (fun acc d => acc * 10 + d) ds 0.

(** The integer part: [0] alone, or a digit string that starts with 1-9. *)
Definition scan_int_part (s : str) : option (list N * str) :=
  match s with
  | c :: t =>
      if c =? 48 then Some ([0], t)
      else if is_digit c then Some (span_digits s)
      else None
  | [] => None
  end.

(** [.digits], when a digit follows the point. *)
Definition scan_frac (s : str) : option (list N * str) :=
  match s with
  | p :: (d :: _) as t =>
      if (p =? 46) && is_digit d then Some (span_digits t) else None
  | _ => None
  end.

(** [e], an optional sign and digits, when a digit follows. *)
Definition scan_exp (s : str) : option (Z * str) :=
  match s with
  | e :: t =>
      if (e =? 101) || (e =? 69) then
        let '(neg, t') :=
          match t with
          | sg :: t1 =>
              if sg =? 45 then (true, t1)
              else if sg =? 43 then (false, t1)
              else (false, t)
          | [] => (false, t)
          end in
        match span_digits t' with
        | ([], _) => None
        | (ds, r) =>
            let v := Z.of_N (digits_value ds) in
            Some (if neg then (- v)%Z else v, r)
        end
      else None
  | [] => None
  end.

(** A JSON number: an [int] when it has neither fraction nor exponent,
    a [float] otherwise. *)
Definition match_number (s : str) : option (json * str) :=
  let '(neg, s1) :=
    match s with
    | c :: t => if c =? 45 then (true, t) else (false, s)
    | [] => (false, s)
    end in
  match scan_int_part s1 with
  | None => None
  | Some (ip, r1) =>
      let '(fp, r2) :=
        match scan_frac r1 with
        | Some (ds, r) => (Some ds, r)
        | None => (None, r1)
        end in
      let '(ex, r3) :=
        match scan_exp r2 with
        | Some (x, r) => (Some x, r)
        | None => (None, r2)
        end in
      match fp, ex with
      | None, None =>
          let v := Z.of_N (digits_value ip) in
          Some (JInt (if neg then (- v)%Z else v), r3)
      | _, _ =>
          let fd := match fp with Some ds => ds | None => [] end in
          let x := match ex with Some x => x | None => 0%Z end in
          Some (JFloat (FDec neg (digits_value (ip ++ fd))
                             (x - Z.of_nat (length fd))%Z), r3)
      end
  end.

(** [s] starts with the literal [w]: the input after it. *)
Fixpoint strip_prefix (w s : str) : option str :=
  match w, s with
  | [], _ => Some s
  | a :: w', b :: s' => if a =? b then strip_prefix w' s' else None
  | _ :: _, [] => None
  end.

Definition constants : list (str * json) :=
  [ (py "null", JNull); (py "true", JBool true); (py "false", JBool false);
    (py "NaN", JFloat FNaN); (py "Infinity", JFloat (FInf false));
    (py "-Infinity", JFloat (FInf true)) ].

Fixpoint match_constant (cs : list (str * json)) (s : str)
  : option (json * str) :=
  match cs with
  | [] => None
  | (w, v) :: cs' =>
      match strip_prefix w s with
      | Some r => Some (v, r)
      | None => match_constant cs' s
      end
  end.

(** [scan_once] with the object and array loops of the decoder.
    [parse_members] is entered where a property name is expected,
    [parse_items] where an array element is expected.  [depth] is the
    number of nested objects and arrays the interpreter still has room
    for: entering one more raises [RecursionError].  An integer literal is
    converted by [int()], with its bound on the digits (a literal has no
    leading zeros, so its digits are those of its value).  Every recursive
    call consumes input, so a budget above the input length suffices
    ([fuel_suffices] below). *)
Fixpoint scan_once (fuel depth : nat) (s : str) : scanned json :=
  match fuel with
  | O => Fuel
  | S f =>
      match s with
      | [] => Bad
      | c :: t =>
          if c =? 34 then
            match scanstring t with
            | Some (v, r) => Ok (JStr v) r
            | None => Bad
            end
          else if c =? 123 then
            match depth with
            | O => TooDeep
            | S d =>
                match skip_ws t with
                | c' :: t' =>
                    if c' =? 125 then Ok (JDict []) t'
                    else parse_members f d [] (c' :: t')
                | [] => Bad
                end
            end
          else if c =? 91 then
            match depth with
            | O => TooDeep
            | S d =>
                match skip_ws t with
                | c' :: t' =>
                    if c' =? 93 then Ok (JList []) t'
                    else parse_items f d [] (c' :: t')
                | [] => Bad
                end
            end
          else
            match match_constant constants s with
            | Some (v, r) => Ok v r
            | None =>
                match match_number s with
                | Some (JInt z, r) =>
                    if int_str_ok z then Ok (JInt z) r else TooLong
                | Some (v, r) => Ok v r
                | None => Bad
                end
            end
      end
  end

with parse_members (fuel depth : nat) (acc : list (str * json)) (s : str)
  : scanned json :=
  match fuel with
  | O => Fuel
  | S f =>
      match s with
      | q :: t =>
          if q =? 34 then
            match scanstring t with
            | None => Bad
            | Some (k, r) =>
                match skip_ws r with
                | colon :: r1 =>
                    if colon =? 58 then
                      match scan_once f depth (skip_ws r1) with
                      | Ok v r2 =>
                          let acc' := dict_set acc k v in
                          match skip_ws r2 with
                          | d :: r3 =>
                              if d =? 125 then Ok (JDict acc') r3
                              else if d =? 44
                              then parse_members f depth acc' (skip_ws r3)
                              else Bad
                          | [] => Bad
                          end
                      | Bad => Bad
                      | TooLong => TooLong
                      | TooDeep => TooDeep
                      | Fuel => Fuel
                      end
                    else Bad
                | [] => Bad
                end
            end
          else Bad
      | [] => Bad
      end
  end

with parse_items (fuel depth : nat) (acc : list json) (s : str)
  : scanned json :=
  match fuel with
  | O => Fuel
  | S f =>
      match scan_once f depth s with
      | Ok v r =>
          let acc' := acc ++ [v] in
          match skip_ws r with
          | d :: r1 =>
              if d =? 93 then Ok (JList acc') r1
              else if d =? 44 then parse_items f depth acc' (skip_ws r1)
              else Bad
          | [] => Bad
          end
      | Bad => Bad
      | TooLong => TooLong
      | TooDeep => TooDeep
      | Fuel => Fuel
      end
  end.

End Scanner.

(** The parts of the runtime that the program text does not fix, taken as
    parameters of the development: what rests on the Unicode character
    database or on [repr], and the room the recursion limit of the
    interpreter leaves for nested JSON values. *)
Class Builtins : Type := {
  (** [s.lower()] *)
  lower : str -> str;
  (** the decimal digit value of a non-ASCII code point, if it has one *)
  decimal : codepoint -> option N;
  (** [repr] of a float, a list or a dict *)
  repr : json -> str;
  (** [json.loads] can nest [2 + spare_depth] objects and arrays, the two
      levels of the registry document and [spare_depth] more, before the
      interpreter raises [RecursionError] *)
  spare_depth : nat
}.

(** A leading byte-order mark, which [json.loads] refuses. *)
Definition starts_with_bom (s : str) : bool :=
  match s with
  | c :: _ => N.eqb c 65279
  | [] => false
  end.

(** [json.loads(s)]: one value, surrounded by whitespace only.  The budget
    is never used up ([json_loads_fuel]), so the last case does not
    occur. *)
Definition json_loads {B : Builtins} (s : str) : res json :=
  if starts_with_bom s then Raise JSONDecodeError
  else
    match scan_once (2 * S (length s)) (S (S spare_depth)) (skip_ws s) with
    | Ok v r =>
        match skip_ws r with
        | [] => Return v
        | _ :: _ => Raise JSONDecodeError
        end
    | Bad => Raise JSONDecodeError
    | TooLong => Raise ValueError
    | TooDeep => Raise RecursionError
    | Fuel => Raise RecursionError
    end.

(* ================================================================== *)
(** ** Builtins: [int()], [str()], [str.lower] *)
(* ================================================================== *)

Section Float.
Local Open Scope Z_scope.

(** [a / b] rounded to the nearest integer, ties to even
    ([0 <= a], [0 < b]). *)
Definition round_half_even (a b : Z) : Z :=
  let q := a / b in
  match 2 * (a mod b) ?= b with
  | Lt => q
  | Gt => q + 1
  | Eq => if Z.even q then q else q + 1
  end.

(** [int(float(lit))] for the literal [m * 10^e]: the literal is rounded
    to the nearest binary64 value [n * 2^u] with [2^52 <= n <= 2^53], which
    is then truncated.  [None] when the literal rounds to infinity. *)
Definition double_trunc (m : N) (e : Z) : option Z :=
  let p := if 0 <=? e then Z.of_N m * 10 ^ e else Z.of_N m in
  let q := if 0 <=? e then 1 else 10 ^ (- e) in
  if p =? 0 then Some 0
  else
    let k0 := Z.log2 p - Z.log2 q in
    let at_least :=
      if 0 <=? k0 then q * 2 ^ k0 <=? p else q <=? p * 2 ^ (- k0) in
    let k := if at_least then k0 else k0 - 1 in   (* 2^k <= p/q < 2^(k+1) *)
    if k <? -1 then Some 0
    else if 1024 <=? k then None
    else
      let u := k - 52 in
      let n := if 0 <=? u then round_half_even p (q * 2 ^ u)
               else round_half_even (p * 2 ^ (- u)) q in
      if (k =? 1023) && (2 ^ 53 <=? n) then None
      else Some (if 0 <=? u then n * 2 ^ u else n / 2 ^ (- u)).

(** [int(x)] for a float [x] *)
Definition int_of_float (f : pyfloat) : res Z :=
  match f with
  | FNaN => Raise ValueError
  | FInf _ => Raise OverflowError
  | FDec neg m e =>
      match double_trunc m e with
      | Some v => Return (if neg then - v else v)
      | None => Raise OverflowError
      end
  end.

End Float.

Section Coercions.
Context {B : Builtins}.
Local Open Scope N_scope.

(** The whitespace of C's [isspace], which [int()] skips around a
    literal. *)
Definition c_isspace (c : codepoint) : bool :=
  ((9 <=? c) && (c <=? 13)) || (c =? 32).

Fixpoint skip_c_space (s : str) : str :=
  match s with
  | c :: t => if c_isspace c then skip_c_space t else s
  | [] => []
  end.

(** [int()] first maps non-ASCII whitespace to a space and non-ASCII
    decimal digits to ASCII digits; any other non-ASCII character makes
    the literal invalid. *)
Fixpoint to_ascii_decimal (s : str) : option str :=
  match s with
  | [] => Some []
  | c :: t =>
      let c' := if c <? 128 then Some c
                else if is_space c then Some 32
                else match decimal c with
                     | Some d => Some (48 + d)
                     | None => None
                     end in
      match c', to_ascii_decimal t with
      | Some x, Some t' => Some (x :: t')
      | _, _ => None
      end
  end.

(** Digits with single underscores between them. *)
Fixpoint int_digits (s : str) (acc : Z) (after_digit : bool)
  : option (Z * str) :=
  match s with
  | c :: t =>
      if is_digit c then int_digits t (acc * 10 + Z.of_N (c - 48))%Z true
      else if c =? 95 then
        if after_digit then int_digits t acc false else None
      else if after_digit then Some (acc, s) else None
  | [] => if after_digit then Some (acc, []) else None
  end.

(** [int(s)] for a string, base 10.  A literal of more than
    [max_str_digits] digits is refused, like a malformed one, with
    [ValueError]. *)
Definition int_of_str (s : str) : res Z :=
  match to_ascii_decimal s with
  | None => Raise ValueError
  | Some a =>
      let a1 := skip_c_space a in
      let '(neg, a2) :=
        match a1 with
        | c :: t => if c =? 45 then (true, t)
                    else if c =? 43 then (false, t)
                    else (false, a1)
        | [] => (false, a1)
        end in
      match int_digits a2 0%Z false with
      | None => Raise ValueError
      | Some (v, r) =>
          match skip_c_space r with
          | [] =>
              if (Z.of_nat (length (filter is_digit a2)) <=? max_str_digits)%Z
              then Return (if neg then (- v)%Z else v)
              else Raise ValueError
          | _ :: _ => Raise ValueError
          end
      end
  end.

(** [int(x)] *)
Definition py_int (x : json) : res Z :=
  match x with
  | JInt z => Return z
  | JBool b => Return (if b then 1%Z else 0%Z)
  | JFloat f => int_of_float f
  | JStr s => int_of_str s
  | JNull | JList _ | JDict _ => Raise TypeError
  end.

(** [str(x)], for a value that [json.loads] returned: its integers have at
    most [max_str_digits] digits, so the conversion does not fail. *)
Definition py_str (x : json) : str :=
  match x with
  | JStr s => s
  | JInt z => py (NilZero.string_of_int (Z.to_int z))
  | JBool b => if b then py "True" else py "False"
  | JNull => py "None"
  | JFloat _ | JList _ | JDict _ => repr x
  end.

(** [x.lower()]: only a [str] has the method. *)
Definition py_lower (x : json) : res str :=
  match x with
  | JStr s => Return (lower s)
  | _ => Raise AttributeError
  end.

(** [x.get(key, default)]: only a [dict] has the method. *)
Definition py_get (x : json) (key : str) (default : json) : res json :=
  match x with
  | JDict d =>
      Return (match dict_lookup d key with Some v => v | None => default end)
  | _ => Raise AttributeError
  end.

End Coercions.

(* ================================================================== *)
(** ** Standard output *)
(* ================================================================== *)

Section Console.
Local Open Scope N_scope.

(** Standard output encodes as UTF-8 with strict error handling, the
    default of Python 3: every code point can be written but the
    surrogates. *)
Definition encodable (c : codepoint) : bool :=
  negb (is_high_surrogate c || is_low_surrogate c).

(** [print(text)]: [UnicodeEncodeError], a [ValueError], when [text] holds
    a code point that standard output cannot encode. *)
Definition py_print (text : str) : res unit :=
  if forallb encodable text then Return tt else Raise UnicodeEncodeError.

(** [f"{z}"]: [str(z)], with its bound on the digits. *)
Definition format_int (z : Z) : res str :=
  if int_str_ok z then Return (py (NilZero.string_of_int (Z.to_int z)))
  else Raise ValueError.

(** Line 127:
    [print(f"Total score: {total_score}, Category: {category}, Detail score: {detail_score}, Name of drawing: {name_of_drawing}")] *)
Definition print_score (total_score : Z) (category : str) (detail_score : Z)
    (name_of_drawing : str) : res unit :=
  match format_int total_score with
  | Raise e => Raise e
  | Return total =>
      match format_int detail_score with
      | Raise e => Raise e
      | Return detail =>
          py_print (py "Total score: " ++ total ++ py ", Category: "
                    ++ category ++ py ", Detail score: " ++ detail
                    ++ py ", Name of drawing: " ++ name_of_drawing)
      end
  end.

End Console.

(* ================================================================== *)
(** ** [json.dump] of the registry document *)
(* ================================================================== *)

Section Encoder.
Local Open Scope N_scope.

Definition hex_char (n : N) : codepoint := if n <? 10 then 48 + n else 87 + n.

(** ['\\u{0:04x}'.format(c)] *)
Definition u_escape (c : N) : str :=
  [92; 117; hex_char (c / 4096); hex_char ((c / 256) mod 16);
   hex_char ((c / 16) mod 16); hex_char (c mod 16)].

(** The surrogate pair that stands for a code point above 0xFFFF. *)
Definition high_half (c : N) : N := 55296 + ((c - 65536) / 1024) mod 1024.
Definition low_half (c : N) : N := 56320 + (c - 65536) mod 1024.

(** One character under [ensure_ascii=True]: printable ASCII stands for
    itself, except the quote and the backslash; the rest is escaped, code
    points above 0xFFFF as a surrogate pair. *)
Definition escape_char (c : codepoint) : str :=
  if c =? 34 then [92; 34]
  else if c =? 92 then [92; 92]
  else if c =? 10 then [92; 110]
  else if c =? 13 then [92; 114]
  else if c =? 9 then [92; 116]
  else if c =? 12 then [92; 102]
  else if c =? 8 then [92; 98]
  else if (32 <=? c) && (c <=? 126) then [c]
  else if c <? 65536 then u_escape c
  else u_escape (high_half c) ++ u_escape (low_half c).

(** [encode_basestring_ascii(s)] *)
Definition encode_str (s : str) : str :=
  34 :: flat_map escape_char s ++ [34].

(** The elements of a non-empty array at nesting level 2, each on a line
    of its own. *)
Fixpoint dump_items (l : list str) : str :=
  match l with
  | [] => []
  | [s] => encode_str s
  | s :: l' => encode_str s ++ [44; 10; 32; 32; 32; 32] ++ dump_items l'
  end.

(** [json.dumps({"categories": cats}, indent=2)] for a list of strings. *)
Definition dump_categories (cats : list str) : str :=
  [123; 10; 32; 32] ++ encode_str (py "categories") ++ [58; 32]
  ++ match cats with
     | [] => [91; 93]
     | _ :: _ => [91; 10; 32; 32; 32; 32] ++ dump_items cats
                 ++ [10; 32; 32; 93]
     end
  ++ [10; 125].

(** Text that [json.dump] followed by [json.loads] gives back: every code
    point is in range, and no high surrogate is directly followed by a low
    surrogate (escaped one after the other, the two would be read as one
    code point). *)
Fixpoint pair_free (s : str) : bool :=
  match s with
  | a :: (b :: _) as t =>
      negb (is_high_surrogate a && is_low_surrogate b) && pair_free t
  | _ => true
  end.

Definition text_ok (s : str) : bool :=
  forallb (fun c => c <=? 1114111) s && pair_free s.

End Encoder.

(* ================================================================== *)
(** ** The world: the registry file and what was done to it *)
(* ================================================================== *)

(** Observable actions, recorded in the order they happen. *)
Inductive event : Type :=
| WroteRegistry (text : str)   (** [art_categories.json] was rewritten *)
| Interpreted (raw : str).     (** [process_ai_response] was entered *)

(** [registry_file] is the text of [art_categories.json], [None] while the
    file does not exist.  The file is a reliable store: a read returns what
    was written last. *)
Record world : Type := {
  registry_file : option str;
  events : list event
}.

(** No registry file yet, nothing done. *)
Definition empty_world : world := {| registry_file := None; events := [] |}.

Definition record (ev : event) (w : world) : world :=
  {| registry_file := registry_file w; events := events w ++ [ev] |}.

(** A statement: it runs in a world, returns or raises, and leaves a
    world.  What was done before an exception stays done. *)
Definition M (A : Type) : Type := world -> res A * world.

Definition ret {A} (a : A) : M A := fun w => (Return a, w).

Definition lift {A} (r : res A) : M A := fun w => (r, w).

Definition bind {A B} (m : M A) (k : A -> M B) : M B :=
  fun w =>
    match m w with
    | (Return a, w') => k a w'
    | (Raise e, w') => (Raise e, w')
    end.

(** [try: body / except classes: handler] *)
Definition try_except {A} (body : M A) (classes : list exn) (handler : M A)
  : M A :=
  fun w =>
    match body w with
    | (Raise e, w') => if caught_by classes e then handler w' else (Raise e, w')
    | r => r
    end.

Declare Scope py_scope.
Delimit Scope py_scope with py.
Notation "x <- m ;; k" := (bind m (fun x => k))
  (at level 61, m at next level, right associativity) : py_scope.
Notation "' p <- m ;; k" := (bind m (fun x => let p := x in k))
  (at level 61, p pattern, m at next level, right associativity) : py_scope.

(** The tuple both [process_ai_response] and [analyze_drawing] return:
    total score, category, detail score, name of the drawing. *)
Definition score_tuple : Type := Z * str * Z * str.

Definition sentinel : score_tuple := (0%Z, py "unknown", 0%Z, py "unknown").

(* ================================================================== *)
(** ** [add_category] *)
(* ================================================================== *)

Section Registry.
Context {B : Builtins}.
Local Open Scope py_scope.

(** [with open(categories_file, 'r') as f: data = json.load(f)] *)
Definition load_registry : M json :=
  fun w =>
    match registry_file w with
    | None => (Raise FileNotFoundError, w)
    | Some text => (json_loads text, w)
    end.

(** Lines 34-39: the stored categories, or an empty list when the file is
    missing or does not decode. *)
Definition read_categories : M json :=
  try_except
    (data <- load_registry ;;
     lift (py_get data (py "categories") (JList [])))
    [FileNotFoundError; JSONDecodeError]
    (ret (JList [])).

(** [for cat in x]: the elements of a list, the characters of a string,
    the keys of a dict. *)
Definition py_iter (x : json) : res (list json) :=
  match x with
  | JList l => Return l
  | JStr s => Return (map (fun c => JStr [c]) s)
  | JDict d => Return (map (fun kv => JStr (fst kv)) d)
  | JNull | JBool _ | JInt _ | JFloat _ => Raise TypeError
  end.

(** [any(name == cat.lower() for cat in items)]: stops at the first match,
    raises at the first item without [lower] before one. *)
Fixpoint any_lower_eq (name : str) (items : list json) : res bool :=
  match items with
  | [] => Return false
  | cat :: rest =>
      match py_lower cat with
      | Raise e => Raise e
      | Return l => if str_eqb name l then Return true
                    else any_lower_eq name rest
      end
  end.

(** [x.append(v)]: only a [list] has the method. *)
Definition py_append (x v : json) : res (list json) :=
  match x with
  | JList l => Return (l ++ [v])
  | _ => Raise AttributeError
  end.

(** The strings among [l].  Where the registry is written, every item has
    gone through [cat.lower()], so nothing is left out
    ([any_lower_eq_strings]). *)
Fixpoint strings_of (l : list json) : list str :=
  match l with
  | [] => []
  | JStr s :: l' => s :: strings_of l'
  | _ :: l' => strings_of l'
  end.

(** [with open(categories_file, 'w') as f: json.dump(..., f, indent=2)] *)
Definition write_registry (categories : list json) : M unit :=
  fun w =>
    let text := dump_categories (strings_of categories) in
    (Return tt,
     {| registry_file := Some text;
        events := events w ++ [WroteRegistry text] |}).

Definition add_category (category_name : json) : M (str * Z) :=
  category_name_lower <- lift (py_lower category_name) ;;
  categories <- read_categories ;;
  items <- lift (py_iter categories) ;;
  found <- lift (any_lower_eq category_name_lower items) ;;
  if found : bool then ret (category_name_lower, 1%Z)
  else
    categories' <- lift (py_append categories (JStr category_name_lower)) ;;
    _ <- write_registry categories' ;;
    ret (category_name_lower, 10%Z).

End Registry.

(* ================================================================== *)
(** ** [process_ai_response] *)
(* ================================================================== *)

Section Interpreter.
Context {B : Builtins}.
Local Open Scope py_scope.
Local Open Scope Z_scope.

(** The body of the [try] block, lines 106-129. *)
Definition process_body (response_content : str) : M score_tuple :=
  let response_content := strip response_content in
  let start_idx := find 123%N response_content in
  let end_idx := rfind 125%N response_content + 1 in
  if negb (start_idx =? -1) && negb (end_idx =? -1) then
    let json_str := slice response_content start_idx end_idx in
    analysis <- lift (json_loads json_str) ;;
    category_name <-
      lift (py_get analysis (py "detected_category") (JStr (py "unknown"))) ;;
    ' (category, category_score) <- add_category category_name ;;
    name <- lift (py_get analysis (py "Name") (JStr (py "unknown"))) ;;
    let name_of_drawing := py_str name in
    count <- lift (py_get analysis (py "detail_count") (JInt 0)) ;;
    detail_score <- lift (py_int count) ;;
    let total_score := category_score + detail_score in
    _ <- lift (print_score total_score category detail_score
                 name_of_drawing) ;;
    ret (total_score, category, detail_score, name_of_drawing)
  else
    ret sentinel.

(** The handler of lines 131-134 prints the exception, whose message is
    plain ASCII, and then the stripped response itself. *)
Definition process_ai_response (response_content : str) : M score_tuple :=
  fun w =>
    try_except (process_body response_content)
      [JSONDecodeError; KeyError; ValueError]
      (_ <- lift (py_print (py "Raw response: " ++ strip response_content)) ;;
       ret sentinel)
      (record (Interpreted response_content) w).

End Interpreter.

(* ================================================================== *)
(** ** [analyze_drawing] *)
(* ================================================================== *)

Section Base64.
Local Open Scope N_scope.

Definition b64_char (n : N) : codepoint :=
  if n <? 26 then 65 + n
  else if n <? 52 then 97 + (n - 26)
  else if n <? 62 then 48 + (n - 52)
  else if n =? 62 then 43
  else 47.

(** [base64.b64encode(data).decode('utf-8')] *)
Fixpoint b64encode (data : list N) : str :=
  match data with
  | [] => []
  | [a] => [b64_char (a / 4); b64_char (a mod 4 * 16); 61; 61]
  | [a; b] =>
      [b64_char (a / 4); b64_char (a mod 4 * 16 + b / 16);
       b64_char (b mod 16 * 4); 61]
  | a :: b :: c :: rest =>
      [b64_char (a / 4); b64_char (a mod 4 * 16 + b / 16);
       b64_char (b mod 16 * 4 + c / 64); b64_char (c mod 64)]
      ++ b64encode rest
  end.

End Base64.

(** The one chat request of a run. *)
Record request : Type := {
  req_model : str;
  req_temperature : pyfloat;
  req_system : str;
  req_images : list (str * str)   (** a label and a data URL each *)
}.

(** What the program cannot see into: the files it reads and the service
    it calls.  A response is the list of its choices, each with the content
    of its message ([None] for no content). *)
Record env : Type := {
  read_binary : str -> res (list N);
  chat_create : request -> res (list (option str))
}.

Section Pipeline.
Context {B : Builtins}.
Variable system_prompt : str.
Variable E : env.
Local Open Scope py_scope.

Definition data_url (b64 : str) : str := py "data:image/png;base64," ++ b64.

(** The request of lines 147-161: the rubric as system message, then the
    two images in one user message. *)
Definition chat_request (base_image drawing_image : list N) : request :=
  {| req_model := py "gpt-4o-mini";
     req_temperature := FDec false 9 (-1);
     req_system := system_prompt;
     req_images :=
       [ (py "Base image:", data_url (b64encode base_image));
         (py "Drawing to analyze:", data_url (b64encode drawing_image)) ] |}.

(** [not text or not text.strip()] for a string: both say that nothing
    is left after stripping. *)
Definition is_blank (text : str) : bool :=
  match strip text with
  | [] => true
  | _ :: _ => false
  end.

Definition analyze_drawing (base_image_path drawing_path : str)
  : M score_tuple :=
  try_except
    (base_image <- lift (read_binary E base_image_path) ;;
     drawing_image <- lift (read_binary E drawing_path) ;;
     response <- lift (chat_create E (chat_request base_image drawing_image)) ;;
     ai_response <-
       lift (match response with
             | choice :: _ => Return choice
             | [] => Raise IndexError
             end) ;;
     match ai_response with
     | None => ret sentinel
     | Some text =>
         if is_blank text then ret sentinel
         else
           _ <- lift (py_print (py "Raw AI response: " ++ text)) ;;
           process_ai_response text
     end)
    [Exception]
    (ret sentinel).

End Pipeline.

(* ================================================================== *)
(** ** [Player_playing] *)
(* ================================================================== *)

(** The keyword arguments of the [DrawingScore(...)] call of lines 207-216,
    field by field.  What pydantic then does with them (it stores
    [ArtScore] as a [float]) is outside the model. *)
Record DrawingScore : Type := {
  Player_name : str;
  Player_age : Z;
  ArtCategory : str;
  ArtDetailScore : Z;
  BaseImagePath : str;
  AnalyzingImagePath : str;
  ArtScore : Z;
  NameOfDrawing : str
}.

(** How a session ends: at its last statement, with the arguments of the
    call it makes there; with an exception of one of the classes above; or
    with the [EOFError] that [input()] raises at the end of standard input.
    [Player_playing] has no handler, so the place of [EOFError] in the
    class hierarchy plays no role. *)
Inductive ending (A : Type) : Type :=
| Finished (a : A)
| Escaped (e : exn)
| EOFError.
Arguments Escaped {A} e.
Arguments EOFError {A}.

(** Arguments that pydantic takes as they are, whatever its version:
    strings without surrogates, integers of at most 64 bits, and a score
    that a [float] holds exactly.  On these the [DrawingScore(...)] call
    returns the record; what it does on others is outside the model. *)
Definition accepted_as_is (r : DrawingScore) : bool :=
  forallb encodable (Player_name r)
  && forallb encodable (ArtCategory r)
  && forallb encodable (BaseImagePath r)
  && forallb encodable (AnalyzingImagePath r)
  && forallb encodable (NameOfDrawing r)
  && (Z.abs (Player_age r) <? 2 ^ 63)%Z
  && (Z.abs (ArtDetailScore r) <? 2 ^ 63)%Z
  && (Z.abs (ArtScore r) <=? 2 ^ 53)%Z.

Section Session.
Context {B : Builtins}.
Variable system_prompt : str.
Variable E : env.
(** [os.path.exists], as the file system is while the questions are
    asked. *)
Variable path_exists : str -> bool.
Local Open Scope py_scope.

(** The loops of lines 183-188 and 191-196 over the lines still to be read
    from standard input: each [input()] takes one line; the first answer
    whose path exists ends the loop.  [None] when the input ends first. *)
Fixpoint ask_path (folder : str) (stdin : list str)
  : option (str * list str) :=
  match stdin with
  | [] => None
  | answer :: rest =>
      let full_path := folder ++ answer in
      if path_exists full_path then Some (full_path, rest)
      else ask_path folder rest
  end.

(** [Player_playing()], given the lines of standard input: how it ends,
    the lines it has not read, and the world it leaves. *)
Definition Player_playing (stdin : list str) (w : world)
  : ending DrawingScore * list str * world :=
  match stdin with
  | name :: age :: stdin2 =>
      match int_of_str age with
      | Raise e => (Escaped e, stdin2, w)
      | Return age_value =>
          match ask_path (py "./Images/Base/") stdin2 with
          | None => (EOFError, [], w)
          | Some (full_base_path, stdin3) =>
              match ask_path (py "./Images/Drawing/") stdin3 with
              | None => (EOFError, [], w)
              | Some (full_analyzing_path, stdin4) =>
                  match analyze_drawing system_prompt E
                          full_base_path full_analyzing_path w with
                  | (Return (score, category, detail_score, name_of_drawing),
                     w') =>
                      (Finished
                         {| Player_name := name;
                            Player_age := age_value;
                            ArtCategory := category;
                            ArtDetailScore := detail_score;
                            BaseImagePath := full_base_path;
                            AnalyzingImagePath := full_analyzing_path;
                            ArtScore := score;
                            NameOfDrawing := name_of_drawing |},
                       stdin4, w')
                  | (Raise e, w') => (Escaped e, stdin4, w')
                  end
              end
          end
      end
  | _ => (EOFError, [], w)
  end.

End Session.

(* ================================================================== *)
(** ** A runtime for ASCII text *)
(* ================================================================== *)

Definition ascii_lower_char (c : codepoint) : codepoint :=
  if (N.leb 65 c && N.leb c 90)%bool then (c + 32)%N else c.

(** Builtins that are exact on ASCII text: [lower] folds A-Z only, no
    non-ASCII digit is known, and [repr] is left empty. *)
Definition ascii_builtins : Builtins :=
  {| lower := map ascii_lower_char;
     decimal := fun _ => None;
     repr := fun _ => [];
     spare_depth := 988 |}.

(* ================================================================== *)
(** ** Notions used in the statements and proofs *)
(* ================================================================== *)

(** The document [json.loads] returns for a registry of [cats]. *)
Definition registry_document (cats : list str) : json :=
  JDict [(py "categories", JList (map JStr cats))].

(** The registry of [w] reads as the list of names [cats]. *)
Definition stored {B : Builtins} (w : world) (cats : list str) : Prop :=
  fst (read_categories w) = Return (JList (map JStr cats)).

(** The world after [names] were resolved one after the other. *)
Definition after_calls {B : Builtins} (names : list str) (w : world) : world :=
  fold_left (fun w' n => snd (add_category (JStr n) w')) names w.

(** The world [add_category] leaves after adding [n] to [cats]. *)
Definition with_new_category (w : world) (cats : list str) (n : str) : world :=
  {| registry_file := Some (dump_categories (cats ++ [n]));
     events := events w ++ [WroteRegistry (dump_categories (cats ++ [n]))] |}.

(** A registry that reads as well-formed names, [canonical] among them. *)
Definition holds {B : Builtins} (canonical : str) (w : world) : Prop :=
  exists cats, stored w cats
               /\ Forall (fun s => text_ok s = true) cats
               /\ In canonical cats.

(** The response of the example, and what it decodes to. *)
Definition sun_picture : str :=
  pyq "blah {'Name':'Sun Picture','detected_category':'Landscape','detail_count':4} blah".

Definition sun_picture_analysis : json :=
  JDict [ (py "Name", JStr (py "Sun Picture"));
          (py "detected_category", JStr (py "Landscape"));
          (py "detail_count", JInt 4%Z) ].

(** Two environments for concrete runs: one whose service answers with
    blanks, one without the image files. *)
Definition blank_env : env :=
  {| read_binary := fun _ => Return [137; 80; 78; 71]%N;
     chat_create := fun _ => Return [Some (py "   ")] |}.

Definition no_files_env : env :=
  {| read_binary := fun _ => Raise FileNotFoundError;
     chat_create := fun _ => Raise ConnectionError |}.

(** What a scanner accepts is shorter than what it was given. *)
Definition consuming (f : nat) : Prop :=
  (forall d s v r, scan_once f d s = Ok v r -> (length r < length s)%nat)
  /\ (forall d acc s v r,
        parse_members f d acc s = Ok v r -> (length r < length s)%nat)
  /\ (forall d acc s v r,
        parse_items f d acc s = Ok v r -> (length r < length s)%nat).

(** A budget above twice the input length is never used up. *)
Definition sufficient (f : nat) : Prop :=
  (forall d s, (2 * length s < f)%nat -> scan_once f d s <> Fuel)
  /\ (forall d acc s,
        (2 * length s < f)%nat -> parse_members f d acc s <> Fuel)
  /\ (forall d acc s,
        (2 * length s + 1 < f)%nat -> parse_items f d acc s <> Fuel).

Section Surrogates.
Local Open Scope N_scope.

(** The input after a high surrogate escape starts with the escape of a
    low surrogate, or with an escape that does not decode. *)
Definition low_escape_ahead (t : str) : bool :=
  match t with
  | b :: u :: l1 :: l2 :: l3 :: l4 :: _ =>
      (b =? 92) && (u =? 117) &&
      match hex4 l1 l2 l3 l4 with
      | Some u2 => is_low_surrogate u2
      | None => true
      end
  | _ => false
  end.

(** The shapes [escape_char] produces. *)
Inductive escape_shape (c : codepoint) : str -> Prop :=
| shape_short (x : N) :
    x <> 117 -> unescape x = Some c -> escape_shape c [92; x]
| shape_literal :
    c <> 34 -> c <> 92 -> 32 <= c -> escape_shape c [c]
| shape_u :
    c < 65536 -> escape_shape c (u_escape c)
| shape_pair :
    65536 <= c ->
    escape_shape c (u_escape (high_half c) ++ u_escape (low_half c)).

Definition head_not_low (s : str) : Prop :=
  match s with
  | c :: _ => is_low_surrogate c = false
  | [] => True
  end.

Definition is_surrogate (c : codepoint) : bool :=
  is_high_surrogate c || is_low_surrogate c.

(** Text as it comes out of a UTF-8 decoder: code points in range, none of
    them a surrogate. *)
Definition plain_text (s : str) : bool :=
  forallb (fun c => (c <=? 1114111) && negb (is_surrogate c)) s.

(** One step of [scanstring] on plain text: either the string ends, or a
    code point [ch] is read and scanning goes on at a shorter plain
    suffix.  A high surrogate is not followed by the escape of a low one,
    and a low surrogate was written as an escape. *)
Inductive scan_step (s : str) (v r : str) : Prop :=
| step_end : v = [] -> s = 34 :: r -> scan_step s v r
| step_char (ch : codepoint) (v' t : str) :
    v = ch :: v' ->
    scanstring t = Some (v', r) ->
    (length t < length s)%nat ->
    plain_text t = true ->
    ch <= 1114111 ->
    (is_high_surrogate ch = true -> low_escape_ahead t = false) ->
    (is_low_surrogate ch = true -> low_escape_ahead s = true) ->
    scan_step s v r.

End Surrogates.

(** Every string among the values of [j] is round-trippable text. *)
Fixpoint json_ok (j : json) : bool :=
  match j with
  | JStr s => text_ok s
  | JList l => forallb json_ok l
  | JDict d => forallb (fun kv => json_ok (snd kv)) d
  | JNull | JBool _ | JInt _ | JFloat _ => true
  end.

(** What the scanners decode from plain text holds round-trippable
    strings only, and what they leave unread is plain text. *)
Definition decoding_plain (f : nat) : Prop :=
  (forall d s v r,
      plain_text s = true -> scan_once f d s = Ok v r ->
      json_ok v = true /\ plain_text r = true)
  /\ (forall d acc s v r,
        plain_text s = true ->
        forallb (fun kv => json_ok (snd kv)) acc = true ->
        parse_members f d acc s = Ok v r ->
        json_ok v = true /\ plain_text r = true)
  /\ (forall d acc s v r,
        plain_text s = true -> forallb json_ok acc = true ->
        parse_items f d acc s = Ok v r ->
        json_ok v = true /\ plain_text r = true).

(** The registry file holds plain text, as any file read in text mode
    does. *)
Definition plain_registry (w : world) : Prop :=
  match registry_file w with
  | Some text => plain_text text = true
  | None => True
  end.

(** The names of a registry of [cats] once [n] has been resolved against
    it: as they were when an entry lower-cases to [n.lower()], with
    [n.lower()] appended otherwise. *)
Definition resolved {B : Builtins} (cats : list str) (n : str) : list str :=
  if existsb (fun c => str_eqb (lower n) (lower c)) cats then cats
  else cats ++ [lower n].

(** Lines 117-129 of [process_ai_response]: the tuple for a decoded
    [analysis]. *)
Definition score_analysis {B : Builtins} (analysis : json) : M score_tuple :=
  (category_name <-
     lift (py_get analysis (py "detected_category") (JStr (py "unknown"))) ;;
   ' (category, category_score) <- add_category category_name ;;
   name <- lift (py_get analysis (py "Name") (JStr (py "unknown"))) ;;
   count <- lift (py_get analysis (py "detail_count") (JInt 0)) ;;
   detail_score <- lift (py_int count) ;;
   _ <- lift (print_score (category_score + detail_score)%Z category
                detail_score (py_str name)) ;;
   ret ((category_score + detail_score)%Z, category, detail_score,
        py_str name))%py.

(** What the handler of lines 131-134 ends with: the sentinel, once the
    stripped response has been printed. *)
Definition fallback (response_content : str) : res score_tuple :=
  if forallb encodable (strip response_content) then Return sentinel
  else Raise UnicodeEncodeError.

(** A response without a closing brace that standard output cannot
    encode: a lone surrogate before an opening brace. *)
Definition unprintable_open : str := [55296; 123]%N.

(** [d.get(key, default)] on the items of a [dict]. *)
Definition get_or (d : list (str * json)) (key : str) (default : json) : json :=
  match dict_lookup d key with
  | Some v => v
  | None => default
  end.

(** Two worlds with the same registry file; their event logs may differ. *)
Definition same_file (w1 w2 : world) : Prop :=
  registry_file w1 = registry_file w2.

(** The world [w] with the registry file [f] and the events [l] logged
    after its own. *)
Definition extends (w : world) (f : option str) (l : list event) : world :=
  {| registry_file := f; events := events w ++ l |}.

(** A statement that reads nothing of the world but the registry file: in
    two worlds with the same file it has the same outcome, leaves the same
    file and logs the same events. *)
Definition framed {A} (m : M A) : Prop :=
  forall w1 w2, same_file w1 w2 ->
    exists r f l, m w1 = (r, extends w1 f l) /\ m w2 = (r, extends w2 f l).

(** What one call may do to the world: nothing, or one rewrite of the
    registry file, logged as it happens. *)
Definition at_most_one_write (w w' : world) : Prop :=
  w' = w
  \/ exists text, w' = extends w (Some text) [WroteRegistry text].

(** A tuple as the interpreter returns it: the sentinel, or a category
    score of 1 or 10 on top of the detail score, for a lower-cased
    category. *)
Definition scored {B : Builtins} (t : score_tuple) : Prop :=
  let '(total, category, detail, _) := t in
  t = sentinel
  \/ ((total = 1 + detail \/ total = 10 + detail)%Z
      /\ exists name, category = lower name).

(** Printable ASCII, or a line feed. *)
Definition printable (c : codepoint) : bool :=
  ((32 <=? c) && (c <=? 126) || (c =? 10))%N.

(** The alphabet of base64, and the padding character. *)
Definition is_b64_char (c : codepoint) : bool :=
  ((65 <=? c) && (c <=? 90) || (97 <=? c) && (c <=? 122)
   || (48 <=? c) && (c <=? 57) || (c =? 43) || (c =? 47) || (c =? 61))%N.

(** For concrete runs: a file system with one base image and one drawing,
    and a service that answers with the example response. *)
Definition studio (path : str) : bool :=
  str_eqb path (py "./Images/Base/BasePic1.png")
  || str_eqb path (py "./Images/Drawing/DrawingPic1.png").

Definition sun_env : env :=
  {| read_binary := fun _ => Return [137; 80; 78; 71]%N;
     chat_create := fun _ => Return [Some sun_picture] |}.


(* ================================================================== *)
(** * Properties *)
(* ================================================================== *)

Unset Implicit Arguments.

(** ** Strings *)

Lemma str_eqb_eq (a b : str) : str_eqb a b = true <-> a = b.
Proof.
  revert b; induction a as [|x a IH]; intros [|y b]; simpl;
    try (split; [discriminate | congruence]); try tauto.
  rewrite andb_true_iff, N.eqb_eq, IH.
  split; [intros [-> ->]; reflexivity | intros [= -> ->]; auto].
Qed.

Lemma str_eqb_refl (a : str) : str_eqb a a = true.
Proof. apply str_eqb_eq; reflexivity. Qed.

Lemma lstrip_incl (s : str) (c : codepoint) : In c (lstrip s) -> In c s.
Proof.
  induction s as [|x s IH]; simpl; auto.
  destruct (is_space x); simpl; auto.
Qed.

Lemma strip_incl (s : str) (c : codepoint) : In c (strip s) -> In c s.
Proof.
  unfold strip, rstrip; intros H.
  apply lstrip_incl.
  apply in_rev in H; apply lstrip_incl in H; apply in_rev in H; exact H.
Qed.

Lemma lstrip_all_space (s : str) : forallb is_space s = true -> lstrip s = [].
Proof.
  induction s as [|x s IH]; simpl; auto.
  destruct (is_space x); simpl; [exact IH | discriminate].
Qed.

Lemma strip_all_space (s : str) : forallb is_space s = true -> strip s = [].
Proof.
  intros H; unfold strip; rewrite (lstrip_all_space s H); reflexivity.
Qed.

Lemma find_from_absent (ch : codepoint) (s : str) (i : Z) :
  ~ In ch s -> find_from ch s i = (-1)%Z.
Proof.
  revert i; induction s as [|c s IH]; simpl; intros i H; auto.
  destruct (N.eqb_spec c ch) as [->|_]; [tauto|].
  apply IH; tauto.
Qed.

Lemma find_from_lower_bound (ch : codepoint) (s : str) (i : Z) :
  find_from ch s i = (-1)%Z \/ (i <= find_from ch s i)%Z.
Proof.
  revert i; induction s as [|c s IH]; simpl; intros i; auto.
  destruct (N.eqb c ch); [right; lia|].
  destruct (IH (i + 1)%Z); [auto | right; lia].
Qed.

Lemma rfind_from_absent (ch : codepoint) (s : str) (i last : Z) :
  ~ In ch s -> rfind_from ch s i last = last.
Proof.
  revert i last; induction s as [|c s IH]; simpl; intros i last H; auto.
  destruct (N.eqb_spec c ch) as [->|_]; [tauto|].
  apply IH; tauto.
Qed.

(** A slice that ends at index 0 is empty when it starts at or after 0. *)
Lemma slice_to_zero (s : str) (a : Z) : (0 <= a)%Z -> slice s a 0 = [].
Proof.
  intros Ha; unfold slice, clamp_index.
  assert (H0 : (0 <=? -1)%Z = false) by reflexivity.
  replace (0 <? 0)%Z with false by reflexivity.
  destruct (a <? 0)%Z eqn:E; [apply Z.ltb_lt in E; lia|].
  replace (Z.to_nat _) with 0%nat by lia.
  reflexivity.
Qed.

(** ** Exceptions *)

(** Every modelled exception is an instance of [Exception]. *)
Lemma caught_by_Exception (e : exn) : caught_by [Exception] e = true.
Proof. destruct e; reflexivity. Qed.

(** ** Round trip of the persistence format *)

Section RoundTrip.
Local Open Scope N_scope.

Lemma hex_digit_char (n : N) : n < 16 -> hex_digit (hex_char n) = Some n.
Proof.
  intros H. destruct n as [|p]; [reflexivity|].
  do 4 (destruct p as [p|p|]; try reflexivity); lia.
Qed.

Lemma hex4_u_escape (c : N) : c < 65536 ->
  hex4 (hex_char (c / 4096)) (hex_char ((c / 256) mod 16))
       (hex_char ((c / 16) mod 16)) (hex_char (c mod 16)) = Some c.
Proof.
  intros H. unfold hex4.
  rewrite !hex_digit_char.
  - f_equal.
    pose proof (N.div_mod c 16). pose proof (N.div_mod (c/16) 16). pose proof (N.div_mod (c/256) 16).
    Zify.zify. Z.div_mod_to_equations. lia.
  - apply N.mod_lt; lia.
  - apply N.mod_lt; lia.
  - apply N.mod_lt; lia.
  - apply N.Div0.div_lt_upper_bound; lia.
Qed.

Lemma scanstring_literal (c : codepoint) (t : str) :
  c <> 34 -> c <> 92 -> 32 <= c ->
  scanstring (c :: t) = push_char c (scanstring t).
Proof.
  intros H1 H2 H3. cbn [scanstring].
  destruct (N.eqb_spec c 34); [contradiction|].
  destruct (N.eqb_spec c 92); [contradiction|].
  destruct (N.leb_spec c 31); [lia|]. reflexivity.
Qed.

Lemma scanstring_u (h1 h2 h3 h4 u : N) (t : str) :
  hex4 h1 h2 h3 h4 = Some u ->
  is_high_surrogate u = false \/ low_escape_ahead t = false ->
  scanstring (92 :: 117 :: h1 :: h2 :: h3 :: h4 :: t) = push_char u (scanstring t).
Proof.
  intros Hh Hc.
  cbn [scanstring]. 
  change (92 =? 34) with false. change (92 =? 92) with true.
  change (117 =? 117) with true. cbv iota. rewrite Hh.
  destruct (is_high_surrogate u) eqn:Eh; [|reflexivity].
  destruct Hc as [Hc|Hc]; [discriminate|].
  destruct t as [|b [|u' [|l1 [|l2 [|l3 [|l4 t3]]]]]]; try reflexivity.
  unfold low_escape_ahead in Hc.
  destruct ((b =? 92) && (u' =? 117)); [|reflexivity].
  simpl in Hc. destruct (hex4 l1 l2 l3 l4); [|discriminate].
  rewrite Hc. reflexivity.
Qed.

Lemma scanstring_pair (h1 h2 h3 h4 l1 l2 l3 l4 hi lo : N) (t : str) :
  hex4 h1 h2 h3 h4 = Some hi -> is_high_surrogate hi = true ->
  hex4 l1 l2 l3 l4 = Some lo -> is_low_surrogate lo = true ->
  scanstring (92 :: 117 :: h1 :: h2 :: h3 :: h4 ::
              92 :: 117 :: l1 :: l2 :: l3 :: l4 :: t)
  = push_char (join_surrogates hi lo) (scanstring t).
Proof.
  intros Hh Hhi Hl Hlo.
  cbn [scanstring].
  change (92 =? 34) with false. change (92 =? 92) with true.
  change (117 =? 117) with true. cbv iota. rewrite Hh, Hhi.
  cbn [andb]. rewrite Hl, Hlo. reflexivity.
Qed.

Lemma low_escape_ahead_first (b : N) (t : str) :
  b <> 92 -> low_escape_ahead (b :: t) = false.
Proof.
  intros H. destruct t as [|u [|l1 [|l2 [|l3 [|l4 t]]]]]; try reflexivity.
  unfold low_escape_ahead. destruct (N.eqb_spec b 92); [contradiction|].
  reflexivity.
Qed.

Lemma low_escape_ahead_second (b u : N) (t : str) :
  u <> 117 -> low_escape_ahead (b :: u :: t) = false.
Proof.
  intros H. destruct t as [|l1 [|l2 [|l3 [|l4 t]]]]; try reflexivity.
  unfold low_escape_ahead. destruct (N.eqb_spec u 117); [contradiction|].
  rewrite andb_false_r. reflexivity.
Qed.

Lemma low_escape_ahead_u (c : N) (t : str) :
  c < 65536 -> is_low_surrogate c = false ->
  low_escape_ahead (u_escape c ++ t) = false.
Proof.
  intros Hc Hl. unfold u_escape, low_escape_ahead. cbn [app].
  rewrite (hex4_u_escape c Hc), Hl. reflexivity.
Qed.

Lemma halves_spec (c : N) :
  65536 <= c -> c <= 1114111 ->
  high_half c < 65536 /\ low_half c < 65536
  /\ is_high_surrogate (high_half c) = true
  /\ is_low_surrogate (high_half c) = false
  /\ is_low_surrogate (low_half c) = true
  /\ join_surrogates (high_half c) (low_half c) = c.
Proof.
  intros H1 H2. unfold high_half, low_half, is_high_surrogate,
    is_low_surrogate, join_surrogates.
  assert (Hq : (c - 65536) / 1024 < 1024)
    by (apply N.Div0.div_lt_upper_bound; lia).
  rewrite (N.mod_small _ _ Hq).
  pose proof (N.mod_lt (c - 65536) 1024 ltac:(lia)) as Hr.
  pose proof (N.div_mod (c - 65536) 1024 ltac:(lia)) as Hd.
  set (q := (c - 65536) / 1024) in *.
  set (r := (c - 65536) mod 1024) in *.
  repeat split.
  - lia.
  - lia.
  - apply andb_true_iff; split; apply N.leb_le; lia.
  - apply andb_false_iff; left; apply N.leb_gt; lia.
  - apply andb_true_iff; split; apply N.leb_le; lia.
  - lia.
Qed.

Lemma escape_char_shape (c : codepoint) : escape_shape c (escape_char c).
Proof.
  unfold escape_char.
  destruct (N.eqb_spec c 34) as [->|H34]; [apply shape_short; [lia|reflexivity]|].
  destruct (N.eqb_spec c 92) as [->|H92]; [apply shape_short; [lia|reflexivity]|].
  destruct (N.eqb_spec c 10) as [->|H10]; [apply shape_short; [lia|reflexivity]|].
  destruct (N.eqb_spec c 13) as [->|H13]; [apply shape_short; [lia|reflexivity]|].
  destruct (N.eqb_spec c 9) as [->|H9]; [apply shape_short; [lia|reflexivity]|].
  destruct (N.eqb_spec c 12) as [->|H12]; [apply shape_short; [lia|reflexivity]|].
  destruct (N.eqb_spec c 8) as [->|H8]; [apply shape_short; [lia|reflexivity]|].
  destruct ((32 <=? c) && (c <=? 126)) eqn:Eprint.
  { apply andb_true_iff in Eprint as [Hlo _]. apply N.leb_le in Hlo.
    apply shape_literal; assumption. }
  destruct (N.ltb_spec c 65536) as [Hlt|Hge].
  - apply shape_u; assumption.
  - apply shape_pair; assumption.
Qed.

Lemma low_escape_ahead_encoded (s rest : str) :
  head_not_low s -> forallb (fun c => c <=? 1114111) s = true ->
  low_escape_ahead (flat_map escape_char s ++ 34 :: rest) = false.
Proof.
  destruct s as [|c s]; intros Hl Hr.
  - apply low_escape_ahead_first; lia.
  - simpl in Hl, Hr. apply andb_true_iff in Hr as [Hc _]. apply N.leb_le in Hc.
    cbn [flat_map]. rewrite <- app_assoc.
    destruct (escape_char_shape c) as [x Hx _| H34 H92 _ | Hlt | Hge].
    + apply low_escape_ahead_second; assumption.
    + apply low_escape_ahead_first; assumption.
    + apply low_escape_ahead_u; assumption.
    + rewrite <- app_assoc.
      destruct (halves_spec c Hge Hc) as (Hh & _ & _ & Hnl & _).
      apply low_escape_ahead_u; assumption.
Qed.

Lemma text_ok_cons (c : codepoint) (s : str) :
  text_ok (c :: s) = true ->
  c <= 1114111 /\ text_ok s = true
  /\ (is_high_surrogate c = false \/ head_not_low s).
Proof.
  intros H. unfold text_ok in H. cbn [forallb] in H.
  rewrite !andb_true_iff in H. destruct H as [[Hc Hs] Hp].
  apply N.leb_le in Hc.
  split; [exact Hc|].
  destruct s as [|b s'].
  - split; [reflexivity | right; exact I].
  - change (pair_free (c :: b :: s'))
      with (negb (is_high_surrogate c && is_low_surrogate b)
            && pair_free (b :: s')) in Hp.
    apply andb_true_iff in Hp as [Hn Hp].
    split.
    + unfold text_ok. rewrite Hs, Hp. reflexivity.
    + apply negb_true_iff, andb_false_iff in Hn.
      destruct Hn; [left | right]; assumption.
Qed.

(** Decoding an encoded string gives the string back. *)
Lemma scanstring_encoded (s rest : str) :
  text_ok s = true ->
  scanstring (flat_map escape_char s ++ 34 :: rest) = Some (s, rest).
Proof.
  induction s as [|c s IH]; intros Hok.
  - reflexivity.
  - destruct (text_ok_cons c s Hok) as (Hc & Hs & Hpair).
    assert (Hrange : forallb (fun c => c <=? 1114111) s = true).
    { unfold text_ok in Hs. apply andb_true_iff in Hs; tauto. }
    cbn [flat_map]. rewrite <- app_assoc.
    set (t := flat_map escape_char s ++ 34 :: rest) in *.
    specialize (IH Hs).
    destruct (escape_char_shape c) as [x Hx Hun | H34 H92 H32 | Hlt | Hge].
    + cbn [app scanstring].
      change (92 =? 34) with false. change (92 =? 92) with true. cbv iota.
      destruct (N.eqb_spec x 117); [contradiction|].
      rewrite Hun, IH. reflexivity.
    + cbn [app]. rewrite scanstring_literal, IH by assumption. reflexivity.
    + unfold u_escape. cbn [app].
      rewrite scanstring_u with (u := c).
      * rewrite IH. reflexivity.
      * apply hex4_u_escape; assumption.
      * destruct Hpair as [Hh|Hh]; [left; exact Hh | right].
        apply low_escape_ahead_encoded; assumption.
    + destruct (halves_spec c Hge Hc) as (Hh & Hl & Hhi & _ & Hlo & Hj).
      rewrite <- app_assoc. unfold u_escape. cbn [app].
      rewrite scanstring_pair with (hi := high_half c) (lo := low_half c);
        try assumption; try (apply hex4_u_escape; assumption).
      rewrite Hj, IH. reflexivity.
Qed.

(** One step of each scanner, on the first character. *)
Lemma scan_once_string (f d : nat) (t : str) :
  scan_once (S f) d (34 :: t)
  = match scanstring t with
    | Some (v, r) => Ok (JStr v) r
    | None => Bad
    end.
Proof. reflexivity. Qed.

Lemma scan_once_object (f d : nat) (t : str) :
  scan_once (S f) (S d) (123 :: t)
  = match skip_ws t with
    | c' :: t' => if c' =? 125 then Ok (JDict []) t'
                  else parse_members f d [] (c' :: t')
    | [] => Bad
    end.
Proof. reflexivity. Qed.

Lemma scan_once_array (f d : nat) (t : str) :
  scan_once (S f) (S d) (91 :: t)
  = match skip_ws t with
    | c' :: t' => if c' =? 93 then Ok (JList []) t'
                  else parse_items f d [] (c' :: t')
    | [] => Bad
    end.
Proof. reflexivity. Qed.

Lemma parse_items_step (f depth : nat) (acc : list json) (s : str) :
  parse_items (S f) depth acc s
  = match scan_once f depth s with
    | Ok v r =>
        match skip_ws r with
        | d :: r1 =>
            if d =? 93 then Ok (JList (acc ++ [v])) r1
            else if d =? 44 then parse_items f depth (acc ++ [v]) (skip_ws r1)
            else Bad
        | [] => Bad
        end
    | Bad => Bad
    | TooLong => TooLong
    | TooDeep => TooDeep
    | Fuel => Fuel
    end.
Proof. reflexivity. Qed.

Lemma parse_members_step (f depth : nat) (acc : list (str * json))
    (t : str) :
  parse_members (S f) depth acc (34 :: t)
  = match scanstring t with
    | None => Bad
    | Some (k, r) =>
        match skip_ws r with
        | colon :: r1 =>
            if colon =? 58 then
              match scan_once f depth (skip_ws r1) with
              | Ok v r2 =>
                  match skip_ws r2 with
                  | d :: r3 =>
                      if d =? 125 then Ok (JDict (dict_set acc k v)) r3
                      else if d =? 44
                      then parse_members f depth (dict_set acc k v)
                             (skip_ws r3)
                      else Bad
                  | [] => Bad
                  end
              | Bad => Bad
              | TooLong => TooLong
              | TooDeep => TooDeep
              | Fuel => Fuel
              end
            else Bad
        | [] => Bad
        end
    end.
Proof. reflexivity. Qed.

Lemma encode_str_app (s t : str) :
  encode_str s ++ t = 34 :: flat_map escape_char s ++ 34 :: t.
Proof. unfold encode_str. cbn [app]. rewrite <- app_assoc. reflexivity. Qed.

Lemma scan_once_encoded (f d : nat) (s rest : str) :
  text_ok s = true ->
  scan_once (S f) d (encode_str s ++ rest) = Ok (JStr s) rest.
Proof.
  intros Hok. rewrite encode_str_app, scan_once_string.
  rewrite (scanstring_encoded s rest Hok). reflexivity.
Qed.

Lemma dump_items_cons (s : str) (l : list str) :
  dump_items (s :: l)
  = match l with
    | [] => encode_str s
    | _ :: _ => encode_str s ++ [44; 10; 32; 32; 32; 32] ++ dump_items l
    end.
Proof. destruct l; reflexivity. Qed.

Lemma dump_items_head (s : str) (l : list str) :
  exists t, dump_items (s :: l) = 34 :: t.
Proof.
  rewrite dump_items_cons. destruct l; unfold encode_str; cbn [app]; eauto.
Qed.

Lemma skip_ws_dump_items (s : str) (l : list str) (rest : str) :
  skip_ws (dump_items (s :: l) ++ rest) = dump_items (s :: l) ++ rest.
Proof. destruct (dump_items_head s l) as [t ->]. reflexivity. Qed.

Lemma dump_items_not_closing {T} (s : str) (l : list str) (rest : str)
    (closing : str -> T) (item : str -> T) (eof : T) :
  match dump_items (s :: l) ++ rest with
  | c' :: t' => if c' =? 93 then closing t' else item (c' :: t')
  | [] => eof
  end = item (dump_items (s :: l) ++ rest).
Proof. destruct (dump_items_head s l) as [t ->]. reflexivity. Qed.

(** The array loop reads back the items that [dump_items] wrote. *)
Lemma parse_items_dumped (l : list str) :
  l <> [] -> Forall (fun s => text_ok s = true) l ->
  forall (f d : nat) (acc : list json) (rest : str),
    (length l < f)%nat ->
    parse_items f d acc (dump_items l ++ 10 :: 32 :: 32 :: 93 :: rest)
    = Ok (JList (acc ++ map JStr l)) rest.
Proof.
  induction l as [|s l IH]; [contradiction|].
  intros _ Hok f d acc rest Hf.
  inversion Hok as [|? ? Hs Hl]; subst.
  destruct f as [|[|f]]; cbn [length] in Hf; try lia.
  rewrite parse_items_step, dump_items_cons.
  destruct l as [|s2 l2].
  - rewrite (scan_once_encoded f d s _ Hs). reflexivity.
  - rewrite <- !app_assoc.
    rewrite (scan_once_encoded f d s _ Hs).
    cbn [app skip_ws is_json_ws N.eqb Pos.eqb orb].
    rewrite skip_ws_dump_items.
    rewrite (IH ltac:(discriminate) Hl (S f) d (acc ++ [JStr s]) rest).
    + rewrite <- app_assoc. reflexivity.
    + cbn [length] in *. lia.
Qed.

Lemma encode_str_length (s : str) : (2 <= length (encode_str s))%nat.
Proof.
  unfold encode_str. cbn [length]. rewrite length_app. cbn [length]. lia.
Qed.

Lemma dump_items_length (l : list str) : (length l <= length (dump_items l))%nat.
Proof.
  induction l as [|s l IH]; [apply Nat.le_refl|].
  rewrite dump_items_cons. pose proof (encode_str_length s).
  destruct l as [|s2 l2].
  - cbn [length]. lia.
  - rewrite !length_app.
    change (length (s :: s2 :: l2)) with (S (length (s2 :: l2))).
    lia.
Qed.

(** Round trip of the persistence format: what [json.dump] writes for a
    list of names, [json.loads] reads back as that list. *)
Lemma json_loads_dump_categories {B : Builtins} (cats : list str) :
  Forall (fun s => text_ok s = true) cats ->
  json_loads (dump_categories cats) = Return (registry_document cats).
Proof.
  intros Hok. unfold json_loads.
  assert (Hfuel : (length cats + 3 < 2 * S (length (dump_categories cats)))%nat).
  { assert (length cats + 2 <= length (dump_categories cats))%nat;
      [|lia].
    unfold dump_categories. rewrite !length_app.
    destruct cats as [|s l]; [cbn [length]; lia|].
    rewrite !length_app. pose proof (dump_items_length (s :: l)).
    cbn [length] in *. lia. }
  destruct (2 * S (length (dump_categories cats)))%nat as [|[|[|f]]]; try lia.
  unfold dump_categories.
  change (starts_with_bom _) with false. cbv iota.
  cbn [app skip_ws is_json_ws N.eqb Pos.eqb orb].
  rewrite scan_once_object, encode_str_app.
  cbn [app skip_ws is_json_ws N.eqb Pos.eqb orb].
  rewrite parse_members_step.
  rewrite (scanstring_encoded (py "categories") _ eq_refl).
  destruct cats as [|s l].
  - reflexivity.
  - cbn [app skip_ws is_json_ws N.eqb Pos.eqb orb].
    rewrite scan_once_array.
    cbn [app skip_ws is_json_ws N.eqb Pos.eqb orb].
    rewrite <- app_assoc, skip_ws_dump_items.
    rewrite dump_items_not_closing. cbn [app].
    rewrite (parse_items_dumped (s :: l) ltac:(discriminate) Hok f
               spare_depth [] [10; 125]).
    + reflexivity.
    + lia.
Qed.

End RoundTrip.

(** ** The scanner's budget *)

Section Fuel.
Local Open Scope N_scope.

Lemma skip_ws_length (s : str) : (length (skip_ws s) <= length s)%nat.
Proof.
  induction s as [|c s IH]; cbn [skip_ws length]; [lia|].
  destruct (is_json_ws c); cbn [length]; lia.
Qed.

Lemma push_char_some {A} (c : codepoint) (r : option (str * A))
    (v : str) (rest : A) :
  push_char c r = Some (v, rest) -> exists v', r = Some (v', rest).
Proof.
  destruct r as [[v' rest']|]; cbn; [|discriminate].
  intros [= <- <-]. eauto.
Qed.

Ltac split_scan H :=
  repeat match type of H with
    | context [match ?x with _ => _ end] => destruct x eqn:?
    end; try discriminate.

(** [scanstring] consumes at least the closing quote. *)
Lemma scanstring_length_upto (n : nat) (s v r : str) :
  (length s <= n)%nat ->
  scanstring s = Some (v, r) -> (length r < length s)%nat.
Proof.
  revert s v r. induction n as [|n IH]; intros s v r Hn H.
  - destruct s; [discriminate | cbn [length] in Hn; lia].
  - destruct s as [|c t]; [discriminate|].
    cbn [scanstring] in H. cbn [length] in *.
    split_scan H;
      try (injection H as <- <-; cbn [length]; lia);
      apply push_char_some in H as [v' H];
      apply IH in H; subst; cbn [length] in *; lia.
Qed.

Lemma scanstring_length (s v r : str) :
  scanstring s = Some (v, r) -> (length r < length s)%nat.
Proof. apply (scanstring_length_upto (length s)). lia. Qed.


Lemma span_digits_length (s : str) :
  (length (snd (span_digits s)) <= length s)%nat.
Proof.
  induction s as [|c s IH]; cbn [span_digits]; [cbn; lia|].
  destruct (is_digit c); [|cbn; lia].
  destruct (span_digits s) as [ds r]. cbn [snd length] in *. lia.
Qed.

Lemma scan_int_part_length (s r : str) (ip : list N) :
  scan_int_part s = Some (ip, r) -> (length r < length s)%nat.
Proof.
  destruct s as [|c t]; [discriminate|]. cbn [scan_int_part].
  destruct (c =? 48); [intros [= <- <-]; cbn [length]; lia|].
  destruct (is_digit c) eqn:Ed; [|discriminate].
  cbn [span_digits]. rewrite Ed.
  pose proof (span_digits_length t) as Hl.
  destruct (span_digits t) as [ds r']. intros [= <- <-].
  cbn [snd length] in *. lia.
Qed.

Lemma scan_frac_length (s r : str) (ds : list N) :
  scan_frac s = Some (ds, r) -> (length r <= length s)%nat.
Proof.
  destruct s as [|p [|d t]]; try discriminate. cbn [scan_frac].
  destruct ((p =? 46) && is_digit d); [|discriminate].
  pose proof (span_digits_length (d :: t)) as Hl.
  destruct (span_digits (d :: t)) as [ds' r']. intros [= <- <-].
  cbn [snd length] in *. lia.
Qed.

Lemma scan_exp_length (s r : str) (x : Z) :
  scan_exp s = Some (x, r) -> (length r <= length s)%nat.
Proof.
  destruct s as [|e t]; [discriminate|]. cbn [scan_exp].
  destruct ((e =? 101) || (e =? 69)); [|discriminate].
  match goal with |- context [let '(_, _) := ?p in _] =>
    assert (Hp : (length (snd p) <= length t)%nat);
    [|destruct p as [neg t']] end.
  { destruct t as [|sg t1]; [cbn; lia|].
    destruct (sg =? 45); [cbn; lia|]. destruct (sg =? 43); cbn; lia. }
  cbn [snd] in Hp.
  pose proof (span_digits_length t') as Hl.
  destruct (span_digits t') as [[|d ds] r']; [discriminate|].
  intros [= <- <-]. cbn [snd length] in *. lia.
Qed.

(** A number takes at least one character. *)
Lemma match_number_length (s r : str) (v : json) :
  match_number s = Some (v, r) -> (length r < length s)%nat.
Proof.
  unfold match_number.
  match goal with |- context [let '(_, _) := ?p in _] =>
    assert (Hp : (length (snd p) <= length s)%nat);
    [|destruct p as [neg s1]] end.
  { destruct s as [|c t]; [cbn; lia|]. destruct (c =? 45); cbn; lia. }
  cbn [snd] in Hp.
  destruct (scan_int_part s1) as [[ip r1]|] eqn:Ei; [|discriminate].
  apply scan_int_part_length in Ei.
  destruct (scan_frac r1) as [[fd rf]|] eqn:Ef.
  - apply scan_frac_length in Ef.
    destruct (scan_exp rf) as [[x re]|] eqn:Ee.
    + apply scan_exp_length in Ee. intros [= <- <-]. lia.
    + intros [= <- <-]. lia.
  - destruct (scan_exp r1) as [[x re]|] eqn:Ee.
    + apply scan_exp_length in Ee. intros [= <- <-]. lia.
    + intros [= <- <-]. lia.
Qed.

Lemma strip_prefix_length (w s r : str) :
  strip_prefix w s = Some r -> (length r + length w = length s)%nat.
Proof.
  revert s; induction w as [|a w IH]; intros s; cbn [strip_prefix].
  - intros [= <-]. cbn; lia.
  - destruct s as [|b s]; [discriminate|].
    destruct (a =? b); [|discriminate].
    intros H. apply IH in H. cbn [length]. lia.
Qed.

Lemma match_constant_length (s r : str) (v : json) :
  match_constant constants s = Some (v, r) -> (length r < length s)%nat.
Proof.
  unfold constants. cbn [match_constant].
  repeat match goal with
    | |- context [strip_prefix ?w s] =>
        let E := fresh "E" in
        destruct (strip_prefix w s) eqn:E;
        [apply strip_prefix_length in E; intros [= <- <-];
         cbn [length py map list_ascii_of_string] in E; lia|]
    end.
  discriminate.
Qed.


(** One unfolding of each scanner. *)
Lemma scan_once_step (f depth : nat) (c : codepoint) (t : str) :
  scan_once (S f) depth (c :: t)
  = if c =? 34 then
      match scanstring t with
      | Some (v, r) => Ok (JStr v) r
      | None => Bad
      end
    else if c =? 123 then
      match depth with
      | O => TooDeep
      | S d =>
          match skip_ws t with
          | c' :: t' => if c' =? 125 then Ok (JDict []) t'
                        else parse_members f d [] (c' :: t')
          | [] => Bad
          end
      end
    else if c =? 91 then
      match depth with
      | O => TooDeep
      | S d =>
          match skip_ws t with
          | c' :: t' => if c' =? 93 then Ok (JList []) t'
                        else parse_items f d [] (c' :: t')
          | [] => Bad
          end
      end
    else
      match match_constant constants (c :: t) with
      | Some (v, r) => Ok v r
      | None =>
          match match_number (c :: t) with
          | Some (JInt z, r) => if int_str_ok z then Ok (JInt z) r else TooLong
          | Some (v, r) => Ok v r
          | None => Bad
          end
      end.
Proof. reflexivity. Qed.

Lemma parse_members_unfold (f depth : nat) (acc : list (str * json))
    (s : str) :
  parse_members (S f) depth acc s
  = match s with
    | q :: t =>
        if q =? 34 then
          match scanstring t with
          | None => Bad
          | Some (k, r) =>
              match skip_ws r with
              | colon :: r1 =>
                  if colon =? 58 then
                    match scan_once f depth (skip_ws r1) with
                    | Ok v r2 =>
                        match skip_ws r2 with
                        | d :: r3 =>
                            if d =? 125 then Ok (JDict (dict_set acc k v)) r3
                            else if d =? 44
                            then parse_members f depth (dict_set acc k v)
                                               (skip_ws r3)
                            else Bad
                        | [] => Bad
                        end
                    | Bad => Bad
                    | TooLong => TooLong
                    | TooDeep => TooDeep
                    | Fuel => Fuel
                    end
                  else Bad
              | [] => Bad
              end
          end
        else Bad
    | [] => Bad
    end.
Proof. reflexivity. Qed.

Ltac skip_ws_cases t c' t' :=
  let E := fresh "Ews" in
  let L := fresh "Lws" in
  pose proof (skip_ws_length t) as L;
  destruct (skip_ws t) as [|c' t'] eqn:E; [try discriminate|];
  cbn [length] in L.

Lemma scanners_consume (f : nat) : consuming f.
Proof.
  induction f as [|f (IHs & IHm & IHi)].
  { repeat split; intros; discriminate. }
  repeat split.
  - intros depth [|c t] v r H; [discriminate|].
    rewrite scan_once_step in H. cbn [length].
    destruct (c =? 34).
    { destruct (scanstring t) as [[k r']|] eqn:Es; [|discriminate].
      apply scanstring_length in Es. injection H as <- <-. lia. }
    destruct (c =? 123).
    { destruct depth as [|depth]; [discriminate|].
      skip_ws_cases t c' t'. destruct (c' =? 125).
      - injection H as <- <-. lia.
      - apply IHm in H. cbn [length] in H. lia. }
    destruct (c =? 91).
    { destruct depth as [|depth]; [discriminate|].
      skip_ws_cases t c' t'. destruct (c' =? 93).
      - injection H as <- <-. lia.
      - apply IHi in H. cbn [length] in H. lia. }
    destruct (match_constant constants (c :: t)) as [[v' r']|] eqn:Ec.
    { apply match_constant_length in Ec. injection H as <- <-.
      cbn [length] in Ec. lia. }
    destruct (match_number (c :: t)) as [[v' r']|] eqn:En; [|discriminate].
    apply match_number_length in En. cbn [length] in En.
    destruct v'; try (injection H as <- <-; lia).
    destruct (int_str_ok _); [|discriminate]. injection H as <- <-. lia.
  - intros depth acc [|q t] v r H; [discriminate|].
    rewrite parse_members_unfold in H. cbn [length].
    destruct (q =? 34); [|discriminate].
    destruct (scanstring t) as [[k r0]|] eqn:Es; [|discriminate].
    apply scanstring_length in Es.
    skip_ws_cases r0 colon r1.
    destruct (colon =? 58); [|discriminate].
    pose proof (skip_ws_length r1) as L1.
    destruct (scan_once f depth (skip_ws r1)) as [v2 r2| | | |] eqn:Ev;
      try discriminate.
    apply IHs in Ev.
    skip_ws_cases r2 d r3.
    destruct (d =? 125).
    + injection H as <- <-. lia.
    + destruct (d =? 44); [|discriminate].
      apply IHm in H. pose proof (skip_ws_length r3). lia.
  - intros depth acc s v r H.
    rewrite parse_items_step in H.
    destruct (scan_once f depth s) as [v1 r1| | | |] eqn:Ev; try discriminate.
    apply IHs in Ev.
    skip_ws_cases r1 d r2.
    destruct (d =? 93).
    + injection H as <- <-. lia.
    + destruct (d =? 44); [|discriminate].
      apply IHi in H. pose proof (skip_ws_length r2). lia.
Qed.

Lemma fuel_suffices (f : nat) : sufficient f.
Proof.
  induction f as [|f (IHs & IHm & IHi)].
  { repeat split; intros; lia. }
  destruct (scanners_consume f) as (Cs & Cm & Ci).
  repeat split.
  - intros depth [|c t] Hf; [discriminate|].
    rewrite scan_once_step. cbn [length] in Hf.
    destruct (c =? 34).
    { destruct (scanstring t) as [[k r']|]; discriminate. }
    destruct (c =? 123).
    { destruct depth as [|depth]; [discriminate|].
      skip_ws_cases t c' t'. destruct (c' =? 125); [discriminate|].
      apply IHm. cbn [length]. lia. }
    destruct (c =? 91).
    { destruct depth as [|depth]; [discriminate|].
      skip_ws_cases t c' t'. destruct (c' =? 93); [discriminate|].
      apply IHi. cbn [length]. lia. }
    destruct (match_constant constants (c :: t)) as [[v' r']|];
      [discriminate|].
    destruct (match_number (c :: t)) as [[v' r']|]; [|discriminate].
    destruct v'; try discriminate. destruct (int_str_ok _); discriminate.
  - intros depth acc [|q t] Hf; [discriminate|].
    rewrite parse_members_unfold. cbn [length] in Hf.
    destruct (q =? 34); [|discriminate].
    destruct (scanstring t) as [[k r0]|] eqn:Es; [|discriminate].
    apply scanstring_length in Es.
    skip_ws_cases r0 colon r1.
    destruct (colon =? 58); [|discriminate].
    pose proof (skip_ws_length r1) as L1.
    destruct (scan_once f depth (skip_ws r1)) as [v2 r2| | | |] eqn:Ev;
      [|discriminate|discriminate|discriminate|].
    + apply Cs in Ev.
      skip_ws_cases r2 d r3.
      destruct (d =? 125); [discriminate|].
      destruct (d =? 44); [|discriminate].
      apply IHm. pose proof (skip_ws_length r3). lia.
    + exfalso. revert Ev. apply IHs. lia.
  - intros depth acc s Hf.
    rewrite parse_items_step.
    destruct (scan_once f depth s) as [v1 r1| | | |] eqn:Ev;
      [|discriminate|discriminate|discriminate|].
    + apply Cs in Ev.
      skip_ws_cases r1 d r2.
      destruct (d =? 93); [discriminate|].
      destruct (d =? 44); [|discriminate].
      apply IHi. pose proof (skip_ws_length r2). lia.
    + exfalso. revert Ev. apply IHs. lia.
Qed.

(** The budget [json.loads] gives the scanner is never used up. *)
Lemma json_loads_fuel {B : Builtins} (s : str) :
  scan_once (2 * S (length s)) (S (S spare_depth)) (skip_ws s) <> Fuel.
Proof.
  apply (fuel_suffices (2 * S (length s))).
  pose proof (skip_ws_length s). lia.
Qed.

(** [json.loads] decodes, or raises [JSONDecodeError], [ValueError] for
    an integer literal that is too long, or [RecursionError]. *)
Lemma json_loads_total {B : Builtins} (s : str) :
  (exists v, json_loads s = Return v)
  \/ json_loads s = Raise JSONDecodeError
  \/ json_loads s = Raise ValueError
  \/ json_loads s = Raise RecursionError.
Proof.
  unfold json_loads.
  destruct (starts_with_bom s); [right; left; reflexivity|].
  destruct (scan_once _ _ _) as [v r| | | |] eqn:E; auto.
  destruct (skip_ws r); [left; eauto | right; left; reflexivity].
Qed.

End Fuel.

(** ** What escapes, and what does not *)

Section Escapes.
Context {B : Builtins}.

Lemma json_loads_raises (s : str) (e : exn) :
  json_loads s = Raise e ->
  e = JSONDecodeError \/ e = ValueError \/ e = RecursionError.
Proof.
  intros H. destruct (json_loads_total s) as [[v Hv] | [Hr | [Hr | Hr]]];
    rewrite H in *; [discriminate| | |]; injection Hr as ->; auto.
Qed.

Lemma py_lower_raises (x : json) (e : exn) :
  py_lower x = Raise e -> e = AttributeError.
Proof. destruct x; simpl; congruence. Qed.

Lemma py_get_raises (x : json) (k : str) (d : json) (e : exn) :
  py_get x k d = Raise e -> e = AttributeError.
Proof. destruct x; simpl; congruence. Qed.

Lemma any_lower_eq_raises (n : str) (items : list json) (e : exn) :
  any_lower_eq n items = Raise e -> e = AttributeError.
Proof.
  induction items as [|c items IH]; simpl; [discriminate|].
  destruct (py_lower c) as [l|e'] eqn:El.
  - destruct (str_eqb n l); [discriminate | exact IH].
  - intros [= <-]. eapply py_lower_raises; exact El.
Qed.

(** Reading the categories lets no [JSONDecodeError] out; the other
    failures of [json.load] escape, and so does a document that is no
    object. *)
Lemma read_categories_raises (w : world) (e : exn) (w' : world) :
  read_categories w = (Raise e, w') ->
  w' = w /\ (e = AttributeError \/ e = ValueError \/ e = RecursionError).
Proof.
  unfold read_categories, try_except, bind, load_registry, lift, ret.
  destruct (registry_file w) as [text|]; simpl; [|discriminate].
  destruct (json_loads text) as [data|e0] eqn:El.
  - destruct (py_get data (py "categories") (JList [])) as [v|e1] eqn:Eg.
    + discriminate.
    + pose proof (py_get_raises _ _ _ _ Eg) as ->. simpl.
      intros [= <- <-]; auto.
  - destruct (json_loads_raises _ _ El) as [-> | [-> | ->]]; simpl;
      [discriminate| |]; intros [= <- <-]; auto.
Qed.

Lemma read_categories_world (w : world) (r : res json) (w' : world) :
  read_categories w = (r, w') -> w' = w.
Proof.
  unfold read_categories, try_except, bind, load_registry, lift, ret.
  destruct (registry_file w) as [text|]; cbv iota beta.
  - destruct (json_loads text) as [data|e0]; cbv iota beta.
    + destruct (py_get data (py "categories") (JList [])); cbv iota beta;
        [|destruct (caught_by _ _)]; congruence.
    + destruct (caught_by _ _); congruence.
  - destruct (caught_by _ _); congruence.
Qed.

(** [add_category] scores 1 or 10; what it raises, it raises before
    anything is written. *)
Lemma add_category_outcome (name : json) (w : world) :
  match add_category name w with
  | (Return (_, score), _) => score = 1%Z \/ score = 10%Z
  | (Raise e, w') =>
      w' = w /\ (e = AttributeError \/ e = TypeError
                 \/ e = ValueError \/ e = RecursionError)
  end.
Proof.
  unfold add_category, bind, lift, ret.
  destruct (py_lower name) as [n|e] eqn:El.
  2:{ apply py_lower_raises in El; subst; auto. }
  destruct (read_categories w) as [[cats|e] w1] eqn:Er.
  2:{ apply read_categories_raises in Er as [-> [-> | [-> | ->]]]; auto. }
  apply read_categories_world in Er; subst w1.
  destruct (py_iter cats) as [items|e] eqn:Ei.
  2:{ destruct cats; simpl in Ei; inversion Ei; auto. }
  destruct (any_lower_eq n items) as [[|]|e] eqn:Ea.
  - left; reflexivity.
  - destruct (py_append cats (JStr n)) as [l|e] eqn:Ep.
    + simpl. right; reflexivity.
    + destruct cats; simpl in Ep; inversion Ep; auto.
  - apply any_lower_eq_raises in Ea; subst; auto.
Qed.

End Escapes.

(** ** What is decoded from plain text *)

Section Decoded.
Local Open Scope N_scope.

Lemma plain_text_cons (c : codepoint) (s : str) :
  plain_text (c :: s) = true ->
  c <= 1114111 /\ is_high_surrogate c = false /\ is_low_surrogate c = false
  /\ plain_text s = true.
Proof.
  unfold plain_text, is_surrogate. cbn [forallb].
  rewrite !andb_true_iff, negb_true_iff, orb_false_iff, N.leb_le. tauto.
Qed.

Lemma hex_digit_bound (c d : N) : hex_digit c = Some d -> d < 16.
Proof.
  unfold hex_digit, is_digit.
  destruct ((48 <=? c) && (c <=? 57)) eqn:E1.
  { apply andb_true_iff in E1 as [H1 H2]. apply N.leb_le in H1, H2.
    intros [= <-]. lia. }
  destruct ((97 <=? c) && (c <=? 102)) eqn:E2.
  { apply andb_true_iff in E2 as [H1 H2]. apply N.leb_le in H1, H2.
    intros [= <-]. lia. }
  destruct ((65 <=? c) && (c <=? 70)) eqn:E3; [|discriminate].
  apply andb_true_iff in E3 as [H1 H2]. apply N.leb_le in H1, H2.
  intros [= <-]. lia.
Qed.

Lemma hex4_bound (a b c d u : N) : hex4 a b c d = Some u -> u < 65536.
Proof.
  unfold hex4.
  destruct (hex_digit a) as [x|] eqn:Ea; [|discriminate].
  destruct (hex_digit b) as [y|] eqn:Eb; [|discriminate].
  destruct (hex_digit c) as [z|] eqn:Ec; [|discriminate].
  destruct (hex_digit d) as [w|] eqn:Ed; [|discriminate].
  apply hex_digit_bound in Ea, Eb, Ec, Ed. intros [= <-]. lia.
Qed.

Lemma join_surrogates_range (hi lo : N) :
  is_high_surrogate hi = true -> is_low_surrogate lo = true ->
  65536 <= join_surrogates hi lo <= 1114111.
Proof.
  unfold is_high_surrogate, is_low_surrogate, join_surrogates.
  rewrite !andb_true_iff, !N.leb_le. lia.
Qed.

Lemma unescape_ascii (e ch : N) : unescape e = Some ch -> ch < 128.
Proof.
  unfold unescape.
  repeat match goal with
    | |- context [if ?b then _ else _] => destruct b; [intros [= <-]; lia|]
    end.
  discriminate.
Qed.

Lemma not_surrogate_below (c : N) :
  c < 55296 -> is_high_surrogate c = false /\ is_low_surrogate c = false.
Proof.
  intros H. unfold is_high_surrogate, is_low_surrogate.
  split; apply andb_false_iff; left; apply N.leb_gt; lia.
Qed.

Lemma not_surrogate_above (c : N) :
  57343 < c -> is_high_surrogate c = false /\ is_low_surrogate c = false.
Proof.
  intros H. unfold is_high_surrogate, is_low_surrogate.
  split; apply andb_false_iff; right; apply N.leb_gt; lia.
Qed.

Lemma high_not_low (c : N) :
  is_high_surrogate c = true -> is_low_surrogate c = false.
Proof.
  unfold is_high_surrogate, is_low_surrogate.
  rewrite andb_true_iff, !N.leb_le. intros [_ H].
  apply andb_false_iff; left; apply N.leb_gt; lia.
Qed.

Lemma push_char_inv {A} (c : codepoint) (r : option (str * A))
    (v : str) (rest : A) :
  push_char c r = Some (v, rest) ->
  exists v', v = c :: v' /\ r = Some (v', rest).
Proof.
  destruct r as [[v' rest']|]; cbn; [|discriminate].
  intros [= <- <-]. eauto.
Qed.


Lemma scanstring_step (s v r : str) :
  plain_text s = true -> scanstring s = Some (v, r) -> scan_step s v r.
Proof.
  intros Hs H.
  destruct s as [|c t]; [discriminate|].
  apply plain_text_cons in Hs as (Hc & Hch & Hcl & Ht).
  cbn [scanstring] in H.
  destruct (N.eqb_spec c 34) as [->|_].
  { injection H as <- <-. apply step_end; reflexivity. }
  destruct (N.eqb_spec c 92) as [->|_].
  - destruct t as [|e t1]; [discriminate|].
    apply plain_text_cons in Ht as (_ & _ & _ & Ht1).
    destruct (N.eqb_spec e 117) as [->|_].
    + destruct t1 as [|h1 [|h2 [|h3 [|h4 t2]]]]; try discriminate.
      assert (Ht2 : plain_text t2 = true).
      { do 4 apply plain_text_cons in Ht1 as (_ & _ & _ & Ht1). exact Ht1. }
      destruct (hex4 h1 h2 h3 h4) as [u|] eqn:Eh; [|discriminate].
      pose proof (hex4_bound _ _ _ _ _ Eh) as Hu.
      assert (Hplain : forall v',
                 v = u :: v' -> scanstring t2 = Some (v', r) ->
                 (is_high_surrogate u = true -> low_escape_ahead t2 = false) ->
                 scan_step (92 :: 117 :: h1 :: h2 :: h3 :: h4 :: t2) v r).
      { intros v' -> Hv' Hhigh.
        apply step_char with (ch := u) (v' := v') (t := t2); auto.
        - cbn [length]. lia.
        - lia.
        - intros Hlow. unfold low_escape_ahead. rewrite Eh, Hlow. reflexivity. }
      destruct (is_high_surrogate u) eqn:Ehi.
      * destruct t2 as [|b [|u' [|l1 [|l2 [|l3 [|l4 t3]]]]]];
          try (apply push_char_inv in H as (v' & -> & H);
               apply (Hplain v' eq_refl H); reflexivity).
        destruct ((b =? 92) && (u' =? 117)) eqn:Ebu.
        -- destruct (hex4 l1 l2 l3 l4) as [u2|] eqn:El; [|discriminate].
           destruct (is_low_surrogate u2) eqn:Elo.
           ++ apply push_char_inv in H as (v' & -> & H).
              destruct (join_surrogates_range u u2 Ehi Elo) as [Hj1 Hj2].
              destruct (not_surrogate_above (join_surrogates u u2)
                          ltac:(lia)) as [Hnh Hnl].
              apply step_char with (ch := join_surrogates u u2) (v' := v')
                                   (t := t3); auto.
              ** cbn [length]. lia.
              ** do 6 apply plain_text_cons in Ht2 as (_ & _ & _ & Ht2).
                 exact Ht2.
              ** rewrite Hnh. discriminate.
              ** rewrite Hnl. discriminate.
           ++ apply push_char_inv in H as (v' & -> & H).
              apply (Hplain v' eq_refl H). intros _.
              unfold low_escape_ahead. rewrite Ebu, El, Elo. reflexivity.
        -- apply push_char_inv in H as (v' & -> & H).
           apply (Hplain v' eq_refl H). intros _.
           unfold low_escape_ahead. rewrite Ebu. reflexivity.
      * apply push_char_inv in H as (v' & -> & H).
        apply (Hplain v' eq_refl H). discriminate.
    + destruct (unescape e) as [ch|] eqn:Eu; [|discriminate].
      apply push_char_inv in H as (v' & -> & H).
      apply unescape_ascii in Eu.
      destruct (not_surrogate_below ch ltac:(lia)) as [Hnh Hnl].
      apply step_char with (ch := ch) (v' := v') (t := t1); auto.
      * cbn [length]. lia.
      * lia.
      * rewrite Hnh. discriminate.
      * rewrite Hnl. discriminate.
  - destruct (c <=? 31); [discriminate|].
    apply push_char_inv in H as (v' & -> & H).
    apply step_char with (ch := c) (v' := v') (t := t); auto.
    + rewrite Hch. discriminate.
    + rewrite Hcl. discriminate.
Qed.

Lemma text_ok_intro (c : codepoint) (s : str) :
  c <= 1114111 -> text_ok s = true ->
  (is_high_surrogate c = true -> head_not_low s) ->
  text_ok (c :: s) = true.
Proof.
  intros Hc Hs Hh. unfold text_ok in *.
  apply andb_true_iff in Hs as [Hr Hp].
  cbn [forallb]. rewrite Hr. apply N.leb_le in Hc. rewrite Hc. cbn [andb].
  destruct s as [|b s']; [reflexivity|].
  change (pair_free (c :: b :: s'))
    with (negb (is_high_surrogate c && is_low_surrogate b)
          && pair_free (b :: s')).
  rewrite Hp, andb_true_r.
  destruct (is_high_surrogate c); [|reflexivity].
  cbn in Hh. rewrite (Hh eq_refl). reflexivity.
Qed.

(** The strings [json.loads] decodes from plain text are text that is
    written and read back unchanged. *)
Lemma scanstring_text_ok_upto (n : nat) (s v r : str) :
  (length s <= n)%nat -> plain_text s = true ->
  scanstring s = Some (v, r) -> text_ok v = true.
Proof.
  revert s v r. induction n as [|n IH]; intros s v r Hn Hs H.
  - destruct s; [discriminate | cbn [length] in Hn; lia].
  - destruct (scanstring_step s v r Hs H)
      as [-> _ | ch v' t -> Hv' Hlen Ht Hch Hhigh _]; [reflexivity|].
    apply text_ok_intro; [exact Hch | apply (IH t v' r); auto; lia |].
    intros Hh. specialize (Hhigh Hh).
    destruct (scanstring_step t v' r Ht Hv')
      as [-> _ | c2 v2 t2 -> _ _ _ _ _ Hlow]; [exact I|].
    cbn. destruct (is_low_surrogate c2) eqn:E; [|reflexivity].
    rewrite (Hlow eq_refl) in Hhigh. discriminate.
Qed.

Lemma scanstring_text_ok (s v r : str) :
  plain_text s = true -> scanstring s = Some (v, r) -> text_ok v = true.
Proof. apply (scanstring_text_ok_upto (length s)). lia. Qed.

End Decoded.

Section Suffixes.
Local Open Scope N_scope.
Variable P : codepoint -> bool.

Lemma skip_ws_all (s : str) :
  forallb P s = true -> forallb P (skip_ws s) = true.
Proof.
  induction s as [|c s IH]; [auto|]. cbn [skip_ws].
  destruct (is_json_ws c); [|auto].
  cbn [forallb]. rewrite andb_true_iff. intros [_ H]; auto.
Qed.

Lemma span_digits_all (s : str) :
  forallb P s = true -> forallb P (snd (span_digits s)) = true.
Proof.
  induction s as [|c s IH]; [auto|]. cbn [span_digits].
  destruct (is_digit c); [|auto].
  cbn [forallb]. rewrite andb_true_iff. intros [_ H].
  destruct (span_digits s) as [ds r]. cbn [snd] in *. auto.
Qed.

Lemma tail_all (c : codepoint) (s : str) :
  forallb P (c :: s) = true -> forallb P s = true.
Proof. cbn [forallb]. rewrite andb_true_iff. tauto. Qed.

Lemma scan_int_part_all (s r : str) (ip : list N) :
  forallb P s = true -> scan_int_part s = Some (ip, r) ->
  forallb P r = true.
Proof.
  destruct s as [|c t]; [discriminate|]. cbn [scan_int_part]. intros Hs.
  destruct (c =? 48); [intros [= <- <-]; eapply tail_all; eauto|].
  destruct (is_digit c); [|discriminate].
  pose proof (span_digits_all (c :: t) Hs) as Hl.
  destruct (span_digits (c :: t)) as [ds r']. intros [= <- <-]. exact Hl.
Qed.

Lemma scan_frac_all (s r : str) (ds : list N) :
  forallb P s = true -> scan_frac s = Some (ds, r) -> forallb P r = true.
Proof.
  destruct s as [|p [|d t]]; try discriminate. cbn [scan_frac]. intros Hs.
  destruct ((p =? 46) && is_digit d); [|discriminate].
  pose proof (span_digits_all (d :: t) (tail_all _ _ Hs)) as Hl.
  destruct (span_digits (d :: t)) as [ds' r']. intros [= <- <-]. exact Hl.
Qed.

Lemma scan_exp_all (s r : str) (x : Z) :
  forallb P s = true -> scan_exp s = Some (x, r) -> forallb P r = true.
Proof.
  destruct s as [|e t]; [discriminate|]. cbn [scan_exp]. intros Hs.
  apply tail_all in Hs.
  destruct ((e =? 101) || (e =? 69)); [|discriminate].
  match goal with |- context [let '(_, _) := ?p in _] =>
    assert (Hp : forallb P (snd p) = true);
    [|destruct p as [neg t']] end.
  { destruct t as [|sg t1]; [exact Hs|].
    destruct (sg =? 45); [eapply tail_all; eauto|].
    destruct (sg =? 43); [eapply tail_all; eauto | exact Hs]. }
  cbn [snd] in Hp.
  pose proof (span_digits_all t' Hp) as Hl.
  destruct (span_digits t') as [[|d ds] r']; [discriminate|].
  intros [= <- <-]. exact Hl.
Qed.

Lemma match_number_all (s r : str) (v : json) :
  forallb P s = true -> match_number s = Some (v, r) -> forallb P r = true.
Proof.
  unfold match_number. intros Hs.
  match goal with |- context [let '(_, _) := ?p in _] =>
    assert (Hp : forallb P (snd p) = true);
    [|destruct p as [neg s1]] end.
  { destruct s as [|c t]; [exact Hs|].
    destruct (c =? 45); [eapply tail_all; eauto | exact Hs]. }
  cbn [snd] in Hp.
  destruct (scan_int_part s1) as [[ip r1]|] eqn:Ei; [|discriminate].
  apply (scan_int_part_all _ _ _ Hp) in Ei.
  destruct (scan_frac r1) as [[fd rf]|] eqn:Ef.
  - apply (scan_frac_all _ _ _ Ei) in Ef.
    destruct (scan_exp rf) as [[x re]|] eqn:Ee.
    + apply (scan_exp_all _ _ _ Ef) in Ee. intros [= <- <-]. exact Ee.
    + intros [= <- <-]. exact Ef.
  - destruct (scan_exp r1) as [[x re]|] eqn:Ee.
    + apply (scan_exp_all _ _ _ Ei) in Ee. intros [= <- <-]. exact Ee.
    + intros [= <- <-]. exact Ei.
Qed.

Lemma strip_prefix_all (w s r : str) :
  forallb P s = true -> strip_prefix w s = Some r -> forallb P r = true.
Proof.
  revert s; induction w as [|a w IH]; intros s Hs; cbn [strip_prefix].
  - intros [= <-]. exact Hs.
  - destruct s as [|b s]; [discriminate|].
    destruct (a =? b); [|discriminate].
    apply IH. eapply tail_all; eauto.
Qed.

Lemma match_constant_all (cs : list (str * json)) (s r : str) (v : json) :
  forallb P s = true -> match_constant cs s = Some (v, r) ->
  forallb P r = true.
Proof.
  intros Hs. induction cs as [|[w x] cs IH]; [discriminate|].
  cbn [match_constant].
  destruct (strip_prefix w s) as [r'|] eqn:E; [|exact IH].
  intros [= <- <-]. eapply strip_prefix_all; eauto.
Qed.

End Suffixes.

Section DecodedValues.
Local Open Scope N_scope.

Lemma plain_tail (c : codepoint) (s : str) :
  plain_text (c :: s) = true -> plain_text s = true.
Proof. apply tail_all. Qed.

Lemma plain_skip_ws (s : str) :
  plain_text s = true -> plain_text (skip_ws s) = true.
Proof. apply skip_ws_all. Qed.

Lemma scanstring_plain_rest_upto (n : nat) (s v r : str) :
  (length s <= n)%nat -> plain_text s = true ->
  scanstring s = Some (v, r) -> plain_text r = true.
Proof.
  revert s v r. induction n as [|n IH]; intros s v r Hn Hs H.
  - destruct s; [discriminate | cbn [length] in Hn; lia].
  - destruct (scanstring_step s v r Hs H)
      as [_ -> | ch v' t -> Hv' Hlen Ht _ _ _].
    + eapply plain_tail; eauto.
    + apply (IH t v' r); auto. lia.
Qed.

Lemma scanstring_plain_rest (s v r : str) :
  plain_text s = true -> scanstring s = Some (v, r) -> plain_text r = true.
Proof. apply (scanstring_plain_rest_upto (length s)). lia. Qed.


Lemma match_number_ok (s r : str) (v : json) :
  match_number s = Some (v, r) -> json_ok v = true.
Proof.
  unfold match_number.
  match goal with |- context [let '(_, _) := ?p in _] =>
    destruct p as [neg s1] end.
  destruct (scan_int_part s1) as [[ip r1]|]; [|discriminate].
  destruct (scan_frac r1) as [[fd rf]|].
  - destruct (scan_exp rf) as [[x re]|]; intros [= <- <-]; reflexivity.
  - destruct (scan_exp r1) as [[x re]|]; intros [= <- <-]; reflexivity.
Qed.

Lemma match_constant_ok (s r : str) (v : json) :
  match_constant constants s = Some (v, r) -> json_ok v = true.
Proof.
  unfold constants. cbn [match_constant].
  repeat match goal with
    | |- context [strip_prefix ?w s] =>
        destruct (strip_prefix w s); [intros [= <- <-]; reflexivity|]
    end.
  discriminate.
Qed.

Lemma dict_set_ok (d : list (str * json)) (k : str) (v : json) :
  forallb (fun kv => json_ok (snd kv)) d = true -> json_ok v = true ->
  forallb (fun kv => json_ok (snd kv)) (dict_set d k v) = true.
Proof.
  intros Hd Hv. induction d as [|[k' v'] d IH]; cbn [dict_set forallb snd].
  - rewrite Hv. reflexivity.
  - cbn [forallb snd] in Hd. apply andb_true_iff in Hd as [Hv' Hd].
    destruct (str_eqb k' k); cbn [forallb snd].
    + rewrite Hv, Hd. reflexivity.
    + rewrite Hv', (IH Hd). reflexivity.
Qed.

Lemma dict_lookup_ok (d : list (str * json)) (k : str) (v : json) :
  forallb (fun kv => json_ok (snd kv)) d = true ->
  dict_lookup d k = Some v -> json_ok v = true.
Proof.
  induction d as [|[k' v'] d IH]; cbn [dict_lookup forallb snd];
    [discriminate|].
  rewrite andb_true_iff. intros [Hv' Hd].
  destruct (str_eqb k' k); [intros [= <-]; exact Hv' | apply IH; exact Hd].
Qed.

Ltac plain_rest t c' t' H :=
  let E := fresh "Ews" in
  let L := fresh "Pws" in
  pose proof (plain_skip_ws t H) as L;
  destruct (skip_ws t) as [|c' t'] eqn:E; [try discriminate|].

Lemma scanners_decode_plain (f : nat) : decoding_plain f.
Proof.
  induction f as [|f (IHs & IHm & IHi)].
  { repeat split; intros; discriminate. }
  split; [|split].
  - intros depth [|c t] v r Hs H; [discriminate|].
    rewrite scan_once_step in H.
    pose proof (plain_tail _ _ Hs) as Ht.
    destruct (c =? 34).
    { destruct (scanstring t) as [[k r']|] eqn:Es; [|discriminate].
      injection H as <- <-. split.
      - exact (scanstring_text_ok _ _ _ Ht Es).
      - exact (scanstring_plain_rest _ _ _ Ht Es). }
    destruct (c =? 123).
    { destruct depth as [|depth]; [discriminate|].
      plain_rest t c' t' Ht. destruct (c' =? 125).
      - injection H as <- <-. split; [reflexivity|].
        exact (plain_tail _ _ Pws).
      - apply (IHm depth [] _ _ _ Pws eq_refl H). }
    destruct (c =? 91).
    { destruct depth as [|depth]; [discriminate|].
      plain_rest t c' t' Ht. destruct (c' =? 93).
      - injection H as <- <-. split; [reflexivity|].
        exact (plain_tail _ _ Pws).
      - apply (IHi depth [] _ _ _ Pws eq_refl H). }
    destruct (match_constant constants (c :: t)) as [[v' r']|] eqn:Ec.
    { injection H as <- <-. split.
      - exact (match_constant_ok _ _ _ Ec).
      - exact (match_constant_all _ _ _ _ _ Hs Ec). }
    destruct (match_number (c :: t)) as [[v' r']|] eqn:En; [|discriminate].
    pose proof (match_number_all _ _ _ _ Hs En) as Hr'.
    pose proof (match_number_ok _ _ _ En) as Hv'.
    destruct v'; try (injection H as <- <-; split; assumption).
    destruct (int_str_ok _); [|discriminate].
    injection H as <- <-. split; assumption.
  - intros depth acc [|q t] v r Hs Hacc H; [discriminate|].
    rewrite parse_members_unfold in H.
    pose proof (plain_tail _ _ Hs) as Ht.
    destruct (q =? 34); [|discriminate].
    destruct (scanstring t) as [[k r0]|] eqn:Es; [|discriminate].
    pose proof (scanstring_plain_rest _ _ _ Ht Es) as Hr0.
    plain_rest r0 colon r1 Hr0.
    destruct (colon =? 58); [|discriminate].
    pose proof (plain_skip_ws r1 (plain_tail _ _ Pws)) as Hr1.
    destruct (scan_once f depth (skip_ws r1)) as [v2 r2| | | |] eqn:Ev;
      try discriminate.
    destruct (IHs _ _ _ _ Hr1 Ev) as [Hv2 Hr2].
    pose proof (dict_set_ok acc k v2 Hacc Hv2) as Hacc'.
    plain_rest r2 d r3 Hr2.
    destruct (d =? 125).
    + injection H as <- <-. split; [exact Hacc'|].
      exact (plain_tail _ _ Pws0).
    + destruct (d =? 44); [|discriminate].
      apply (IHm _ _ _ _ _ (plain_skip_ws r3 (plain_tail _ _ Pws0)) Hacc' H).
  - intros depth acc s v r Hs Hacc H.
    rewrite parse_items_step in H.
    destruct (scan_once f depth s) as [v1 r1| | | |] eqn:Ev; try discriminate.
    destruct (IHs _ _ _ _ Hs Ev) as [Hv1 Hr1].
    assert (Hacc' : forallb json_ok (acc ++ [v1]) = true).
    { rewrite forallb_app, Hacc. cbn [forallb]. rewrite Hv1. reflexivity. }
    plain_rest r1 d r2 Hr1.
    destruct (d =? 93).
    + injection H as <- <-. split; [exact Hacc'|].
      exact (plain_tail _ _ Pws).
    + destruct (d =? 44); [|discriminate].
      apply (IHi _ _ _ _ _ (plain_skip_ws r2 (plain_tail _ _ Pws)) Hacc' H).
Qed.

Lemma json_loads_ok {B : Builtins} (s : str) (j : json) :
  plain_text s = true -> json_loads s = Return j -> json_ok j = true.
Proof.
  intros Hs. unfold json_loads.
  destruct (starts_with_bom s); [discriminate|].
  destruct (scan_once _ _ _) as [v r| | | |] eqn:E; try discriminate.
  destruct (skip_ws r); [|discriminate]. intros [= <-].
  destruct (scanners_decode_plain (2 * S (length s))) as (Hs1 & _ & _).
  exact (proj1 (Hs1 _ _ _ _ (plain_skip_ws s Hs) E)).
Qed.

Lemma json_ok_strings (cats : list str) :
  json_ok (JList (map JStr cats)) = true ->
  Forall (fun s => text_ok s = true) cats.
Proof.
  cbn [json_ok]. induction cats as [|c cats IH]; [constructor|].
  cbn [map forallb json_ok]. rewrite andb_true_iff. intros [Hc Hr].
  constructor; auto.
Qed.

(** The names read from a plain registry file are round-trippable. *)
Lemma stored_plain {B : Builtins} (w : world) (cats : list str) :
  plain_registry w -> stored w cats ->
  Forall (fun s => text_ok s = true) cats.
Proof.
  unfold plain_registry, stored, read_categories, try_except, bind,
    load_registry, lift, ret.
  destruct (registry_file w) as [text|].
  - intros Hp. destruct (json_loads text) as [data|e] eqn:El.
    + pose proof (json_loads_ok text data Hp El) as Hok.
      destruct data as [| | | | |l|d]; cbn [py_get fst];
        try (cbn; discriminate).
      destruct (dict_lookup d (py "categories")) as [v|] eqn:Ek.
      * intros [= ->]. apply json_ok_strings.
        eapply dict_lookup_ok; eauto.
      * intros [= H]. destruct cats; [constructor | discriminate].
    + destruct (json_loads_raises _ _ El) as [-> | [-> | ->]]; cbn;
        try discriminate.
      intros [= H]. destruct cats; [constructor | discriminate].
  - intros _. cbn. intros [= H]. destruct cats; [constructor | discriminate].
Qed.

End DecodedValues.

Lemma forallb_incl (P : N -> bool) (r s : str) :
  (forall x, In x r -> In x s) ->
  forallb P s = true -> forallb P r = true.
Proof.
  intros Hin Hs. apply forallb_forall. intros x Hx.
  apply (proj1 (forallb_forall P s) Hs). apply Hin; exact Hx.
Qed.

Lemma firstn_incl (n : nat) (l : str) (x : N) : In x (firstn n l) -> In x l.
Proof.
  revert l; induction n as [|n IH]; intros [|y l]; cbn [firstn];
    try contradiction.
  intros [-> | H]; [left; reflexivity | right; apply IH; exact H].
Qed.

Lemma skipn_incl (n : nat) (l : str) (x : N) : In x (skipn n l) -> In x l.
Proof.
  revert l; induction n as [|n IH]; intros [|y l]; cbn [skipn]; auto.
  intros H. right. apply IH; exact H.
Qed.

Lemma slice_incl (s : str) (a b : Z) (x : N) : In x (slice s a b) -> In x s.
Proof.
  unfold slice. intros H.
  eapply skipn_incl, firstn_incl. exact H.
Qed.

(** The category name decoded from a plain response is text that is
    written and read back unchanged. *)
Lemma decoded_category_text_ok {B : Builtins} (raw : str) (analysis : json)
    (c : str) :
  plain_text raw = true ->
  let s := strip raw in
  json_loads (slice s (find 123%N s) (rfind 125%N s + 1)) = Return analysis ->
  py_get analysis (py "detected_category") (JStr (py "unknown"))
    = Return (JStr c) ->
  text_ok c = true.
Proof.
  intros Hraw s Hload Hget.
  assert (Hplain : plain_text (slice s (find 123%N s) (rfind 125%N s + 1))
                   = true).
  { apply (forallb_incl _ _ raw); [|exact Hraw].
    intros x Hx. apply strip_incl. eapply slice_incl. exact Hx. }
  pose proof (json_loads_ok _ _ Hplain Hload) as Hok.
  destruct analysis as [| | | | |l|d]; try discriminate.
  cbn [py_get] in Hget.
  destruct (dict_lookup d (py "detected_category")) as [v|] eqn:Ek.
  - injection Hget as ->. exact (dict_lookup_ok _ _ _ Hok Ek).
  - injection Hget as <-. reflexivity.
Qed.

(** ** The interpreter without a brace pair *)

Section InterpreterFacts.
Context {B : Builtins}.

(** The handler of [process_ai_response]. *)
Lemma handler_falls_back (raw : str) (w : world) :
  bind (lift (py_print (py "Raw response: " ++ strip raw)))
       (fun _ => ret sentinel) w
  = (fallback raw, w).
Proof.
  unfold bind, lift, ret, fallback, py_print.
  rewrite forallb_app. change (forallb encodable (py "Raw response: ")) with true.
  cbn [andb]. destruct (forallb encodable (strip raw)); reflexivity.
Qed.

(** When the response has no opening brace, the test of line 110 fails
    and [process_ai_response] returns the sentinel. *)
Lemma no_opening_brace_gives_sentinel (raw : str) (w : world) :
  ~ In 123%N raw ->
  process_ai_response raw w = (Return sentinel, record (Interpreted raw) w).
Proof.
  intros H.
  unfold process_ai_response, try_except, process_body.
  replace (find 123%N (strip raw)) with (-1)%Z; [reflexivity|].
  symmetry. unfold find. apply find_from_absent.
  intros Hopen. apply H. eapply strip_incl; exact Hopen.
Qed.

(** When it has no closing brace, [end_idx] is 0 and the test of line 110
    holds all the same: the empty slice goes to [json.loads], and the
    handler is left to print the response and return the sentinel. *)
Lemma no_closing_brace_falls_back (raw : str) (w : world) :
  ~ In 125%N raw ->
  process_ai_response raw w
  = (if (find 123%N (strip raw) =? -1)%Z then Return sentinel
     else fallback raw,
     record (Interpreted raw) w).
Proof.
  intros H.
  unfold process_ai_response, try_except, process_body.
  set (s := strip raw).
  destruct (Z.eqb_spec (find 123%N s) (-1)) as [Hs|Hs]; [reflexivity|].
  assert (Hclose : ~ In 125%N s).
  { intros Hin. apply H. eapply strip_incl; exact Hin. }
  unfold rfind. rewrite (rfind_from_absent _ _ _ _ Hclose).
  cbn [negb andb Z.add Z.eqb].
  rewrite slice_to_zero.
  - unfold bind at 1, lift at 1. change (json_loads []) with
      (@Raise json JSONDecodeError).
    cbv iota beta. change (caught_by _ JSONDecodeError) with true.
    cbv iota. apply handler_falls_back.
  - unfold find in *.
    destruct (find_from_lower_bound 123%N s 0); [contradiction | assumption].
Qed.

(** C6. A response with an opening brace and no closing one does not
    always give the sentinel: the test [end_idx != -1] of line 110 cannot
    fail, the handler prints the response, and for a response that
    standard output cannot encode the call raises [UnicodeEncodeError]. *)
Theorem open_brace_alone_can_raise (w : world) :
  ~ In 125%N unprintable_open
  /\ process_ai_response unprintable_open w
     = (Raise UnicodeEncodeError, record (Interpreted unprintable_open) w).
Proof.
  split.
  - cbv. intros [H | [H | []]]; discriminate.
  - rewrite no_closing_brace_falls_back.
    + reflexivity.
    + cbv. intros [H | [H | []]]; discriminate.
Qed.

End InterpreterFacts.

(** ** The score *)

Section Score.
Context {B : Builtins}.
Local Open Scope Z_scope.

Lemma rfind_from_lower_bound (ch : codepoint) (s : str) (i last : Z) :
  -1 <= last -> 0 <= i -> -1 <= rfind_from ch s i last.
Proof.
  revert i last; induction s as [|c s IH]; simpl; intros i last Hl Hi; auto.
  apply IH; [destruct (N.eqb c ch)|]; lia.
Qed.

Lemma int_of_float_raises (f : pyfloat) (e : exn) :
  int_of_float f = Raise e -> e = ValueError \/ e = OverflowError.
Proof.
  destruct f as [| |neg m x]; simpl; try (intros [= <-]; auto).
  destruct (double_trunc m x); intros [= <-]; auto.
Qed.

Lemma int_of_str_raises (s : str) (e : exn) :
  int_of_str s = Raise e -> e = ValueError.
Proof.
  unfold int_of_str.
  destruct (to_ascii_decimal s) as [a|]; [|congruence].
  match goal with |- context [let '(_, _) := ?p in _] => destruct p as [neg a2] end.
  destruct (int_digits a2 0 false) as [[v r]|]; [|congruence].
  destruct (skip_c_space r); [|congruence].
  destruct (_ <=? _); congruence.
Qed.

Lemma py_int_raises (x : json) (e : exn) :
  py_int x = Raise e -> e = ValueError \/ e = TypeError \/ e = OverflowError.
Proof.
  destruct x; simpl; try discriminate; try (intros [= <-]; auto).
  - intros H; destruct (int_of_float_raises _ _ H); auto.
  - intros H; rewrite (int_of_str_raises _ _ H); auto.
Qed.

(** With the braces found and the text between them decoded, the rest of
    the [try] block in terms of its three fallible steps. *)
Lemma process_body_decoded (raw : str) (w : world) (analysis : json) :
  let s := strip raw in
  find 123%N s <> -1 ->
  json_loads (slice s (find 123%N s) (rfind 125%N s + 1)) = Return analysis ->
  process_body raw w =
  (category_name <-
     lift (py_get analysis (py "detected_category") (JStr (py "unknown"))) ;;
   ' (category, category_score) <- add_category category_name ;;
   name <- lift (py_get analysis (py "Name") (JStr (py "unknown"))) ;;
   count <- lift (py_get analysis (py "detail_count") (JInt 0)) ;;
   detail_score <- lift (py_int count) ;;
   _ <- lift (print_score (category_score + detail_score) category
                detail_score (py_str name)) ;;
   ret (category_score + detail_score, category, detail_score,
        py_str name))%py w.
Proof.
  intros s Hopen Hload.
  unfold process_body. fold s.
  destruct (Z.eqb_spec (find 123%N s) (-1)) as [|_]; [contradiction|].
  destruct (Z.eqb_spec (rfind 125%N s + 1) (-1)) as [Hc|_].
  { pose proof (rfind_from_lower_bound 125%N s 0 (-1)) as Hb.
    unfold rfind in Hc. lia. }
  cbn [negb andb].
  unfold bind at 1, lift at 1. rewrite Hload. reflexivity.
Qed.

Lemma format_int_raises (z : Z) (e : exn) :
  format_int z = Raise e -> e = ValueError.
Proof. unfold format_int. destruct (int_str_ok z); congruence. Qed.

Lemma py_print_raises (text : str) (e : exn) :
  py_print text = Raise e -> e = UnicodeEncodeError.
Proof. unfold py_print. destruct (forallb encodable text); congruence. Qed.

(** The print of line 127 fails with a [ValueError] only. *)
Lemma print_score_raises (total : Z) (category : str) (detail : Z)
    (name : str) (e : exn) :
  print_score total category detail name = Raise e ->
  e = ValueError \/ e = UnicodeEncodeError.
Proof.
  unfold print_score.
  destruct (format_int total) as [t|e1] eqn:Et.
  - destruct (format_int detail) as [d|e2] eqn:Ed.
    + intros H. right. eapply py_print_raises; exact H.
    + intros [= <-]. left. eapply format_int_raises; exact Ed.
  - intros [= <-]. left. eapply format_int_raises; exact Et.
Qed.

(** The literals of the source can be printed. *)
Lemma py_encodable (s : string) : forallb encodable (py s) = true.
Proof.
  unfold py. induction s as [|a s IH]; [reflexivity|].
  cbn [list_ascii_of_string map forallb]. rewrite IH, andb_true_r.
  pose proof (N_ascii_bounded a) as Ha.
  destruct (not_surrogate_below (N_of_ascii a)) as [Hh Hl]; [lia|].
  unfold encodable. rewrite Hh, Hl. reflexivity.
Qed.

(** The print of line 127 succeeds when both numbers have at most 4300
    digits and neither string holds a surrogate. *)
Lemma print_score_eq (total : Z) (category : str) (detail : Z) (name : str) :
  print_score total category detail name
  = if (int_str_ok total && int_str_ok detail)%bool
    then if (forallb encodable category && forallb encodable name)%bool
         then Return tt else Raise UnicodeEncodeError
    else Raise ValueError.
Proof.
  unfold print_score, format_int, py_print.
  destruct (int_str_ok total); [|reflexivity].
  destruct (int_str_ok detail); [|reflexivity].
  cbn [andb]. rewrite !forallb_app, !py_encodable. cbn [andb].
  reflexivity.
Qed.

Lemma int_str_ok_spec (z : Z) :
  int_str_ok z = (Z.abs z <? 10 ^ max_str_digits).
Proof.
  unfold int_str_ok.
  pose proof (Z.pow_le_mono_r 10 20 max_str_digits ltac:(lia)
                ltac:(unfold max_str_digits; lia)) as Hb.
  set (bound := 10 ^ max_str_digits) in *. clearbody bound.
  change (10 ^ 20) with 100000000000000000000 in Hb.
  change (2 ^ 64) with 18446744073709551616.
  destruct (Z.ltb_spec (Z.abs z) 18446744073709551616); [|reflexivity].
  symmetry. apply Z.ltb_lt. lia.
Qed.

(** A total that can be printed with the score of a category can be
    printed with the score 1. *)
Lemma print_score_replay (score : Z) (category : str) (detail : Z)
    (name : str) :
  score = 1 \/ score = 10 ->
  print_score (score + detail) category detail name = Return tt ->
  print_score (1 + detail) category detail name = Return tt.
Proof.
  intros Hs. rewrite !print_score_eq.
  destruct (int_str_ok (score + detail)) eqn:Et; [|discriminate].
  destruct (int_str_ok detail) eqn:Ed; [|discriminate].
  replace (int_str_ok (1 + detail)) with true; [auto|].
  symmetry. rewrite int_str_ok_spec in *.
  set (bound := 10 ^ max_str_digits) in *. clearbody bound.
  apply Z.ltb_lt in Et, Ed. apply Z.ltb_lt. lia.
Qed.

Lemma caught_ValueError :
  caught_by [JSONDecodeError; KeyError; ValueError] ValueError = true.
Proof. reflexivity. Qed.

Lemma caught_UnicodeEncodeError :
  caught_by [JSONDecodeError; KeyError; ValueError] UnicodeEncodeError = true.
Proof. reflexivity. Qed.

(** [process_ai_response] in terms of its [try] block and its handler. *)
Lemma process_ai_response_eq (raw : str) (w : world) :
  process_ai_response raw w
  = match process_body raw (record (Interpreted raw) w) with
    | (Raise e, w1) =>
        if caught_by [JSONDecodeError; KeyError; ValueError] e
        then (fallback raw, w1) else (Raise e, w1)
    | (Return t, w1) => (Return t, w1)
    end.
Proof.
  unfold process_ai_response, try_except.
  destruct (process_body raw _) as [[t|e] w1]; [reflexivity|].
  destruct (caught_by _ e); [|reflexivity].
  apply handler_falls_back.
Qed.

(** The handler leaves the world as the [try] block left it. *)
Lemma process_ai_response_world (raw : str) (w : world) :
  snd (process_ai_response raw w)
  = snd (process_body raw (record (Interpreted raw) w)).
Proof.
  rewrite process_ai_response_eq.
  destruct (process_body raw _) as [[t|e] w1]; [reflexivity|].
  destruct (caught_by _ e); reflexivity.
Qed.

(** When the handler returns, it returns the sentinel. *)
Lemma fallback_returns (raw : str) (t : score_tuple) :
  fallback raw = Return t -> t = sentinel.
Proof.
  unfold fallback. destruct (forallb encodable (strip raw)); congruence.
Qed.


End Score.

(** ** The registry *)

Section RegistryFacts.
Context {B : Builtins}.

Lemma read_categories_eq (w : world) :
  read_categories w = (fst (read_categories w), w).
Proof.
  destruct (read_categories w) as [r w'] eqn:E.
  apply read_categories_world in E. subst. reflexivity.
Qed.

(** What is read depends on the file only. *)
Lemma read_categories_same_file (w1 w2 : world) :
  registry_file w1 = registry_file w2 ->
  fst (read_categories w1) = fst (read_categories w2).
Proof.
  intros H.
  unfold read_categories, try_except, bind, load_registry, lift, ret.
  rewrite H.
  destruct (registry_file w2) as [text|]; [|reflexivity].
  destruct (json_loads text) as [data|e]; cbv iota beta.
  - destruct (py_get data (py "categories") (JList [])) as [v|e];
      cbv iota beta; [reflexivity|].
    destruct (caught_by _ e); reflexivity.
  - destruct (caught_by _ e); reflexivity.
Qed.

Lemma stored_same_file (w1 w2 : world) (cats : list str) :
  registry_file w1 = registry_file w2 -> stored w1 cats -> stored w2 cats.
Proof.
  unfold stored. intros H <-. symmetry.
  apply read_categories_same_file; exact H.
Qed.

Lemma stored_missing (w : world) : registry_file w = None -> stored w [].
Proof.
  intros H. unfold stored, read_categories, try_except, bind, load_registry.
  rewrite H. reflexivity.
Qed.

Lemma stored_undecodable (w : world) (text : str) :
  registry_file w = Some text -> json_loads text = Raise JSONDecodeError ->
  stored w [].
Proof.
  intros H Hl. unfold stored, read_categories, try_except, bind, load_registry.
  rewrite H, Hl. reflexivity.
Qed.

Lemma stored_written (cats : list str) (evs : list event) :
  Forall (fun s => text_ok s = true) cats ->
  stored {| registry_file := Some (dump_categories cats); events := evs |} cats.
Proof.
  intros Hok. unfold stored, read_categories, try_except, bind, load_registry.
  cbn [registry_file].
  rewrite (json_loads_dump_categories cats Hok). reflexivity.
Qed.

Lemma any_lower_eq_strings (n : str) (cats : list str) :
  any_lower_eq n (map JStr cats)
  = Return (existsb (fun c => str_eqb n (lower c)) cats).
Proof.
  induction cats as [|c cats IH]; [reflexivity|].
  cbn [map any_lower_eq py_lower existsb].
  destruct (str_eqb n (lower c)); [reflexivity | exact IH].
Qed.

Lemma strings_of_strings (cats : list str) : strings_of (map JStr cats) = cats.
Proof. induction cats as [|c cats IH]; [reflexivity|]. cbn. rewrite IH. reflexivity. Qed.

(** [add_category] on a registry that reads as a list of names. *)
Lemma add_category_stored (w : world) (cats : list str) (name : str) :
  stored w cats ->
  add_category (JStr name) w
  = if existsb (fun c => str_eqb (lower name) (lower c)) cats
    then (Return (lower name, 1%Z), w)
    else (Return (lower name, 10%Z), with_new_category w cats (lower name)).
Proof.
  intros Hs. unfold add_category, bind, lift, ret.
  cbn [py_lower].
  rewrite read_categories_eq, Hs. cbn [py_iter].
  rewrite any_lower_eq_strings.
  destruct (existsb _ cats); [reflexivity|].
  cbn [py_append]. unfold write_registry.
  change [JStr (lower name)] with (map JStr [lower name]).
  rewrite <- map_app, strings_of_strings. reflexivity.
Qed.


(** C9, as the code has it.  For names that json writes and reads back
    unchanged ([text_ok]: code points in range, no high surrogate directly
    followed by a low one), writing the registry and reading it again gives
    the names that were written, in the same order. *)
Theorem registry_round_trip (cats : list str) (w : world) :
  Forall (fun s => text_ok s = true) cats ->
  let w' := snd (write_registry (map JStr cats) w) in
  registry_file w' = Some (dump_categories cats)
  /\ json_loads (dump_categories cats) = Return (registry_document cats)
  /\ read_categories w' = (Return (JList (map JStr cats)), w').
Proof.
  intros Hok w'. subst w'. unfold write_registry. cbn [snd].
  rewrite strings_of_strings.
  split; [reflexivity|]. split; [exact (json_loads_dump_categories cats Hok)|].
  rewrite read_categories_eq. f_equal.
  apply (stored_written cats _ Hok).
Qed.

(** The two failures that line 38 names: a registry file that is missing,
    or whose text [json.loads] rejects with [JSONDecodeError], reads as the
    empty list, and a name resolved against it is new. *)
Lemma unreadable_registry_reads_as_empty (w : world) :
  registry_file w = None
  \/ (exists text, registry_file w = Some text
                   /\ json_loads text = Raise JSONDecodeError) ->
  read_categories w = (Return (JList []), w)
  /\ forall name : str,
       add_category (JStr name) w
       = (Return (lower name, 10%Z), with_new_category w [] (lower name)).
Proof.
  intros H.
  assert (Hs : stored w []).
  { destruct H as [H | (text & H & Hl)];
      [apply stored_missing | eapply stored_undecodable]; eassumption. }
  split.
  - rewrite read_categories_eq. f_equal. exact Hs.
  - intros name. rewrite (add_category_stored w [] name Hs). reflexivity.
Qed.

Section Resolve.
Hypothesis lower_idempotent : forall s : str, lower (lower s) = lower s.

Lemma holds_add_category (canonical n : str) (w : world) :
  text_ok (lower n) = true ->
  holds canonical w -> holds canonical (snd (add_category (JStr n) w)).
Proof.
  intros Hn (cats & Hs & Hok & Hin).
  rewrite (add_category_stored w cats n Hs).
  destruct (existsb _ cats); cbn [snd].
  - exists cats; auto.
  - exists (cats ++ [lower n]). split; [|split].
    + apply stored_written. apply Forall_app; split; auto.
    + apply Forall_app; split; auto.
    + apply in_or_app; left; exact Hin.
Qed.

Lemma holds_after_calls (canonical : str) (others : list str) (w : world) :
  Forall (fun n => text_ok (lower n) = true) others ->
  holds canonical w -> holds canonical (after_calls others w).
Proof.
  revert w; induction others as [|n others IH]; intros w Hok Hw; [exact Hw|].
  inversion Hok as [|? ? Hn Hrest]; subst.
  unfold after_calls. cbn [fold_left].
  apply IH; [exact Hrest|]. apply holds_add_category; assumption.
Qed.

(** A case variant of a stored name scores 1 and nothing is written. *)
Lemma add_category_known (canonical variant : str) (w : world) :
  holds canonical w -> lower canonical = canonical ->
  lower variant = canonical ->
  add_category (JStr variant) w = (Return (canonical, 1%Z), w).
Proof.
  intros (cats & Hs & _ & Hin) Hc Hv.
  rewrite (add_category_stored w cats variant Hs), Hv.
  replace (existsb _ cats) with true; [reflexivity|].
  symmetry. apply existsb_exists. exists canonical. split; [exact Hin|].
  rewrite Hc. apply str_eqb_refl.
Qed.

(** C3, as the code has it.  For a [name] whose lower-cased form json
    writes and reads back unchanged ([text_ok]), on a registry file of
    plain text that reads as a list of names, none of them a case variant
    of [name], the first call with [name] scores 10 and rewrites the file
    once, with the lower-cased name appended; after that, and after any
    further calls with names of this kind, a call with any case variant of
    [name] scores 1 and leaves the world as it is: nothing is written. *)
Theorem first_call_scores_ten_later_calls_one
    (w : world) (cats : list str) (name : str) :
  plain_registry w ->
  stored w cats ->
  text_ok (lower name) = true ->
  (forall c, In c cats -> lower c <> lower name) ->
  let w1 := snd (add_category (JStr name) w) in
  add_category (JStr name) w = (Return (lower name, 10%Z), w1)
  /\ registry_file w1 = Some (dump_categories (cats ++ [lower name]))
  /\ events w1
     = events w ++ [WroteRegistry (dump_categories (cats ++ [lower name]))]
  /\ stored w1 (cats ++ [lower name])
  /\ forall (others : list str) (variant : str),
       Forall (fun n => text_ok (lower n) = true) others ->
       lower variant = lower name ->
       let w2 := after_calls others w1 in
       add_category (JStr variant) w2 = (Return (lower name, 1%Z), w2).
Proof.
  intros Hplain Hs Hname Hnew w1.
  pose proof (stored_plain w cats Hplain Hs) as Hok.
  assert (Hex : existsb (fun c => str_eqb (lower name) (lower c)) cats = false).
  { apply not_true_is_false. intros Hex.
    apply existsb_exists in Hex as (c & Hin & Heq).
    apply str_eqb_eq in Heq. apply (Hnew c Hin). symmetry; exact Heq. }
  assert (Hcall : add_category (JStr name) w
                  = (Return (lower name, 10%Z),
                     with_new_category w cats (lower name))).
  { rewrite (add_category_stored w cats name Hs), Hex. reflexivity. }
  assert (Hok1 : Forall (fun s => text_ok s = true) (cats ++ [lower name])).
  { apply Forall_app; split; auto. }
  subst w1. rewrite Hcall. cbn [snd].
  split; [reflexivity|]. split; [reflexivity|]. split; [reflexivity|].
  split; [apply stored_written; exact Hok1|].
  intros others variant Hothers Hvariant.
  apply add_category_known.
  - apply holds_after_calls; [exact Hothers|].
    exists (cats ++ [lower name]). split; [|split].
    + apply stored_written; exact Hok1.
    + exact Hok1.
    + apply in_or_app; right; left; reflexivity.
  - apply lower_idempotent.
  - exact Hvariant.
Qed.

End Resolve.

Lemma stored_record (ev : event) (w : world) (cats : list str) :
  stored w cats -> stored (record ev w) cats.
Proof. apply stored_same_file. reflexivity. Qed.

Section Landscape.
Hypothesis lower_ascii :
  forall s : str, Forall (fun c => (c < 128)%N) s ->
                  lower s = map ascii_lower_char s.
Local Open Scope Z_scope.

Lemma sun_picture_decoded :
  let s := strip sun_picture in
  find 123%N s <> -1
  /\ json_loads (slice s (find 123%N s) (rfind 125%N s + 1))
     = Return sun_picture_analysis.
Proof. split; [vm_compute; discriminate | vm_compute; reflexivity]. Qed.

Lemma lower_Landscape : lower (py "Landscape") = py "landscape".
Proof.
  rewrite lower_ascii; [reflexivity|].
  repeat constructor.
Qed.

Lemma lower_landscape : lower (py "landscape") = py "landscape".
Proof.
  rewrite lower_ascii; [reflexivity|].
  repeat constructor.
Qed.

(** The example response, given what [add_category] does with
    ["Landscape"]. *)
Lemma sun_picture_run (w w1 : world) (score : Z) :
  score = 1 \/ score = 10 ->
  add_category (JStr (py "Landscape")) (record (Interpreted sun_picture) w)
    = (Return (py "landscape", score), w1) ->
  process_ai_response sun_picture w
  = (Return (score + 4, py "landscape", 4, py "Sun Picture"), w1).
Proof.
  intros Hscore Hadd.
  destruct sun_picture_decoded as [Hopen Hload].
  rewrite process_ai_response_eq.
  rewrite (process_body_decoded sun_picture _ _ Hopen Hload).
  unfold bind, lift, ret.
  change (py_get sun_picture_analysis (py "detected_category") _)
    with (Return (JStr (py "Landscape"))).
  cbv iota beta. rewrite Hadd.
  destruct Hscore as [-> | ->]; vm_compute; reflexivity.
Qed.

(** C2. On a registry file of plain text that reads as names none of
    which lower-cases to ["landscape"] (a missing file, read as the empty
    registry, among them), the example response gives
    [(14, "landscape", 4, "Sun Picture")], 10 for the new category plus 4
    details, and stores ["landscape"]; in every world whose registry holds
    ["landscape"], that one included, it gives
    [(5, "landscape", 4, "Sun Picture")] and writes nothing. *)
Theorem sun_picture_scores_14_then_5 (w : world) (cats : list str) :
  plain_registry w ->
  stored w cats ->
  (forall c, In c cats -> lower c <> py "landscape") ->
  let w1 := snd (process_ai_response sun_picture w) in
  process_ai_response sun_picture w
  = (Return (14, py "landscape", 4, py "Sun Picture"), w1)
  /\ holds (py "landscape") w1
  /\ forall w2 : world,
       holds (py "landscape") w2 ->
       process_ai_response sun_picture w2
       = (Return (5, py "landscape", 4, py "Sun Picture"),
          record (Interpreted sun_picture) w2).
Proof.
  intros Hplain Hs Hnew w1.
  pose proof (stored_plain w cats Hplain Hs) as Hok.
  set (w0 := record (Interpreted sun_picture) w).
  assert (Hfirst : add_category (JStr (py "Landscape")) w0
                   = (Return (py "landscape", 10),
                      with_new_category w0 cats (py "landscape"))).
  { rewrite (add_category_stored w0 cats _ (stored_record _ w cats Hs)).
    rewrite lower_Landscape.
    replace (existsb _ cats) with false; [reflexivity|].
    symmetry. apply not_true_is_false. intros Hex.
    apply existsb_exists in Hex as (c & Hin & Heq).
    apply str_eqb_eq in Heq. apply (Hnew c Hin). symmetry; exact Heq. }
  pose proof (sun_picture_run w _ 10 (or_intror eq_refl) Hfirst) as Hrun.
  subst w1. rewrite Hrun. cbn [snd].
  split; [reflexivity|]. split.
  - exists (cats ++ [py "landscape"]).
    assert (Hok1 : Forall (fun s => text_ok s = true) (cats ++ [py "landscape"])).
    { apply Forall_app; split; [exact Hok|]. repeat constructor. }
    split; [apply stored_written; exact Hok1|].
    split; [exact Hok1|]. apply in_or_app; right; left; reflexivity.
  - intros w2 (cats2 & Hs2 & Hok2 & Hin2).
    apply (sun_picture_run w2 _ 1 (or_introl eq_refl)).
    apply add_category_known with (canonical := py "landscape").
    + exists cats2. split; [apply stored_record; exact Hs2|]. split; assumption.
    + exact lower_landscape.
    + exact lower_Landscape.
Qed.

End Landscape.

(** C10. There is a response on which [process_ai_response] returns the
    sentinel although [add_category] has already rewritten the registry:
    the category is resolved before [int(detail_count)] raises. *)
Theorem sentinel_after_registry_write :
  exists (raw : str) (w : world),
    let (r, w') := process_ai_response raw w in
    r = Return sentinel
    /\ registry_file w = None
    /\ registry_file w' <> None
    /\ exists text, In (WroteRegistry text) (events w').
Proof.
  set (raw := pyq "{'detected_category': 'Portrait', 'detail_count': 'many'}").
  set (analysis := JDict [ (py "detected_category", JStr (py "Portrait"));
                           (py "detail_count", JStr (py "many")) ]).
  exists raw, empty_world.
  assert (Hopen : find 123%N (strip raw) <> (-1)%Z) by (vm_compute; discriminate).
  assert (Hload : json_loads (slice (strip raw) (find 123%N (strip raw))
                                (rfind 125%N (strip raw) + 1))
                  = Return analysis) by (vm_compute; reflexivity).
  unfold process_ai_response, try_except.
  rewrite (process_body_decoded raw _ _ Hopen Hload).
  unfold bind, lift, ret.
  change (py_get analysis (py "detected_category") _)
    with (Return (JStr (py "Portrait"))).
  cbv iota beta.
  rewrite (add_category_stored _ [] _
             (stored_missing (record (Interpreted raw) empty_world) eq_refl)).
  cbn [existsb].
  change (py_get analysis (py "Name") _) with (Return (JStr (py "unknown"))).
  change (py_get analysis (py "detail_count") _)
    with (Return (JStr (py "many"))).
  cbv iota beta.
  replace (py_int (JStr (py "many"))) with (@Raise Z ValueError)
    by (vm_compute; reflexivity).
  cbv iota beta.
  change (caught_by _ ValueError) with true. cbv iota. unfold ret.
  split; [reflexivity|]. split; [reflexivity|]. split; [discriminate|].
  eexists. cbn [events with_new_category]. apply in_or_app; right; left; reflexivity.
Qed.

End RegistryFacts.

(** ** The pipeline *)

Section PipelineFacts.
Context {B : Builtins}.
Variable system_prompt : str.
Variable E : env.

(** C7. When the content of the first choice of the service's response is
    missing, empty or whitespace only, [analyze_drawing] returns the
    sentinel and leaves the world as it found it: no [Interpreted] event is
    recorded, so [process_ai_response] was not entered. *)
Theorem blank_response_short_circuits
    (base_image_path drawing_path : str) (w : world)
    (base_image drawing_image : list N) (content : option str)
    (choices : list (option str)) :
  read_binary E base_image_path = Return base_image ->
  read_binary E drawing_path = Return drawing_image ->
  chat_create E (chat_request system_prompt base_image drawing_image)
    = Return (content :: choices) ->
  match content with
  | Some text => forallb is_space text = true
  | None => True
  end ->
  analyze_drawing system_prompt E base_image_path drawing_path w
    = (Return sentinel, w).
Proof.
  intros Hb Hd Hc Hblank.
  unfold analyze_drawing, try_except, bind, lift.
  rewrite Hb, Hd, Hc.
  destruct content as [text|]; [|reflexivity].
  unfold is_blank. rewrite (strip_all_space _ Hblank).
  reflexivity.
Qed.

(** C8. [analyze_drawing] always returns a tuple, whatever the files, the
    service and the interpreter do; and when reading either image or the
    service call raises, the tuple is the sentinel and the world is
    untouched. *)
Theorem analyze_drawing_catches_everything
    (base_image_path drawing_path : str) (w : world) :
  (exists t w',
      analyze_drawing system_prompt E base_image_path drawing_path w
      = (Return t, w'))
  /\ (forall e,
        read_binary E base_image_path = Raise e ->
        analyze_drawing system_prompt E base_image_path drawing_path w
        = (Return sentinel, w))
  /\ (forall base_image e,
        read_binary E base_image_path = Return base_image ->
        read_binary E drawing_path = Raise e ->
        analyze_drawing system_prompt E base_image_path drawing_path w
        = (Return sentinel, w))
  /\ (forall base_image drawing_image e,
        read_binary E base_image_path = Return base_image ->
        read_binary E drawing_path = Return drawing_image ->
        chat_create E (chat_request system_prompt base_image drawing_image)
          = Raise e ->
        analyze_drawing system_prompt E base_image_path drawing_path w
        = (Return sentinel, w)).
Proof.
  repeat split.
  - unfold analyze_drawing, try_except.
    match goal with |- context [match ?body w with _ => _ end] =>
      destruct (body w) as [[t|e] w'] end.
    + exists t, w'; reflexivity.
    + rewrite caught_by_Exception. exists sentinel, w'; reflexivity.
  - intros e Hb.
    unfold analyze_drawing, try_except, bind, lift.
    rewrite Hb, caught_by_Exception; reflexivity.
  - intros img e Hb Hd.
    unfold analyze_drawing, try_except, bind, lift.
    rewrite Hb, Hd, caught_by_Exception; reflexivity.
  - intros img1 img2 e Hb Hd Hc.
    unfold analyze_drawing, try_except, bind, lift.
    rewrite Hb, Hd, Hc, caught_by_Exception; reflexivity.
Qed.

End PipelineFacts.

(** ** Fields of the wrong kind *)

Section Runs.
Context {B : Builtins}.

(** C1. A [detected_category] that is a number has no [lower]: the
    [AttributeError] is not among the classes the handler names and leaves
    [process_ai_response], in every world.  A [detail_count] that is [null]
    does the same with the [TypeError] of [int(None)]. *)
Theorem wrong_kind_field_escapes (w : world) :
  process_ai_response (pyq "{'detected_category': 5}") w
  = (Raise AttributeError,
     record (Interpreted (pyq "{'detected_category': 5}")) w)
  /\ fst (process_ai_response (pyq "{'detail_count': null}") empty_world)
     = Raise TypeError.
Proof. split; vm_compute; reflexivity. Qed.

(** Text between the braces that does not decode sends the call to its
    handler, and leaves the registry alone. *)
Lemma undecodable_falls_back (raw : str) (w : world) :
  let s := strip raw in
  find 123%N s <> (-1)%Z ->
  json_loads (slice s (find 123%N s) (rfind 125%N s + 1))
    = Raise JSONDecodeError ->
  process_ai_response raw w = (fallback raw, record (Interpreted raw) w).
Proof.
  intros s Hopen Hload.
  rewrite process_ai_response_eq. unfold process_body. fold s.
  destruct (Z.eqb_spec (find 123%N s) (-1)) as [|_]; [contradiction|].
  destruct (Z.eqb_spec (rfind 125%N s + 1) (-1)) as [Hc|_].
  { pose proof (rfind_from_lower_bound 125%N s 0 (-1)) as Hb.
    unfold rfind in Hc. lia. }
  cbn [negb andb].
  unfold bind at 1, lift at 1. rewrite Hload. reflexivity.
Qed.

(** What leaves [process_ai_response] is an [AttributeError], a
    [TypeError] or an [OverflowError] (a field of the wrong kind, or a
    [detail_count] of [Infinity]), a [RecursionError] of [json.loads], or
    the [UnicodeEncodeError] of the handler's own print. *)
Lemma process_ai_response_raises (raw : str) (w w' : world) (e : exn) :
  process_ai_response raw w = (Raise e, w') ->
  e = AttributeError \/ e = TypeError \/ e = OverflowError
  \/ e = RecursionError \/ e = UnicodeEncodeError.
Proof.
  rewrite process_ai_response_eq.
  assert (Hfb : forall e0 w1,
             e0 = JSONDecodeError \/ e0 = ValueError
             \/ e0 = UnicodeEncodeError ->
             (if caught_by [JSONDecodeError; KeyError; ValueError] e0
              then (fallback raw, w1) else (Raise e0, w1))
             = (Raise e, w') ->
             e = UnicodeEncodeError).
  { intros e0 w1 [-> | [-> | ->]]; cbn [caught_by existsb];
      change (isinstance JSONDecodeError JSONDecodeError) with true;
      change (isinstance ValueError JSONDecodeError) with false;
      change (isinstance ValueError KeyError) with false;
      change (isinstance ValueError ValueError) with true;
      change (isinstance UnicodeEncodeError JSONDecodeError) with false;
      change (isinstance UnicodeEncodeError KeyError) with false;
      change (isinstance UnicodeEncodeError ValueError) with true;
      cbn [orb]; unfold fallback;
      destruct (forallb encodable (strip raw)); congruence. }
  unfold process_body.
  set (s := strip raw). set (w0 := record (Interpreted raw) w).
  destruct (negb _ && negb _)%bool; [|discriminate].
  unfold bind, lift, ret.
  destruct (json_loads _) as [analysis|e0] eqn:El.
  2:{ destruct (json_loads_raises _ _ El) as [-> | [-> | ->]].
      - intros H. right; right; right; right. apply (Hfb _ _ (or_introl eq_refl) H).
      - intros H. right; right; right; right.
        apply (Hfb _ _ (or_intror (or_introl eq_refl)) H).
      - intros [= <- _]; auto. }
  destruct (py_get analysis (py "detected_category") _) as [cn|e0] eqn:Ecat.
  2:{ apply py_get_raises in Ecat; subst e0. intros [= <- _]; auto. }
  pose proof (add_category_outcome cn w0) as Hadd.
  destruct (add_category cn w0) as [[[cat score]|e0] w1].
  2:{ destruct Hadd as [_ [-> | [-> | [-> | ->]]]];
        try (intros [= <- _]; auto 6).
      intros H. right; right; right; right.
      apply (Hfb _ _ (or_intror (or_introl eq_refl)) H). }
  destruct (py_get analysis (py "Name") _) as [nm|e0] eqn:En.
  2:{ apply py_get_raises in En; subst e0. intros [= <- _]; auto. }
  destruct (py_get analysis (py "detail_count") _) as [count|e0] eqn:Ec.
  2:{ apply py_get_raises in Ec; subst e0. intros [= <- _]; auto. }
  destruct (py_int count) as [d|e0] eqn:Ei.
  2:{ destruct (py_int_raises _ _ Ei) as [-> | [-> | ->]];
        try (intros [= <- _]; auto 6).
      intros H. right; right; right; right.
      apply (Hfb _ _ (or_intror (or_introl eq_refl)) H). }
  destruct (print_score _ _ _ _) as [[]|e0] eqn:Ep; [discriminate|].
  intros H. right; right; right; right.
  destruct (print_score_raises _ _ _ _ _ Ep) as [-> | ->].
  - apply (Hfb _ _ (or_intror (or_introl eq_refl)) H).
  - apply (Hfb _ _ (or_intror (or_intror eq_refl)) H).
Qed.

End Runs.


(** C4. A registry file whose content has the wrong structure is not
    read as an empty registry: the file that holds the JSON array [[]]
    decodes, but a list has no [get], and the [AttributeError] is not among
    the classes that line 38 names, so it leaves [add_category]. *)
Theorem array_registry_raises :
  add_category (B := ascii_builtins) (JStr (py "portrait"))
    {| registry_file := Some (py "[]"); events := [] |}
  = (Raise AttributeError, {| registry_file := Some (py "[]"); events := [] |}).
Proof. vm_compute; reflexivity. Qed.

(** C9, counterexample.  Outside [text_ok]: a name that is a high
    surrogate followed by a low surrogate is written as two escapes and
    read back as one code point, another name. *)
Lemma surrogate_pair_is_joined :
  fst (read_categories (B := ascii_builtins)
         (snd (write_registry [JStr [55357; 56832]%N] empty_world)))
  = Return (JList [JStr [128512%N]])
  /\ [128512%N] <> [55357; 56832]%N.
Proof. split; [vm_compute; reflexivity | discriminate]. Qed.

(** C3, counterexample.  The same name scores 10 on an empty registry and
    10 again on the registry this leaves: the entry that was written reads
    back as another name, and the second call writes once more. *)
Lemma surrogate_pair_scores_ten_twice :
  fst (add_category (B := ascii_builtins) (JStr [55357; 56832]%N)
         empty_world)
  = Return ([55357; 56832]%N, 10%Z)
  /\ fst (add_category (B := ascii_builtins) (JStr [55357; 56832]%N)
            (snd (add_category (B := ascii_builtins)
                    (JStr [55357; 56832]%N) empty_world)))
     = Return ([55357; 56832]%N, 10%Z)
  /\ length (events
               (snd (add_category (B := ascii_builtins)
                       (JStr [55357; 56832]%N)
                       (snd (add_category (B := ascii_builtins)
                               (JStr [55357; 56832]%N) empty_world)))))
     = 2%nat.
Proof. repeat split; vm_compute; reflexivity. Qed.

(* ================================================================== *)
(** * Further properties *)
(* ================================================================== *)

(** ** The span between the braces *)

Lemma lstrip_app (pre : str) (c : N) (x : str) :
  is_space c = false -> lstrip (pre ++ c :: x) = lstrip pre ++ c :: x.
Proof.
  intros H. induction pre as [|a pre IH]; cbn [app lstrip].
  - rewrite H. reflexivity.
  - destruct (is_space a); [exact IH | reflexivity].
Qed.

Lemma rstrip_app (x : str) (c : N) (post : str) :
  is_space c = false -> rstrip (x ++ c :: post) = x ++ c :: rstrip post.
Proof.
  intros H. unfold rstrip.
  rewrite rev_app_distr. cbn [rev]. rewrite <- app_assoc. cbn [app].
  rewrite (lstrip_app (rev post) c (rev x) H).
  rewrite rev_app_distr. cbn [rev].
  rewrite rev_involutive, <- app_assoc. reflexivity.
Qed.

Lemma rstrip_incl (s : str) (c : N) : In c (rstrip s) -> In c s.
Proof.
  unfold rstrip. intros H.
  apply in_rev in H. apply lstrip_incl in H. apply in_rev in H. exact H.
Qed.

Lemma find_from_app (ch : N) (a b : str) (i : Z) :
  ~ In ch a -> find_from ch (a ++ ch :: b) i = (i + Z.of_nat (length a))%Z.
Proof.
  revert i. induction a as [|x a IH]; intros i H; cbn [app find_from length].
  - rewrite N.eqb_refl. lia.
  - destruct (N.eqb_spec x ch) as [->|_]; [exfalso; apply H; left; reflexivity|].
    rewrite IH by (intros Hin; apply H; right; exact Hin). lia.
Qed.

Lemma rfind_from_app (ch : N) (a b : str) (i last : Z) :
  ~ In ch b ->
  rfind_from ch (a ++ ch :: b) i last = (i + Z.of_nat (length a))%Z.
Proof.
  intros H. revert i last.
  induction a as [|x a IH]; intros i last; cbn [app rfind_from length].
  - rewrite N.eqb_refl, rfind_from_absent by exact H. lia.
  - rewrite IH. lia.
Qed.

(** The first occurrence, when there is one. *)
Lemma find_from_found (ch : N) (s : str) (i : Z) :
  find_from ch s i <> (-1)%Z ->
  exists a b, s = a ++ ch :: b /\ ~ In ch a
              /\ find_from ch s i = (i + Z.of_nat (length a))%Z.
Proof.
  revert i. induction s as [|c s IH]; intros i H; cbn [find_from] in *.
  - contradiction.
  - destruct (N.eqb_spec c ch) as [->|Hne].
    + exists [], s. split; [reflexivity|]. split; [intros []|]. cbn. lia.
    + destruct (IH _ H) as (a & b & -> & Ha & Hf).
      exists (c :: a), b. split; [reflexivity|]. split.
      * intros [Hc|Hin]; [contradiction | exact (Ha Hin)].
      * rewrite Hf. cbn [length]. lia.
Qed.

Lemma slice_middle (a body c : str) :
  slice (a ++ body ++ c) (Z.of_nat (length a))
        (Z.of_nat (length a) + Z.of_nat (length body)) = body.
Proof.
  unfold slice, clamp_index. rewrite !length_app.
  destruct (Z.ltb_spec (Z.of_nat (length a)) 0); [lia|].
  destruct (Z.ltb_spec (Z.of_nat (length a) + Z.of_nat (length body)) 0);
    [lia|].
  rewrite !Z.min_r, !Z.max_r by lia.
  replace (Z.to_nat (Z.of_nat (length a))) with (length a) by lia.
  replace (Z.to_nat _) with (length body) by lia.
  rewrite skipn_app, skipn_all, Nat.sub_diag. cbn [skipn app].
  rewrite firstn_app, firstn_all, Nat.sub_diag. cbn [firstn].
  apply app_nil_r.
Qed.

(** A slice whose end is not after its start is empty. *)
Lemma slice_backwards (s : str) (a b : Z) :
  (0 <= b <= a)%Z -> slice s a b = [].
Proof.
  intros H. unfold slice, clamp_index.
  destruct (Z.ltb_spec a 0); [lia|]. destruct (Z.ltb_spec b 0); [lia|].
  replace (Z.to_nat _) with 0%nat by lia. reflexivity.
Qed.

(** The slice taken from the first occurrence of [ch] is empty or starts
    with [ch]. *)
Lemma slice_from_find (ch : N) (s : str) (b : Z) :
  find ch s <> (-1)%Z ->
  slice s (find ch s) b = [] \/ exists t, slice s (find ch s) b = ch :: t.
Proof.
  intros H. unfold find in *.
  destruct (find_from_found ch s 0 H) as (a & r & -> & _ & ->).
  unfold slice. set (len := Z.of_nat (length (a ++ ch :: r))).
  assert (Hlo : clamp_index len (0 + Z.of_nat (length a))
                = Z.of_nat (length a)).
  { unfold clamp_index, len. rewrite length_app. cbn [length].
    destruct (Z.ltb_spec (0 + Z.of_nat (length a)) 0); lia. }
  rewrite Hlo.
  replace (Z.to_nat (Z.of_nat (length a))) with (length a) by lia.
  rewrite skipn_app, skipn_all, Nat.sub_diag. cbn [skipn app].
  destruct (Z.to_nat _) as [|k]; [left; reflexivity|].
  right. eexists. reflexivity.
Qed.

Lemma app_braces (a mid c : str) :
  (a ++ 123%N :: mid) ++ 125%N :: c = a ++ (123%N :: mid ++ [125%N]) ++ c.
Proof.
  rewrite <- app_assoc. cbn [app]. do 2 f_equal.
  rewrite <- app_assoc. reflexivity.
Qed.

Lemma brace_span (pre mid post : str) :
  ~ In 123%N pre -> ~ In 125%N post ->
  let s := strip (pre ++ (123%N :: mid ++ [125%N]) ++ post) in
  find 123%N s <> (-1)%Z
  /\ slice s (find 123%N s) (rfind 125%N s + 1) = 123%N :: mid ++ [125%N].
Proof.
  intros Hpre Hpost s.
  assert (Hs : s = lstrip pre ++ (123%N :: mid ++ [125%N]) ++ rstrip post).
  { unfold s, strip. cbn [app].
    rewrite lstrip_app by reflexivity.
    change (lstrip pre ++ 123%N :: (mid ++ [125%N]) ++ post)
      with (lstrip pre ++ (123%N :: mid ++ [125%N]) ++ post).
    rewrite <- app_braces, rstrip_app by reflexivity.
    apply app_braces. }
  assert (Ha : ~ In 123%N (lstrip pre))
    by (intros H; apply Hpre; apply lstrip_incl; exact H).
  assert (Hc : ~ In 125%N (rstrip post))
    by (intros H; apply Hpost; apply rstrip_incl; exact H).
  assert (Hfind : find 123%N s = Z.of_nat (length (lstrip pre))).
  { rewrite Hs. unfold find. cbn [app]. rewrite find_from_app by exact Ha. lia. }
  assert (Hrfind : (rfind 125%N s + 1
                    = Z.of_nat (length (lstrip pre))
                      + Z.of_nat (length (123%N :: mid ++ [125%N])))%Z).
  { rewrite Hs. unfold rfind.
    rewrite <- app_braces, rfind_from_app by exact Hc.
    rewrite !length_app. cbn [length]. rewrite length_app. cbn [length]. lia. }
  split; [rewrite Hfind; lia|].
  rewrite Hfind, Hrfind, Hs. apply slice_middle.
Qed.

(** ** The registry, case by case *)

Section RegistryMore.
Context {B : Builtins}.

Lemma any_lower_eq_false (n : str) (items : list json) :
  any_lower_eq n items = Return false ->
  items = map JStr (strings_of items).
Proof.
  induction items as [|x items IH]; [reflexivity|].
  cbn [any_lower_eq]. destruct x; cbn [py_lower]; try discriminate.
  destruct (str_eqb n (lower s)); [discriminate|].
  intros H. cbn [strings_of map]. f_equal. exact (IH H).
Qed.

Lemma any_lower_eq_true (n : str) (items : list json) :
  any_lower_eq n items = Return true ->
  exists x, In (JStr x) items /\ lower x = n.
Proof.
  induction items as [|x items IH]; [discriminate|].
  cbn [any_lower_eq]. destruct x; cbn [py_lower]; try discriminate.
  destruct (str_eqb n (lower s)) eqn:E.
  - intros _. exists s. split; [left; reflexivity|].
    symmetry. apply str_eqb_eq; exact E.
  - intros H. destruct (IH H) as (x & Hin & Hx).
    exists x. split; [right; exact Hin | exact Hx].
Qed.

Lemma strings_of_app (a b : list json) :
  strings_of (a ++ b) = strings_of a ++ strings_of b.
Proof.
  induction a as [|x a IH]; [reflexivity|].
  destruct x; cbn [app strings_of]; rewrite ?IH; reflexivity.
Qed.

(** When [add_category] returns, nothing was written and the score is 1,
    or the registry read as a list of names and the score is 10. *)
Lemma add_category_cases
    (name : json) (w w' : world) (c : str) (score : Z) :
  add_category name w = (Return (c, score), w') ->
  exists n,
    name = JStr n /\ c = lower n
    /\ ((score = 1%Z /\ w' = w)
        \/ (score = 10%Z
            /\ exists cats,
                 stored w cats
                 /\ existsb (fun x => str_eqb (lower n) (lower x)) cats = false
                 /\ w' = with_new_category w cats (lower n))).
Proof.
  unfold add_category, bind, lift, ret.
  destruct name as [| | | |n| |]; cbn [py_lower]; try discriminate.
  rewrite read_categories_eq.
  destruct (fst (read_categories w)) as [categories|e] eqn:Er; [|discriminate].
  destruct (py_iter categories) as [items|e] eqn:Ei; [|discriminate].
  destruct (any_lower_eq (lower n) items) as [[|]|e] eqn:Ea; [| |discriminate].
  - intros [= <- <- <-]. exists n. auto.
  - destruct categories as [| | | | |l|]; cbn [py_append]; try discriminate.
    cbn [py_iter] in Ei. injection Ei as <-.
    pose proof (any_lower_eq_false _ _ Ea) as Hl.
    unfold write_registry.
    intros [= <- <- <-]. exists n. split; [reflexivity|]. split; [reflexivity|].
    right. split; [reflexivity|].
    exists (strings_of l). split; [|split].
    + unfold stored. rewrite Er, <- Hl. reflexivity.
    + rewrite Hl, any_lower_eq_strings in Ea. injection Ea as Ea. exact Ea.
    + unfold with_new_category. rewrite strings_of_app. reflexivity.
Qed.

(** X1. When [add_category] returns, its argument was a string and the
    name it returns is that string lower-cased.  A score of 1 comes with an
    untouched world and an entry among the stored ones that lower-cases to
    the name; a score of 10 comes with a registry that read as a list of
    names none of which lower-cases to the name, and with exactly one
    rewrite of the file: the old names followed by the new one. *)
Theorem score_ten_means_one_new_entry
    (name : json) (w w' : world) (c : str) (score : Z) :
  add_category name w = (Return (c, score), w') ->
  exists n,
    name = JStr n /\ c = lower n
    /\ ((score = 1%Z /\ w' = w
         /\ exists categories items x,
              fst (read_categories w) = Return categories
              /\ py_iter categories = Return items
              /\ In (JStr x) items /\ lower x = lower n)
        \/ (score = 10%Z
            /\ exists cats,
                 stored w cats
                 /\ Forall (fun x => lower x <> lower n) cats
                 /\ w' = with_new_category w cats (lower n))).
Proof.
  intros Hrun.
  destruct (add_category_cases _ _ _ _ _ Hrun)
    as (n & -> & -> & [[-> ->] | (-> & cats & Hs & Hnew & ->)]);
    exists n; (split; [reflexivity|]); (split; [reflexivity|]).
  - left. split; [reflexivity|]. split; [reflexivity|].
    revert Hrun. unfold add_category, bind, lift, ret. cbn [py_lower].
    rewrite read_categories_eq.
    destruct (fst (read_categories w)) as [categories|e]; [|discriminate].
    destruct (py_iter categories) as [items|e] eqn:Ei; [|discriminate].
    destruct (any_lower_eq (lower n) items) as [[|]|e] eqn:Ea;
      [| |discriminate].
    + intros _. destruct (any_lower_eq_true _ _ Ea) as (x & Hin & Hx).
      exists categories, items, x. auto.
    + destruct (py_append categories _); [|discriminate].
      unfold write_registry. discriminate.
  - right. split; [reflexivity|].
    exists cats. split; [exact Hs|]. split; [|reflexivity].
    apply Forall_forall. intros x Hx Heq.
    assert (Hex : existsb (fun c => str_eqb (lower n) (lower c)) cats = true).
    { apply existsb_exists. exists x. split; [exact Hx|].
      apply str_eqb_eq. symmetry; exact Heq. }
    congruence.
Qed.

Lemma resolved_step (w : world) (cats : list str) (n : str) :
  Forall (fun s => text_ok s = true) cats ->
  stored w cats ->
  text_ok (lower n) = true ->
  let w1 := snd (add_category (JStr n) w) in
  Forall (fun s => text_ok s = true) (resolved cats n)
  /\ stored w1 (resolved cats n)
  /\ (length (events w1) + length cats
      = length (events w) + length (resolved cats n))%nat
  /\ firstn (length cats) (resolved cats n) = cats.
Proof.
  intros Hok Hs Hn. cbv zeta.
  rewrite (add_category_stored w cats n Hs). unfold resolved.
  destruct (existsb _ cats); cbn [snd].
  - split; [exact Hok|]. split; [exact Hs|]. split; [lia|]. apply firstn_all.
  - assert (Hok' : Forall (fun s => text_ok s = true) (cats ++ [lower n]))
      by (apply Forall_app; split; auto).
    split; [exact Hok'|]. split; [apply stored_written; exact Hok'|]. split.
    + cbn [with_new_category events]. rewrite !length_app. cbn [length]. lia.
    + rewrite firstn_app, firstn_all, Nat.sub_diag. apply app_nil_r.
Qed.

Lemma registry_after_calls_aux (names : list str) :
  forall (w : world) (cats : list str),
  Forall (fun s => text_ok s = true) cats ->
  stored w cats ->
  Forall (fun n => text_ok (lower n) = true) names ->
  stored (after_calls names w) (fold_left resolved names cats)
  /\ (length (events (after_calls names w)) + length cats
      = length (events w) + length (fold_left resolved names cats))%nat
  /\ firstn (length cats) (fold_left resolved names cats) = cats.
Proof.
  induction names as [|n names IH]; intros w cats Hok Hs Hn.
  - cbn. split; [exact Hs|]. split; [lia|]. apply firstn_all.
  - inversion Hn as [|? ? Hn1 Hn2]; subst.
    destruct (resolved_step w cats n Hok Hs Hn1) as (Hok1 & Hs1 & Hlen1 & Hpre1).
    change (after_calls (n :: names) w)
      with (after_calls names (snd (add_category (JStr n) w))).
    change (fold_left resolved (n :: names) cats)
      with (fold_left resolved names (resolved cats n)).
    destruct (IH _ _ Hok1 Hs1 Hn2) as (H1 & H2 & H3).
    split; [exact H1|]. split; [lia|].
    apply (f_equal (firstn (length cats))) in H3.
    rewrite firstn_firstn in H3.
    assert (Hle : (length cats <= length (resolved cats n))%nat).
    { rewrite <- Hpre1 at 1. rewrite length_firstn. lia. }
    rewrite Nat.min_l in H3 by exact Hle.
    rewrite H3. exact Hpre1.
Qed.

(** X2. A sequence of calls acts on the stored names like [resolved], one
    name after the other, for names whose lower-cased form is text that
    json writes and reads back unchanged ([text_ok]: code points in range,
    no high surrogate directly followed by a low one): on a registry file
    of plain text that reads as [cats], the registry after the calls reads
    as [fold_left resolved names cats]; one event is logged per name added,
    and the names stored before are still there, in front and in their
    order. *)
Theorem registry_after_calls
    (w : world) (cats : list str) (names : list str) :
  plain_registry w -> stored w cats ->
  Forall (fun n => text_ok (lower n) = true) names ->
  let w' := after_calls names w in
  let cats' := fold_left resolved names cats in
  stored w' cats'
  /\ (length (events w') + length cats = length (events w) + length cats')%nat
  /\ firstn (length cats) cats' = cats.
Proof.
  intros Hp Hs Hn.
  exact (registry_after_calls_aux names w cats (stored_plain w cats Hp Hs) Hs Hn).
Qed.

(** X3. A registry file that decodes but does not have the expected
    shape.  When the document is not an object, [data.get] raises
    [AttributeError].  When its ["categories"] is [null], a boolean or a
    number, iterating over it raises [TypeError].  When it is a string, its
    characters are searched, and when it is an object, its keys: the call
    scores 1 when one of them lower-cases to the lower-cased name, and
    otherwise [append] raises [AttributeError].  Nothing is written in any
    of these cases. *)
Theorem misshapen_registry_raises
    (w : world) (text : str) (data : json) (name : str) :
  registry_file w = Some text -> json_loads text = Return data ->
  let searched (items : list str) :=
    if existsb (fun c => str_eqb (lower name) (lower c)) items
    then (Return (lower name, 1%Z), w)
    else (Raise AttributeError, w) in
  match data with
  | JDict d =>
      forall v, dict_lookup d (py "categories") = Some v ->
        match v with
        | JList _ => True
        | JStr s =>
            add_category (JStr name) w = searched (map (fun c => [c]) s)
        | JDict d' => add_category (JStr name) w = searched (map fst d')
        | JNull | JBool _ | JInt _ | JFloat _ =>
            add_category (JStr name) w = (Raise TypeError, w)
        end
  | _ => add_category (JStr name) w = (Raise AttributeError, w)
  end.
Proof.
  intros Hf Hl searched.
  assert (Hread : read_categories w
                  = (match py_get data (py "categories") (JList []) with
                     | Return v => Return v
                     | Raise e => Raise e
                     end, w)).
  { unfold read_categories, try_except, bind, load_registry, lift, ret.
    rewrite Hf, Hl.
    destruct data; cbn [py_get]; reflexivity. }
  unfold add_category, bind, lift, ret. cbn [py_lower].
  rewrite Hread.
  destruct data as [| | | | | |d]; cbn [py_get]; try reflexivity.
  intros v Hv. rewrite Hv.
  destruct v as [| | | |s|l|d']; cbn [py_iter]; try reflexivity;
    try exact I; subst searched; cbv beta.
  - replace (map (fun c => JStr [c]) s)
      with (map JStr (map (fun c => [c]) s)) by (rewrite map_map; reflexivity).
    rewrite any_lower_eq_strings.
    destruct (existsb _ _); reflexivity.
  - replace (map (fun kv : str * json => JStr (fst kv)) d')
      with (map JStr (map fst d')) by (rewrite map_map; reflexivity).
    rewrite any_lower_eq_strings.
    destruct (existsb _ _); reflexivity.
Qed.

Lemma any_lower_eq_app (n : str) (before : list str) (rest : list json) :
  any_lower_eq n (map JStr before ++ rest)
  = if existsb (fun c => str_eqb n (lower c)) before then Return true
    else any_lower_eq n rest.
Proof.
  induction before as [|c before IH]; [reflexivity|].
  cbn [map app any_lower_eq py_lower existsb].
  destruct (str_eqb n (lower c)); [reflexivity | exact IH].
Qed.

(** X4. A stored list with an entry that is not a string: the search goes
    through the entries in order, so a name that matches an entry before
    the bad one scores 1; any other name runs into the bad entry, whose
    [lower] raises [AttributeError], and nothing is written. *)
Theorem non_string_entry_stops_the_search
    (w : world) (before : list str) (bad : json) (rest : list json)
    (name : str) :
  fst (read_categories w) = Return (JList (map JStr before ++ bad :: rest)) ->
  (forall s, bad <> JStr s) ->
  add_category (JStr name) w
  = if existsb (fun c => str_eqb (lower name) (lower c)) before
    then (Return (lower name, 1%Z), w)
    else (Raise AttributeError, w).
Proof.
  intros Hr Hbad.
  unfold add_category, bind, lift, ret. cbn [py_lower].
  rewrite read_categories_eq, Hr. cbn [py_iter].
  rewrite any_lower_eq_app.
  destruct (existsb _ before); [reflexivity|].
  cbn [any_lower_eq].
  destruct bad; cbn [py_lower]; try reflexivity.
  exfalso. exact (Hbad _ eq_refl).
Qed.

End RegistryMore.

(** ** What is decoded between the braces *)

Section Objects.
Local Open Scope N_scope.

Lemma parse_members_gives_object (f : nat) :
  forall depth acc s v r,
    parse_members f depth acc s = Ok v r -> exists d, v = JDict d.
Proof.
  induction f as [|f IH]; intros depth acc s v r H; [discriminate|].
  rewrite parse_members_unfold in H.
  repeat match type of H with
    | context [match ?x with _ => _ end] => destruct x eqn:?
    end; try discriminate.
  - injection H as <- _. eexists; reflexivity.
  - exact (IH _ _ _ _ _ H).
Qed.

Lemma scan_brace_object (f depth : nat) (t : str) (v : json) (r : str) :
  scan_once f depth (123 :: t) = Ok v r -> exists d, v = JDict d.
Proof.
  destruct f as [|f]; [discriminate|].
  rewrite scan_once_step.
  change (123 =? 34) with false. change (123 =? 123) with true.
  cbv iota.
  destruct depth as [|depth]; [discriminate|].
  destruct (skip_ws t) as [|c' t']; [discriminate|].
  destruct (c' =? 125).
  - intros [= <- _]. eexists; reflexivity.
  - apply parse_members_gives_object.
Qed.

Lemma json_loads_brace_object {B : Builtins} (t : str) (v : json) :
  json_loads (123 :: t) = Return v -> exists d, v = JDict d.
Proof.
  unfold json_loads.
  change (starts_with_bom (123 :: t)) with false. cbv iota.
  change (skip_ws (123 :: t)) with (123 :: t).
  destruct (scan_once _ _ _) as [v' r| | | |] eqn:E; try discriminate.
  destruct (skip_ws r); [|discriminate].
  intros [= <-]. exact (scan_brace_object _ _ _ _ _ E).
Qed.

End Objects.

Section Fields.
Context {B : Builtins}.

(** What is decoded between the braces is a JSON object. *)
Lemma decoded_object (raw : str) (analysis : json) :
  let s := strip raw in
  find 123%N s <> (-1)%Z ->
  json_loads (slice s (find 123%N s) (rfind 125%N s + 1)) = Return analysis ->
  exists d, analysis = JDict d.
Proof.
  intros s Hopen Hload.
  destruct (slice_from_find 123%N s (rfind 125%N s + 1) Hopen) as [He|[t He]];
    rewrite He in Hload.
  - discriminate.
  - exact (json_loads_brace_object _ _ Hload).
Qed.

(** X6. The text from the first opening brace on decodes to an object or
    not at all, so the three [analysis.get] calls of [process_ai_response]
    cannot fail: each returns the stored value or its default. *)
Theorem field_lookups_never_fail (raw : str) (analysis : json) :
  let s := strip raw in
  find 123%N s <> (-1)%Z ->
  json_loads (slice s (find 123%N s) (rfind 125%N s + 1)) = Return analysis ->
  exists d,
    analysis = JDict d
    /\ forall key default,
         py_get analysis key default = Return (get_or d key default).
Proof.
  intros s Hopen Hload.
  destruct (decoded_object raw analysis Hopen Hload) as [d ->].
  exists d. split; [reflexivity|].
  intros key default. reflexivity.
Qed.

End Fields.

Section Frames.
Context {B : Builtins}.

Lemma extends_nothing (w : world) : extends w (registry_file w) [] = w.
Proof. destruct w as [f evs]. unfold extends. cbn. rewrite app_nil_r. reflexivity. Qed.

Lemma extends_extends (w : world) (f f' : option str) (l l' : list event) :
  extends (extends w f l) f' l' = extends w f' (l ++ l').
Proof. unfold extends. cbn. rewrite app_assoc. reflexivity. Qed.

Lemma same_file_extends (w1 w2 : world) (f : option str) (l1 l2 : list event) :
  same_file (extends w1 f l1) (extends w2 f l2).
Proof. reflexivity. Qed.

Lemma framed_lift {A} (r : res A) : framed (lift r).
Proof.
  intros w1 w2 H. exists r, (registry_file w1), [].
  unfold lift. rewrite extends_nothing. rewrite H, extends_nothing. auto.
Qed.

Lemma framed_ret {A} (a : A) : framed (ret a).
Proof. exact (framed_lift (Return a)). Qed.

Lemma framed_bind {A C} (m : M A) (k : A -> M C) :
  framed m -> (forall a, framed (k a)) -> framed (bind m k).
Proof.
  intros Hm Hk w1 w2 H.
  destruct (Hm w1 w2 H) as (r & f & l & E1 & E2).
  unfold bind. rewrite E1, E2.
  destruct r as [a|e].
  - destruct (Hk a _ _ (same_file_extends w1 w2 f l l))
      as (r' & f' & l' & E1' & E2').
    exists r', f', (l ++ l'). rewrite E1', E2', !extends_extends. auto.
  - exists (Raise e), f, l. auto.
Qed.

Lemma framed_try_except {A} (body : M A) (classes : list exn) (handler : M A) :
  framed body -> framed handler -> framed (try_except body classes handler).
Proof.
  intros Hb Hh w1 w2 H.
  destruct (Hb w1 w2 H) as (r & f & l & E1 & E2).
  unfold try_except. rewrite E1, E2.
  destruct r as [a|e].
  - exists (Return a), f, l. auto.
  - destruct (caught_by classes e).
    + destruct (Hh _ _ (same_file_extends w1 w2 f l l))
        as (r' & f' & l' & E1' & E2').
      exists r', f', (l ++ l'). rewrite E1', E2', !extends_extends. auto.
    + exists (Raise e), f, l. auto.
Qed.

Lemma framed_load_registry : framed load_registry.
Proof.
  intros [f1 e1] [f2 e2] H. unfold same_file in H. cbn in H. subst f2.
  unfold load_registry, extends. cbn [registry_file events].
  destruct f1 as [text|].
  - exists (json_loads text), (Some text), []. rewrite !app_nil_r. auto.
  - exists (Raise FileNotFoundError), None, []. rewrite !app_nil_r. auto.
Qed.

Lemma framed_write_registry (categories : list json) :
  framed (write_registry categories).
Proof.
  intros w1 w2 _. unfold write_registry.
  eexists _, _, _. split; reflexivity.
Qed.

Lemma framed_read_categories : framed read_categories.
Proof.
  unfold read_categories.
  apply framed_try_except; [|apply framed_ret].
  apply framed_bind; [apply framed_load_registry|].
  intros data. apply framed_lift.
Qed.

Lemma framed_add_category (name : json) : framed (add_category name).
Proof.
  unfold add_category.
  apply framed_bind; [apply framed_lift|]. intros n.
  apply framed_bind; [apply framed_read_categories|]. intros categories.
  apply framed_bind; [apply framed_lift|]. intros items.
  apply framed_bind; [apply framed_lift|]. intros [|].
  - apply framed_ret.
  - apply framed_bind; [apply framed_lift|]. intros l.
    apply framed_bind; [apply framed_write_registry|]. intros _.
    apply framed_ret.
Qed.

Lemma framed_process_body (raw : str) : framed (process_body raw).
Proof.
  unfold process_body.
  destruct (negb _ && negb _)%bool; [|apply framed_ret].
  apply framed_bind; [apply framed_lift|]. intros analysis.
  apply framed_bind; [apply framed_lift|]. intros category_name.
  apply framed_bind; [apply framed_add_category|]. intros [category score].
  apply framed_bind; [apply framed_lift|]. intros name.
  apply framed_bind; [apply framed_lift|]. intros count.
  apply framed_bind; [apply framed_lift|]. intros detail.
  apply framed_bind; [apply framed_lift|]. intros _.
  apply framed_ret.
Qed.

End Frames.

(** ** What is written to the registry file *)

Section Ascii.
Local Open Scope N_scope.

Lemma printable_range (c : N) : 32 <= c <= 126 -> printable c = true.
Proof.
  intros [H1 H2]. unfold printable.
  apply N.leb_le in H1, H2. rewrite H1, H2. reflexivity.
Qed.

Lemma hex_char_printable (n : N) : n < 16 -> printable (hex_char n) = true.
Proof.
  intros H. apply printable_range. unfold hex_char.
  destruct (N.ltb_spec n 10); lia.
Qed.

Lemma u_escape_printable (c : N) :
  c < 65536 -> forallb printable (u_escape c) = true.
Proof.
  intros H. unfold u_escape. cbn [forallb].
  rewrite !hex_char_printable; [reflexivity | ..];
    try (apply N.mod_lt; lia).
  apply N.Div0.div_lt_upper_bound. lia.
Qed.

Lemma escape_char_printable (c : N) : forallb printable (escape_char c) = true.
Proof.
  unfold escape_char.
  repeat match goal with
    | |- context [if ?a =? ?b then _ else _] => destruct (N.eqb_spec a b)
    end; try reflexivity.
  destruct (N.leb_spec 32 c), (N.leb_spec c 126); cbn [andb];
    try (cbn [forallb]; rewrite printable_range by lia; reflexivity);
    (destruct (N.ltb_spec c 65536);
     [ apply u_escape_printable; assumption
     | rewrite forallb_app, !u_escape_printable; [reflexivity | ..];
       unfold low_half, high_half;
       match goal with |- context [?x mod 1024] =>
         pose proof (N.mod_lt x 1024) end; lia ]).
Qed.

Lemma encode_str_printable (s : str) : forallb printable (encode_str s) = true.
Proof.
  unfold encode_str. cbn [forallb]. rewrite forallb_app. cbn [forallb].
  rewrite andb_true_r. change (printable 34) with true. cbn [andb].
  induction s as [|c s IH]; [reflexivity|].
  cbn [flat_map]. rewrite forallb_app, escape_char_printable. exact IH.
Qed.

Lemma dump_items_printable (l : list str) :
  forallb printable (dump_items l) = true.
Proof.
  induction l as [|s l IH]; [reflexivity|].
  destruct l as [|s' l']; [apply encode_str_printable|].
  change (dump_items (s :: s' :: l'))
    with (encode_str s ++ [44; 10; 32; 32; 32; 32] ++ dump_items (s' :: l')).
  rewrite !forallb_app, encode_str_printable, IH. reflexivity.
Qed.

Lemma dump_categories_printable (cats : list str) :
  forallb printable (dump_categories cats) = true.
Proof.
  unfold dump_categories.
  rewrite !forallb_app, encode_str_printable.
  destruct cats as [|c cats]; [reflexivity|].
  rewrite !forallb_app, dump_items_printable. reflexivity.
Qed.

Lemma printable_plain (s : str) :
  forallb printable s = true -> plain_text s = true.
Proof.
  unfold plain_text. rewrite !forallb_forall. intros H c Hc.
  specialize (H c Hc). unfold printable in H.
  assert (Hr : c <= 126).
  { apply orb_true_iff in H as [H|H].
    - apply andb_true_iff in H as [_ H]. apply N.leb_le in H. exact H.
    - apply N.eqb_eq in H. lia. }
  destruct (not_surrogate_below c) as [Hh Hl]; [lia|].
  unfold is_surrogate. rewrite Hh, Hl.
  destruct (N.leb_spec c 1114111); [reflexivity | lia].
Qed.

End Ascii.

(** ** The interpreter, path by path *)

Section InterpreterMore.
Context {B : Builtins}.
Local Open Scope Z_scope.

Lemma guard_holds (s : str) :
  find 123%N s <> -1 ->
  (negb (find 123%N s =? -1) && negb (rfind 125%N s + 1 =? -1))%bool = true.
Proof.
  intros H. destruct (Z.eqb_spec (find 123%N s) (-1)); [contradiction|].
  destruct (Z.eqb_spec (rfind 125%N s + 1) (-1)) as [Hc|_]; [|reflexivity].
  pose proof (rfind_from_lower_bound 125%N s 0 (-1)). unfold rfind in Hc. lia.
Qed.

Lemma process_body_score (raw : str) (w : world) (analysis : json) :
  let s := strip raw in
  find 123%N s <> -1 ->
  json_loads (slice s (find 123%N s) (rfind 125%N s + 1)) = Return analysis ->
  process_body raw w = score_analysis analysis w.
Proof. exact (process_body_decoded raw w analysis). Qed.

Lemma score_analysis_object (d : list (str * json)) (w : world) :
  score_analysis (JDict d) w
  = (match fst (add_category
                  (get_or d (py "detected_category") (JStr (py "unknown"))) w)
     with
     | Return (category, category_score) =>
         match py_int (get_or d (py "detail_count") (JInt 0)) with
         | Return detail =>
             let title :=
               py_str (get_or d (py "Name") (JStr (py "unknown"))) in
             match print_score (category_score + detail) category detail
                     title with
             | Return _ =>
                 Return (category_score + detail, category, detail, title)
             | Raise e => Raise e
             end
         | Raise e => Raise e
         end
     | Raise e => Raise e
     end,
     snd (add_category
            (get_or d (py "detected_category") (JStr (py "unknown"))) w)).
Proof.
  unfold score_analysis, bind, lift, ret, get_or. cbn [py_get].
  destruct (add_category _ w) as [[[c sc]|e] w']; [|reflexivity].
  cbn [fst snd]. destruct (py_int _); [|reflexivity].
  cbv zeta. destruct (print_score _ _ _ _); reflexivity.
Qed.

(** What the [try] block does, by the text between the braces. *)
Lemma process_body_cases (raw : str) :
  (forall w, process_body raw w = (Return sentinel, w))
  \/ (exists e, forall w, process_body raw w = (Raise e, w))
  \/ exists d,
       (let s := strip raw in
        find 123%N s <> -1
        /\ json_loads (slice s (find 123%N s) (rfind 125%N s + 1))
           = Return (JDict d))
       /\ forall w, process_body raw w = score_analysis (JDict d) w.
Proof.
  destruct (Z.eq_dec (find 123%N (strip raw)) (-1)) as [Hno|Hopen].
  - left. intros w. unfold process_body. rewrite Hno. reflexivity.
  - right.
    destruct (json_loads (slice (strip raw) (find 123%N (strip raw))
                            (rfind 125%N (strip raw) + 1)))
      as [analysis|e] eqn:Hload.
    + right.
      destruct (decoded_object raw analysis Hopen Hload) as [d ->].
      exists d. split; [split; assumption|].
      intros w. apply process_body_score; assumption.
    + left. exists e. intros w. unfold process_body.
      rewrite guard_holds by exact Hopen.
      unfold bind at 1, lift at 1. rewrite Hload. reflexivity.
Qed.

Lemma snd_try_except {A} (body : M A) (classes : list exn) (a : A) (w : world) :
  snd (try_except body classes (ret a) w) = snd (body w).
Proof.
  unfold try_except. destruct (body w) as [[x|e] w']; [reflexivity|].
  destruct (caught_by classes e); reflexivity.
Qed.

Lemma add_category_writes (name : json) (w : world) :
  at_most_one_write w (snd (add_category name w)).
Proof.
  destruct (add_category name w) as [[[c sc]|e] w'] eqn:E; cbn [snd].
  - destruct (add_category_cases _ _ _ _ _ E)
      as (n & _ & _ & [[_ ->] | (_ & cats & _ & _ & ->)]).
    + left; reflexivity.
    + right. eexists. reflexivity.
  - pose proof (add_category_outcome name w) as H. rewrite E in H.
    destruct H as [-> _]. left; reflexivity.
Qed.

Lemma process_body_writes (raw : str) (w : world) :
  at_most_one_write w (snd (process_body raw w)).
Proof.
  destruct (process_body_cases raw) as [H | [[e H] | (d & _ & H)]]; rewrite H.
  - left; reflexivity.
  - left; reflexivity.
  - rewrite score_analysis_object. cbn [snd]. apply add_category_writes.
Qed.

(** X11. One call of [process_ai_response] logs its entry and then
    rewrites the registry file at most once; it never removes the file.
    This holds on every input, also when the call raises. *)
Theorem one_write_per_response (raw : str) (w : world) :
  at_most_one_write (record (Interpreted raw) w)
                    (snd (process_ai_response raw w)).
Proof.
  rewrite process_ai_response_world.
  apply process_body_writes.
Qed.

Lemma forallb_lstrip (P : N -> bool) (s : str) :
  forallb P s = true -> forallb P (lstrip s) = true.
Proof.
  intros H. apply (forallb_incl P (lstrip s) s); [|exact H].
  intros x Hx. exact (lstrip_incl _ _ Hx).
Qed.

Lemma forallb_rstrip (P : N -> bool) (s : str) :
  forallb P s = true -> forallb P (rstrip s) = true.
Proof.
  intros H. apply (forallb_incl P (rstrip s) s); [|exact H].
  intros x Hx. exact (rstrip_incl _ _ Hx).
Qed.

(** Text around the braces that can be printed does not change what the
    handler does. *)
Lemma fallback_around_braces (pre mid post : str) :
  forallb encodable pre = true -> forallb encodable post = true ->
  let body := 123%N :: mid ++ [125%N] in
  fallback (pre ++ body ++ post) = fallback body.
Proof.
  intros Hpre Hpost body. unfold fallback.
  replace (forallb encodable (strip (pre ++ body ++ post)))
    with (forallb encodable (strip body)); [reflexivity|].
  assert (Hs : forall a b, strip (a ++ body ++ b) = lstrip a ++ body ++ rstrip b).
  { intros a b. unfold strip, body.
    change (a ++ (123%N :: mid ++ [125%N]) ++ b)
      with (a ++ 123%N :: (mid ++ [125%N]) ++ b).
    rewrite (lstrip_app a 123%N _ eq_refl).
    rewrite <- !app_assoc. cbn [app].
    replace (lstrip a ++ 123%N :: mid ++ 125%N :: b)
      with ((lstrip a ++ 123%N :: mid) ++ 125%N :: b)
      by (rewrite <- app_assoc; reflexivity).
    rewrite (rstrip_app _ 125%N b eq_refl).
    cbn [app]. rewrite <- !app_assoc. reflexivity. }
  rewrite (Hs pre post).
  pose proof (Hs [] []) as Hb. cbn [app lstrip] in Hb.
  change (rstrip []) with (@nil N) in Hb. rewrite app_nil_r in Hb.
  rewrite Hb.
  rewrite !forallb_app, (forallb_lstrip _ _ Hpre), (forallb_rstrip _ _ Hpost).
  rewrite andb_true_r. reflexivity.
Qed.

(** X7. Text before the first opening brace and after the last closing
    brace is ignored, as long as it can be printed: a response
    [pre ++ body ++ post], with no opening brace and no surrogate in [pre]
    and no closing brace and no surrogate in [post], is interpreted like
    [body] alone, with the same outcome, the same registry file afterwards
    and the same events after the [Interpreted] entry. *)
Theorem text_around_braces_is_ignored (pre mid post : str) (w : world) :
  ~ In 123%N pre -> ~ In 125%N post ->
  forallb encodable pre = true -> forallb encodable post = true ->
  let body := 123%N :: mid ++ [125%N] in
  exists r f l,
    process_ai_response (pre ++ body ++ post) w
    = (r, extends w f (Interpreted (pre ++ body ++ post) :: l))
    /\ process_ai_response body w = (r, extends w f (Interpreted body :: l)).
Proof.
  intros Hpre Hpost Epre Epost body. set (raw := pre ++ body ++ post).
  destruct (brace_span pre mid post Hpre Hpost) as [Ho1 Hs1].
  destruct (brace_span [] mid [] (fun H => H) (fun H => H)) as [Ho2 Hs2].
  cbn [app] in Ho2, Hs2. rewrite app_nil_r in Ho2, Hs2.
  fold body in Ho1, Hs1, Ho2, Hs2. fold raw in Ho1, Hs1.
  assert (Hbody : forall w0, process_body raw w0 = process_body body w0).
  { intros w0. unfold process_body.
    rewrite !guard_holds by assumption. rewrite Hs1, Hs2. reflexivity. }
  pose proof (fallback_around_braces pre mid post Epre Epost) as Hfb.
  cbv zeta in Hfb. fold body in Hfb. fold raw in Hfb.
  destruct (framed_process_body body
              (record (Interpreted raw) w) (record (Interpreted body) w)
              eq_refl) as (r & f & l & E1 & E2).
  rewrite !process_ai_response_eq, Hbody, E1, E2, Hfb.
  assert (Hx : forall ev, extends (record ev w) f l = extends w f (ev :: l)).
  { intros ev. unfold extends, record. cbn [events].
    rewrite <- app_assoc. reflexivity. }
  rewrite !Hx.
  destruct r as [t|e].
  - exists (Return t), f, l. auto.
  - destruct (caught_by _ e).
    + exists (fallback body), f, l. auto.
    + exists (Raise e), f, l. auto.
Qed.

(** X8. When the last closing brace comes before the first opening brace,
    or there is an opening brace and no closing one, the slice between them
    is empty, [json.loads] rejects it, and the handler prints the stripped
    response and returns the sentinel.  So the call returns the sentinel
    when the stripped response holds no surrogate, and otherwise it returns
    the sentinel or lets the [UnicodeEncodeError] of the print out.  The
    registry is left as it was. *)
Theorem closing_brace_first_falls_back (raw : str) (w : world) :
  let s := strip raw in
  rfind 125%N s < find 123%N s ->
  (process_ai_response raw w = (Return sentinel, record (Interpreted raw) w)
   \/ process_ai_response raw w
      = (Raise UnicodeEncodeError, record (Interpreted raw) w))
  /\ (forallb encodable s = true ->
      process_ai_response raw w
      = (Return sentinel, record (Interpreted raw) w)).
Proof.
  intros s H.
  pose proof (rfind_from_lower_bound 125%N s 0 (-1)) as Hb.
  assert (Hrun : process_ai_response raw w
                 = (fallback raw, record (Interpreted raw) w)).
  { apply undecodable_falls_back; fold s.
    - unfold rfind in *. lia.
    - rewrite slice_backwards; [reflexivity|].
      unfold rfind in *. lia. }
  rewrite Hrun. unfold fallback. fold s.
  destruct (forallb encodable s); split; auto; discriminate.
Qed.

(** X10. A decoded response without a [detected_category] is resolved
    under the name ["unknown"]: after the call the registry reads as the
    old names with ["unknown"] resolved against them, whether the call
    returns a score, returns the sentinel or raises. *)
Theorem missing_category_is_registered_as_unknown
    (raw : str) (w : world) (d : list (str * json)) (cats : list str) :
  let s := strip raw in
  find 123%N s <> -1 ->
  json_loads (slice s (find 123%N s) (rfind 125%N s + 1)) = Return (JDict d) ->
  dict_lookup d (py "detected_category") = None ->
  plain_registry w -> stored w cats ->
  text_ok (lower (py "unknown")) = true ->
  stored (snd (process_ai_response raw w)) (resolved cats (py "unknown")).
Proof.
  intros s Hopen Hload Hmiss Hp Hs Hun.
  rewrite process_ai_response_world.
  rewrite (process_body_score raw _ (JDict d) Hopen Hload).
  rewrite score_analysis_object. cbn [snd].
  unfold get_or at 1. rewrite Hmiss.
  apply resolved_step.
  - exact (stored_plain w cats Hp Hs).
  - apply stored_record; exact Hs.
  - exact Hun.
Qed.

End InterpreterMore.

(** ** What the registry keeps *)

Section Keeps.
Context {B : Builtins}.

Lemma add_category_file (name : json) (w : world) :
  registry_file (snd (add_category name w)) = registry_file w
  \/ exists cats,
       registry_file (snd (add_category name w)) = Some (dump_categories cats).
Proof.
  destruct (add_category name w) as [[[c sc]|e] w'] eqn:E; cbn [snd].
  - destruct (add_category_cases _ _ _ _ _ E)
      as (n & _ & _ & [[_ ->] | (_ & cats & _ & _ & ->)]).
    + left; reflexivity.
    + right. eexists. reflexivity.
  - pose proof (add_category_outcome name w) as H. rewrite E in H.
    destruct H as [-> _]. left; reflexivity.
Qed.

(** X5. Whatever the name, what [add_category] writes consists of
    printable ASCII characters and line feeds only, every other character
    being escaped; so a registry file of plain text stays one. *)
Theorem registry_is_written_as_printable_ascii (name : json) (w : world) :
  let w' := snd (add_category name w) in
  (registry_file w' = registry_file w
   \/ exists text, registry_file w' = Some text
                   /\ forallb printable text = true)
  /\ (plain_registry w -> plain_registry w').
Proof.
  cbv zeta. destruct (add_category_file name w) as [H | [cats H]].
  - split; [left; exact H|]. unfold plain_registry. rewrite H. auto.
  - split.
    + right. exists (dump_categories cats).
      split; [exact H | apply dump_categories_printable].
    + intros _. unfold plain_registry. rewrite H.
      apply printable_plain, dump_categories_printable.
Qed.

Lemma plain_registry_add_category (name : json) (w : world) :
  plain_registry w -> plain_registry (snd (add_category name w)).
Proof.
  destruct (add_category_file name w) as [H | [cats H]];
    unfold plain_registry; rewrite H; [auto|].
  intros _. apply printable_plain, dump_categories_printable.
Qed.

Section Survives.
Hypothesis lower_text_ok :
  forall s : str, text_ok s = true -> text_ok (lower s) = true.

(** X12. No response damages the registry.  For a response of plain text
    and a registry file of plain text that reads as [cats], the file is
    plain text after the call and reads as [cats], or as [cats] with one
    lower-cased name appended. *)
Theorem registry_survives_any_response
    (raw : str) (w : world) (cats : list str) :
  plain_text raw = true -> plain_registry w -> stored w cats ->
  let w' := snd (process_ai_response raw w) in
  plain_registry w'
  /\ (stored w' cats \/ exists n, stored w' (cats ++ [lower n])).
Proof.
  intros Hraw Hp Hs. cbv zeta.
  rewrite process_ai_response_world.
  set (w0 := record (Interpreted raw) w).
  assert (Hs0 : stored w0 cats) by (apply stored_record; exact Hs).
  assert (Hp0 : plain_registry w0) by exact Hp.
  destruct (process_body_cases raw)
    as [H | [[e H] | (d & [Hopen Hload] & H)]];
    rewrite H; cbn [snd]; try (split; [exact Hp0 | left; exact Hs0]).
  rewrite score_analysis_object. cbn [snd].
  split; [apply plain_registry_add_category; exact Hp0|].
  set (cn := get_or d (py "detected_category") (JStr (py "unknown"))).
  destruct cn as [| | | |n| |] eqn:Ecn;
    try (left; exact Hs0).
  assert (Hn : text_ok (lower n) = true).
  { apply lower_text_ok.
    apply (decoded_category_text_ok raw (JDict d) n Hraw Hload).
    cbn [py_get].
    fold (get_or d (py "detected_category") (JStr (py "unknown"))).
    fold cn. rewrite Ecn. reflexivity. }
  destruct (resolved_step w0 cats n (stored_plain w cats Hp Hs) Hs0 Hn)
    as (_ & Hres & _).
  unfold resolved in Hres.
  destruct (existsb _ cats); [left; exact Hres | right; exists n; exact Hres].
Qed.

End Survives.
End Keeps.

(** ** The same response again *)

Section Replay.
Context {B : Builtins}.
Hypothesis lower_idempotent : forall s : str, lower (lower s) = lower s.
Hypothesis lower_text_ok :
  forall s : str, text_ok s = true -> text_ok (lower s) = true.
Local Open Scope Z_scope.

(** After a call that returned, the same call scores 1 and writes
    nothing. *)
Lemma add_category_again (n : str) (w w' : world) (c : str) (score : Z) :
  plain_registry w -> text_ok (lower n) = true ->
  add_category (JStr n) w = (Return (c, score), w') ->
  forall w2, same_file w' w2 ->
    add_category (JStr n) w2 = (Return (c, 1), w2).
Proof.
  intros Hp Hn Hrun w2 Hsame.
  destruct (add_category_cases _ _ _ _ _ Hrun)
    as (n' & [= <-] & -> & [[-> ->] | (-> & cats & Hs & Hnew & ->)]).
  - destruct (framed_add_category (JStr n) w w2 Hsame)
      as (r & f & l & E1 & E2).
    rewrite Hrun in E1. injection E1 as <- _.
    destruct (add_category_cases _ _ _ _ _ E2)
      as (_ & _ & _ & [[_ Hw] | (Hbad & _)]); [|discriminate].
    rewrite E2, Hw. reflexivity.
  - assert (Hok : Forall (fun s => text_ok s = true) (cats ++ [lower n])).
    { apply Forall_app. split; [exact (stored_plain w cats Hp Hs)|].
      constructor; [exact Hn | constructor]. }
    assert (Hs2 : stored w2 (cats ++ [lower n])).
    { apply (stored_same_file _ _ _ Hsame).
      apply (stored_written _ _ Hok). }
    rewrite (add_category_stored w2 _ n Hs2).
    rewrite existsb_app. cbn [existsb].
    rewrite lower_idempotent, str_eqb_refl, orb_true_r. reflexivity.
Qed.

(** X13. A response is scored with the bonus of a new category at most
    once.  When [process_ai_response] returns on a response of plain text,
    interpreting the same response again returns as well and writes
    nothing; what it returns is the sentinel or a total of 1 plus the
    detail score.  When the first call returned something else than the
    sentinel, the second returns the same category, detail score and name,
    with the total 1 plus the detail score: the same total, or 9 less when
    the first call scored a new category. *)
Theorem replayed_response_scores_no_bonus
    (raw : str) (w w1 : world) (total detail : Z) (category name : str) :
  plain_text raw = true -> plain_registry w ->
  process_ai_response raw w = (Return (total, category, detail, name), w1) ->
  exists total' category' detail' name',
    process_ai_response raw w1
    = (Return (total', category', detail', name'),
       record (Interpreted raw) w1)
    /\ ((total', category', detail', name') = sentinel
        \/ total' = 1 + detail')
    /\ ((total, category, detail, name) <> sentinel ->
        (total', category', detail', name')
        = (1 + detail, category, detail, name)
        /\ (total = 1 + detail \/ total = 10 + detail)).
Proof.
  intros Hraw Hp Hrun.
  rewrite process_ai_response_eq in Hrun. rewrite process_ai_response_eq.
  set (w0 := record (Interpreted raw) w) in *.
  set (w2 := record (Interpreted raw) w1).
  set (t := (total, category, detail, name)) in *.
  assert (Hsent : t = sentinel ->
            exists total' category' detail' name',
              (Return sentinel, w2)
              = (Return (total', category', detail', name'), w2)
              /\ ((total', category', detail', name') = sentinel
                  \/ total' = 1 + detail')
              /\ (t <> sentinel ->
                  (total', category', detail', name')
                  = (1 + detail, category, detail, name)
                  /\ (total = 1 + detail \/ total = 10 + detail))).
  { intros Ht. exists 0, (py "unknown"), 0, (py "unknown").
    split; [reflexivity|]. split; [left; reflexivity|].
    intros Hne; contradiction. }
  assert (Hfb : forall e (w3 : world),
             (if caught_by [JSONDecodeError; KeyError; ValueError] e
              then (fallback raw, w3) else (@Raise score_tuple e, w3))
             = (Return t, w1) ->
             caught_by [JSONDecodeError; KeyError; ValueError] e = true
             /\ fallback raw = Return sentinel
             /\ t = sentinel /\ w1 = w3).
  { intros e w3. destruct (caught_by _ e); [|discriminate].
    intros [= Hf <-]. pose proof (fallback_returns _ _ Hf) as Ht.
    rewrite Ht in Hf. auto. }
  destruct (process_body_cases raw)
    as [H0 | [[e H0] | (d & [Hopen Hload] & H0)]];
    rewrite H0 in Hrun; rewrite H0.
  - apply Hsent. congruence.
  - destruct (Hfb _ _ Hrun) as (Hc & Hf & Ht & _). rewrite Hc, Hf.
    exact (Hsent Ht).
  - rewrite score_analysis_object in Hrun. rewrite score_analysis_object.
    set (cn := get_or d (py "detected_category") (JStr (py "unknown"))) in *.
    set (title := py_str (get_or d (py "Name") (JStr (py "unknown")))) in *.
    pose proof (add_category_outcome cn w0) as Ho.
    destruct (add_category cn w0) as [[[c sc]|e] w0'] eqn:Ea;
      cbn [fst snd] in Hrun.
    2:{ destruct Ho as [-> _].
        destruct (Hfb _ _ Hrun) as (Hc & Hf & Ht & Hw1).
        assert (Hsame : same_file w0 w2) by (unfold w2; rewrite Hw1; reflexivity).
        destruct (framed_add_category cn w0 w2 Hsame) as (r & f & l & E1 & E2).
        rewrite Ea in E1. injection E1 as <- _.
        pose proof (add_category_outcome cn w2) as Ho2. rewrite E2 in Ho2.
        destruct Ho2 as [Hw _]. rewrite E2, Hw. cbn [fst snd].
        rewrite Hc, Hf. exact (Hsent Ht). }
    assert (Hw1 : w1 = w0').
    { destruct (py_int _) as [dt|e].
      - cbv zeta in Hrun. destruct (print_score _ _ _ _) as [[]|e].
        + injection Hrun; auto.
        + exact (proj2 (proj2 (proj2 (Hfb _ _ Hrun)))).
      - exact (proj2 (proj2 (proj2 (Hfb _ _ Hrun)))). }
    subst w0'.
    assert (Hagain : add_category cn w2 = (Return (c, 1), w2)).
    { destruct (add_category_cases _ _ _ _ _ Ea) as (n & Hcn & _ & _).
      rewrite Hcn in *.
      apply (add_category_again n w0 w1 c sc); [exact Hp| |exact Ea|reflexivity].
      apply lower_text_ok.
      apply (decoded_category_text_ok raw (JDict d) n Hraw Hload).
      cbn [py_get]. fold (get_or d (py "detected_category") (JStr (py "unknown"))).
      fold cn. rewrite Hcn. reflexivity. }
    rewrite Hagain. cbn [fst snd].
    destruct (py_int _) as [dt|e].
    + cbv zeta in *.
      destruct (print_score (sc + dt) c dt title) as [[]|e] eqn:Ep1.
      * unfold t in *. injection Hrun as <- <- <- <-.
        rewrite (print_score_replay sc c dt title Ho Ep1).
        exists (1 + dt), c, dt, title.
        split; [reflexivity|]. split; [right; reflexivity|].
        intros _. split; [reflexivity|].
        destruct Ho as [-> | ->]; auto.
      * destruct (Hfb _ _ Hrun) as (Hc & Hf & Ht & _).
        destruct (print_score (1 + dt) c dt title) as [[]|e'] eqn:Ep2.
        -- exists (1 + dt), c, dt, title.
           split; [reflexivity|]. split; [right; reflexivity|].
           intros Hne; contradiction.
        -- destruct (print_score_raises _ _ _ _ _ Ep2) as [-> | ->];
             rewrite ?caught_ValueError, ?caught_UnicodeEncodeError, Hf;
             exact (Hsent Ht).
    + destruct (Hfb _ _ Hrun) as (Hc & Hf & Ht & _). rewrite Hc, Hf.
      exact (Hsent Ht).
Qed.

End Replay.

(** ** The index after the last closing brace *)

Section Indices.
Local Open Scope Z_scope.

Lemma rfind_from_below (ch : N) (s : str) :
  forall i last, last < i + Z.of_nat (length s) ->
  rfind_from ch s i last < i + Z.of_nat (length s).
Proof.
  induction s as [|c s IH]; intros i last H; cbn [rfind_from length] in *.
  - exact H.
  - specialize (IH (i + 1) (if N.eqb c ch then i else last)).
    destruct (N.eqb c ch); lia.
Qed.

(** X9. [end_idx], the index after the last closing brace, lies between 0
    and the length of the text; it is never -1, so the second half of the
    test [start_idx != -1 and end_idx != -1] always holds. *)
Theorem closing_index_test_is_vacuous (s : str) :
  (rfind 125%N s + 1 =? -1) = false
  /\ 0 <= rfind 125%N s + 1 <= Z.of_nat (length s).
Proof.
  pose proof (rfind_from_lower_bound 125%N s 0 (-1)) as Hlo.
  pose proof (rfind_from_below 125%N s 0 (-1)) as Hhi.
  unfold rfind. split; [apply Z.eqb_neq; lia | lia].
Qed.

End Indices.

(** ** The detail count as a float or as a string *)

Section Floats.
Local Open Scope Z_scope.

Lemma round_half_even_exact (a b : Z) :
  0 < b -> round_half_even (a * b) b = a.
Proof.
  intros Hb. unfold round_half_even.
  rewrite Z.div_mul, Z.mod_mul by lia.
  assert (H : (2 * 0 ?= b) = Lt) by (apply Z.compare_lt_iff; lia).
  rewrite H. reflexivity.
Qed.

Lemma double_trunc_integral (m : N) (e n : Z) :
  0 <= n < 2 ^ 53 ->
  n * 10 ^ Z.max 0 (- e) = Z.of_N m * 10 ^ Z.max 0 e ->
  double_trunc m e = Some n.
Proof.
  intros Hn Hval. unfold double_trunc.
  set (p := if 0 <=? e then Z.of_N m * 10 ^ e else Z.of_N m).
  set (q := if 0 <=? e then 1 else 10 ^ (- e)).
  assert (Hq : 0 < q).
  { unfold q. destruct (Z.leb_spec 0 e); [lia|]. apply Z.pow_pos_nonneg; lia. }
  assert (Hp : p = n * q).
  { unfold p, q. destruct (Z.leb_spec 0 e).
    - rewrite Z.max_l in Hval by lia. rewrite Z.max_r in Hval by lia.
      cbn in Hval. lia.
    - rewrite Z.max_r in Hval by lia. rewrite Z.max_l in Hval by lia.
      cbn in Hval. lia. }
  clearbody p q. subst p.
  destruct (Z.eqb_spec (n * q) 0) as [H0|H0].
  { f_equal. nia. }
  assert (Hn1 : 1 <= n) by nia.
  set (k0 := Z.log2 (n * q) - Z.log2 q).
  assert (Hk0 : 0 <= k0).
  { unfold k0. assert (Z.log2 q <= Z.log2 (n * q)); [|lia].
    apply Z.log2_le_mono. nia. }
  assert (Hk0' : k0 <= Z.log2 n + 1).
  { unfold k0. pose proof (Z.log2_mul_above n q). lia. }
  assert (Hlog : Z.log2 n < 53) by (apply Z.log2_lt_pow2; lia).
  destruct (Z.leb_spec 0 k0) as [_|]; [|lia].
  set (k := if q * 2 ^ k0 <=? n * q then k0 else k0 - 1).
  assert (Hk : -1 <= k <= 52).
  { unfold k. destruct (Z.leb_spec (q * 2 ^ k0) (n * q)) as [Hle|Hgt]; [|lia].
    split; [lia|].
    assert (H2 : 2 ^ k0 <= n) by nia.
    destruct (Z.le_gt_cases k0 52) as [|Hbig]; [assumption|].
    assert (2 ^ 53 <= 2 ^ k0) by (apply Z.pow_le_mono_r; lia). lia. }
  clearbody k.
  destruct (Z.ltb_spec k (-1)); [lia|].
  destruct (Z.leb_spec 1024 k); [lia|].
  destruct (Z.leb_spec 0 (k - 52)) as [Hu|Hu].
  - assert (k = 52) by lia. subst k.
    change (52 - 52) with 0. change (2 ^ 0) with 1.
    rewrite Z.mul_1_r, round_half_even_exact by exact Hq.
    change (52 =? 1023) with false. cbn [andb]. f_equal. lia.
  - assert (Hpos : 0 < 2 ^ (- (k - 52))) by (apply Z.pow_pos_nonneg; lia).
    replace (n * q * 2 ^ (- (k - 52))) with (n * 2 ^ (- (k - 52)) * q) by ring.
    rewrite round_half_even_exact by exact Hq.
    destruct ((k =? 1023) && _)%bool eqn:E.
    { apply andb_true_iff in E as [E _]. apply Z.eqb_eq in E. lia. }
    f_equal. apply Z.div_mul. lia.
Qed.

End Floats.

Section Counts.
Context {B : Builtins}.
Local Open Scope Z_scope.

(** X14. A [detail_count] written as a float literal with an integral
    value [n] below 2^53, such as [4.0] or [1e2], gives the detail score
    [n], negated for a negative literal: nothing is lost on the way
    through [float] and [int()]. *)
Theorem integral_float_counts_exactly (neg : bool) (m : N) (e n : Z) :
  0 <= n < 2 ^ 53 ->
  n * 10 ^ Z.max 0 (- e) = Z.of_N m * 10 ^ Z.max 0 e ->
  py_int (JFloat (FDec neg m e)) = Return (if neg then - n else n).
Proof.
  intros Hn Hval. cbn [py_int int_of_float].
  rewrite (double_trunc_integral m e n Hn Hval). reflexivity.
Qed.

End Counts.

Section Digits.
Context {B : Builtins}.

Lemma is_digit_range (c : N) : is_digit c = true -> (48 <= c <= 57)%N.
Proof.
  unfold is_digit. rewrite andb_true_iff, !N.leb_le. tauto.
Qed.

Lemma to_ascii_decimal_digits (ds : str) :
  forallb is_digit ds = true -> to_ascii_decimal ds = Some ds.
Proof.
  induction ds as [|c ds IH]; [reflexivity|].
  cbn [forallb to_ascii_decimal]. rewrite andb_true_iff. intros [Hc Hds].
  apply is_digit_range in Hc.
  destruct (N.ltb_spec c 128); [|lia].
  rewrite (IH Hds). reflexivity.
Qed.

Lemma int_digits_all (ds : str) :
  forall (acc : Z) (after_digit : bool),
  forallb is_digit ds = true ->
  ds <> [] \/ after_digit = true ->
  int_digits ds acc after_digit
  = Some (fold_left (fun a c => a * 10 + Z.of_N (c - 48))%Z ds acc, []).
Proof.
  induction ds as [|c ds IH]; intros acc b Hd Hne.
  - destruct Hne as [Hne | ->]; [contradiction | reflexivity].
  - cbn [forallb] in Hd. apply andb_true_iff in Hd as [Hc Hds].
    cbn [int_digits fold_left]. rewrite Hc.
    apply IH; [exact Hds | right; reflexivity].
Qed.

Lemma digits_value_Z (ds : str) (acc : N) :
  Z.of_N (fold_left (fun a d => a * 10 + d)%N
            (map (fun c => c - 48)%N ds) acc)
  = fold_left (fun a c => a * 10 + Z.of_N (c - 48))%Z ds (Z.of_N acc).
Proof.
  revert acc. induction ds as [|c ds IH]; intros acc; [reflexivity|].
  cbn [map fold_left]. rewrite IH. f_equal. lia.
Qed.

Lemma filter_all {A} (P : A -> bool) (l : list A) :
  forallb P l = true -> filter P l = l.
Proof.
  induction l as [|x l IH]; [reflexivity|].
  cbn [forallb filter]. rewrite andb_true_iff. intros [Hx Hl].
  rewrite Hx, (IH Hl). reflexivity.
Qed.

(** X15. A [detail_count] written as a string of ASCII digits, at most
    4300 of them (the interpreter's default bound), gives the number the
    digits spell, as the same digits without quotes do. *)
Theorem quoted_count_is_read_as_number (ds : str) :
  ds <> [] -> (length ds <= 4300)%nat -> forallb is_digit ds = true ->
  py_int (JStr ds)
  = Return (Z.of_N (digits_value (map (fun c => c - 48)%N ds))).
Proof.
  intros Hne Hlen Hd. cbn [py_int]. unfold int_of_str.
  rewrite (to_ascii_decimal_digits ds Hd).
  destruct ds as [|c ds]; [contradiction|].
  assert (Hc : (48 <= c <= 57)%N).
  { cbn [forallb] in Hd. apply andb_true_iff in Hd as [Hc _].
    exact (is_digit_range c Hc). }
  assert (Hsp : c_isspace c = false).
  { unfold c_isspace.
    destruct (N.leb_spec 9 c), (N.leb_spec c 13), (N.eqb_spec c 32);
      cbn; try reflexivity; lia. }
  cbn [skip_c_space]. rewrite Hsp.
  destruct (N.eqb_spec c 45); [lia|]. destruct (N.eqb_spec c 43); [lia|].
  rewrite (int_digits_all (c :: ds) 0%Z false Hd) by (left; discriminate).
  cbn [skip_c_space]. rewrite (filter_all _ _ Hd).
  replace (Z.of_nat (length (c :: ds)) <=? max_str_digits)%Z with true
    by (symmetry; apply Z.leb_le; unfold max_str_digits; lia).
  unfold digits_value.
  rewrite digits_value_Z. reflexivity.
Qed.

End Digits.

(** ** The request and the world of the pipeline *)

Section Base64Facts.
Local Open Scope N_scope.

Ltac b64_cases :=
  unfold b64_char;
  repeat match goal with
    | |- context [?a <? ?b] => destruct (N.ltb_spec a b)
    | |- context [?a =? ?b] => destruct (N.eqb_spec a b)
    end.

Lemma b64_char_inj (a b : N) :
  a < 64 -> b < 64 -> b64_char a = b64_char b -> a = b.
Proof. intros Ha Hb. b64_cases; lia. Qed.

Lemma b64_char_not_pad (a : N) : b64_char a <> 61.
Proof. b64_cases; lia. Qed.

Lemma b64_char_alphabet (a : N) : is_b64_char (b64_char a) = true.
Proof.
  unfold is_b64_char.
  assert (H : (65 <= b64_char a <= 90) \/ (97 <= b64_char a <= 122)
              \/ (48 <= b64_char a <= 57) \/ b64_char a = 43
              \/ b64_char a = 47).
  { b64_cases; lia. }
  destruct H as [[H1 H2] | [[H1 H2] | [[H1 H2] | [H | H]]]].
  - apply N.leb_le in H1, H2. rewrite H1, H2. reflexivity.
  - apply N.leb_le in H1, H2. rewrite H1, H2, !orb_true_r. reflexivity.
  - apply N.leb_le in H1, H2. rewrite H1, H2, !orb_true_r. reflexivity.
  - rewrite H. reflexivity.
  - rewrite H. reflexivity.
Qed.

Lemma sextets_bound (a1 a2 a3 : N) :
  a1 < 256 -> a2 < 256 -> a3 < 256 ->
  a1 / 4 < 64 /\ a1 mod 4 * 16 + a2 / 16 < 64
  /\ a2 mod 16 * 4 + a3 / 64 < 64 /\ a3 mod 64 < 64.
Proof.
  intros A1 A2 A3.
  pose proof (N.mod_lt a1 4). pose proof (N.mod_lt a2 16).
  pose proof (N.mod_lt a3 64).
  assert (a1 / 4 < 64) by (apply N.Div0.div_lt_upper_bound; lia).
  assert (a2 / 16 < 16) by (apply N.Div0.div_lt_upper_bound; lia).
  assert (a3 / 64 < 4) by (apply N.Div0.div_lt_upper_bound; lia).
  lia.
Qed.

(** Three bytes are determined by the four characters that stand for
    them. *)
Lemma b64_group_inj (a1 a2 a3 b1 b2 b3 : N) :
  a1 < 256 -> a2 < 256 -> a3 < 256 -> b1 < 256 -> b2 < 256 -> b3 < 256 ->
  b64_char (a1 / 4) = b64_char (b1 / 4) ->
  b64_char (a1 mod 4 * 16 + a2 / 16) = b64_char (b1 mod 4 * 16 + b2 / 16) ->
  b64_char (a2 mod 16 * 4 + a3 / 64) = b64_char (b2 mod 16 * 4 + b3 / 64) ->
  b64_char (a3 mod 64) = b64_char (b3 mod 64) ->
  a1 = b1 /\ a2 = b2 /\ a3 = b3.
Proof.
  intros A1 A2 A3 B1 B2 B3 H1 H2 H3 H4.
  destruct (sextets_bound a1 a2 a3 A1 A2 A3) as (Sa1 & Sa2 & Sa3 & Sa4).
  destruct (sextets_bound b1 b2 b3 B1 B2 B3) as (Sb1 & Sb2 & Sb3 & Sb4).
  apply b64_char_inj in H1; [|assumption ..].
  apply b64_char_inj in H2; [|assumption ..].
  apply b64_char_inj in H3; [|assumption ..].
  apply b64_char_inj in H4; [|assumption ..].
  clear Sa1 Sa2 Sa3 Sa4 Sb1 Sb2 Sb3 Sb4.
  pose proof (N.div_mod a1 4). pose proof (N.div_mod a2 16).
  pose proof (N.div_mod a3 64). pose proof (N.div_mod b1 4).
  pose proof (N.div_mod b2 16). pose proof (N.div_mod b3 64).
  pose proof (N.mod_lt a1 4). pose proof (N.mod_lt a2 16).
  pose proof (N.mod_lt a3 64). pose proof (N.mod_lt b1 4).
  pose proof (N.mod_lt b2 16). pose proof (N.mod_lt b3 64).
  assert (a2 / 16 < 16) by (apply N.Div0.div_lt_upper_bound; lia).
  assert (b2 / 16 < 16) by (apply N.Div0.div_lt_upper_bound; lia).
  assert (a3 / 64 < 4) by (apply N.Div0.div_lt_upper_bound; lia).
  assert (b3 / 64 < 4) by (apply N.Div0.div_lt_upper_bound; lia).
  set (q1 := a1 / 4) in *. set (r1 := a1 mod 4) in *.
  set (q2 := a2 / 16) in *. set (r2 := a2 mod 16) in *.
  set (q3 := a3 / 64) in *. set (r3 := a3 mod 64) in *.
  set (u1 := b1 / 4) in *. set (v1 := b1 mod 4) in *.
  set (u2 := b2 / 16) in *. set (v2 := b2 mod 16) in *.
  set (u3 := b3 / 64) in *. set (v3 := b3 mod 64) in *.
  clearbody q1 r1 q2 r2 q3 r3 u1 v1 u2 v2 u3 v3.
  lia.
Qed.

Ltac byte_bounds :=
  repeat match goal with
    | H : Forall _ (_ :: _) |- _ =>
        let Hb := fresh "Hbyte" in
        let Hf := fresh "Hrest" in
        apply Forall_cons_iff in H as [Hb Hf]
    end.

Lemma b64encode_inj_upto (n : nat) :
  forall a b : list N,
  (length a <= n)%nat ->
  Forall (fun x => x < 256) a -> Forall (fun x => x < 256) b ->
  b64encode a = b64encode b -> a = b.
Proof.
  induction n as [|n IH]; intros a b Hlen Ha Hb.
  - destruct a; [|cbn in Hlen; lia].
    destruct b as [|b1 [|b2 [|b3 rb]]]; [reflexivity | discriminate ..].
  - destruct a as [|a1 [|a2 [|a3 ra]]], b as [|b1 [|b2 [|b3 rb]]];
      cbn [b64encode app]; intros E; try discriminate; try reflexivity;
      byte_bounds; injection E; clear E; intros;
      try match goal with
        | H : 61 = b64_char _ |- _ =>
            exfalso; exact (b64_char_not_pad _ (eq_sym H))
        | H : b64_char _ = 61 |- _ => exfalso; exact (b64_char_not_pad _ H)
        end.
    + destruct (b64_group_inj a1 0 0 b1 0 0) as (-> & _ & _);
        try assumption; try lia; try reflexivity.
      cbn. rewrite !N.add_0_r. assumption.
    + destruct (b64_group_inj a1 a2 0 b1 b2 0) as (-> & -> & _);
        try assumption; try lia; try reflexivity.
      cbn. rewrite !N.add_0_r. assumption.
    + destruct (b64_group_inj a1 a2 a3 b1 b2 b3) as (-> & -> & ->);
        try assumption.
      do 3 f_equal.
      apply IH; try assumption. cbn [length] in Hlen. lia.
Qed.

(** X17. [base64.b64encode] turns [n] bytes into [4 * ceil(n / 3)]
    characters of the base64 alphabet and its padding, all of them ASCII:
    decoding the result as UTF-8 cannot fail. *)
Theorem images_are_sent_as_base64_text (data : list N) :
  forallb is_b64_char (b64encode data) = true
  /\ (length (b64encode data) = 4 * ((length data + 2) / 3))%nat.
Proof.
  assert (H : forall (n : nat) (d : list N), (length d <= n)%nat ->
              forallb is_b64_char (b64encode d) = true
              /\ (length (b64encode d) = 4 * ((length d + 2) / 3))%nat).
  { induction n as [|n IH]; intros d Hlen.
    - destruct d; [split; reflexivity | cbn in Hlen; lia].
    - destruct d as [|a1 [|a2 [|a3 r]]]; cbn [b64encode].
      + split; reflexivity.
      + cbn [forallb]. rewrite !b64_char_alphabet. split; reflexivity.
      + cbn [forallb]. rewrite !b64_char_alphabet. split; reflexivity.
      + destruct (IH r) as [H1 H2]; [cbn [length] in Hlen; lia|].
        cbn [app forallb]. rewrite !b64_char_alphabet, H1.
        split; [reflexivity|].
        cbn [length]. rewrite H2.
        replace (S (S (S (length r))) + 2)%nat
          with (length r + 2 + 1 * 3)%nat by lia.
        rewrite Nat.div_add by lia. lia. }
  exact (H (length data) data (le_n _)).
Qed.

End Base64Facts.

Section PipelineMore.
Context {B : Builtins}.
Variable system_prompt : str.
Variable E : env.

Lemma b64encode_inj (a b : list N) :
  Forall (fun x => x < 256)%N a -> Forall (fun x => x < 256)%N b ->
  b64encode a = b64encode b -> a = b.
Proof. exact (b64encode_inj_upto (length a) a b (le_n _)). Qed.

(** X16. The request determines the images: two pairs of images, given as
    bytes, that lead to the same chat request are the same pair. *)
Theorem request_determines_the_images (b1 d1 b2 d2 : list N) :
  Forall (fun x => x < 256)%N (b1 ++ d1 ++ b2 ++ d2) ->
  chat_request system_prompt b1 d1 = chat_request system_prompt b2 d2 ->
  b1 = b2 /\ d1 = d2.
Proof.
  intros Hbytes Hreq.
  apply Forall_app in Hbytes as [Hb1 Hbytes].
  apply Forall_app in Hbytes as [Hd1 Hbytes].
  apply Forall_app in Hbytes as [Hb2 Hd2].
  apply (f_equal req_images) in Hreq. cbn [req_images chat_request] in Hreq.
  injection Hreq as Hb Hd.
  split; apply b64encode_inj; assumption.
Qed.

(** X18. [analyze_drawing] touches the world only by interpreting the
    first choice of the response: either the world is as it was, or both
    images were read, the service answered with a first choice [text] that
    is not blank, and the world is the one a single
    [process_ai_response text] leaves, with its log entry and at most one
    rewrite of the registry. *)
Theorem analysis_changes_the_world_through_one_response
    (base_image_path drawing_path : str) (w : world) :
  let w' := snd (analyze_drawing system_prompt E
                   base_image_path drawing_path w) in
  w' = w
  \/ exists base_image drawing_image text rest,
       read_binary E base_image_path = Return base_image
       /\ read_binary E drawing_path = Return drawing_image
       /\ chat_create E (chat_request system_prompt base_image drawing_image)
          = Return (Some text :: rest)
       /\ is_blank text = false
       /\ at_most_one_write (record (Interpreted text) w) w'.
Proof.
  cbv zeta. unfold analyze_drawing. rewrite snd_try_except.
  unfold bind, lift.
  destruct (read_binary E base_image_path) as [base|e] eqn:Eb;
    [|left; reflexivity].
  destruct (read_binary E drawing_path) as [drawing|e] eqn:Ed;
    [|left; reflexivity].
  destruct (chat_create E _) as [[|[text|] rest]|e] eqn:Ec;
    try (left; reflexivity).
  destruct (is_blank text) eqn:Ebl; [left; reflexivity|].
  destruct (py_print _) as [[]|e]; [|left; reflexivity].
  right. exists base, drawing, text, rest.
  repeat (split; [assumption || reflexivity|]).
  rewrite process_ai_response_world.
  apply process_body_writes.
Qed.

End PipelineMore.

(** ** A session *)

Section SessionFacts.
Context {B : Builtins}.
Variable system_prompt : str.
Variable E : env.
Variable path_exists : str -> bool.

Lemma ask_path_found (folder : str) (stdin : list str) (full : str)
    (rest : list str) :
  ask_path path_exists folder stdin = Some (full, rest) ->
  exists skipped answer,
    stdin = skipped ++ answer :: rest
    /\ full = folder ++ answer
    /\ path_exists full = true
    /\ Forall (fun a => path_exists (folder ++ a) = false) skipped.
Proof.
  induction stdin as [|a stdin IH]; cbn [ask_path]; [discriminate|].
  destruct (path_exists (folder ++ a)) eqn:Ea.
  - intros [= <- <-]. exists [], a. auto.
  - intros H. destruct (IH H) as (skipped & answer & -> & Hf & He & Hs).
    exists (a :: skipped), answer. auto.
Qed.

Lemma ask_path_finds (folder : str) (skipped : list str) (answer : str)
    (rest : list str) :
  Forall (fun a => path_exists (folder ++ a) = false) skipped ->
  path_exists (folder ++ answer) = true ->
  ask_path path_exists folder (skipped ++ answer :: rest)
  = Some (folder ++ answer, rest).
Proof.
  intros Hs Ha. induction Hs as [|a skipped Hna _ IH]; cbn [app ask_path].
  - rewrite Ha. reflexivity.
  - rewrite Hna. exact IH.
Qed.

Lemma analyze_drawing_returns (base_image_path drawing_path : str)
    (w : world) :
  exists t w',
    analyze_drawing system_prompt E base_image_path drawing_path w
    = (Return t, w').
Proof.
  unfold analyze_drawing, try_except.
  match goal with |- context [match ?body w with _ => _ end] =>
    destruct (body w) as [[t|e] w'] end.
  - exists t, w'; reflexivity.
  - rewrite caught_by_Exception. exists sentinel, w'; reflexivity.
Qed.

(** X19. Up to the construction of the [DrawingScore], [Player_playing]
    fails in two ways only, both before anything is analysed: with the
    [ValueError] of [int()] when the second line is not an integer, none of
    the later lines being read; and with [EOFError] when the input ends
    before both paths are given.  The world is untouched in both cases. *)
Theorem session_fails_before_the_analysis (stdin : list str) (w : world) :
  match Player_playing system_prompt E path_exists stdin w with
  | (Finished _, _, _) => True
  | (Escaped e, rest, w') =>
      e = ValueError /\ w' = w
      /\ exists name age,
           stdin = name :: age :: rest /\ int_of_str age = Raise ValueError
  | (EOFError, rest, w') => rest = [] /\ w' = w
  end.
Proof.
  unfold Player_playing.
  destruct stdin as [|name [|age stdin2]]; [auto | auto |].
  destruct (int_of_str age) as [a|e] eqn:Eage.
  2:{ pose proof (int_of_str_raises _ _ Eage) as He. subst e.
      split; [reflexivity|]. split; [reflexivity|].
      exists name, age. split; [reflexivity | exact Eage]. }
  destruct (ask_path path_exists (py "./Images/Base/") stdin2)
    as [[base stdin3]|]; [|auto].
  destruct (ask_path path_exists (py "./Images/Drawing/") stdin3)
    as [[drawing stdin4]|]; [|auto].
  destruct (analyze_drawing_returns base drawing w) as ([[[s c] d] n] & w' & ->).
  exact I.
Qed.

(** X20. When [Player_playing] finishes, the first line is the player's
    name and the second one the age; the base image is the first following
    answer whose path under [./Images/Base/] exists, the drawing the first
    answer after it whose path under [./Images/Drawing/] exists, every
    answer before them naming a missing file; and the scores are those
    [analyze_drawing] returned for these two paths. *)
Theorem finished_session_analysed_existing_files
    (stdin rest : list str) (w w' : world) (r : DrawingScore) :
  Player_playing system_prompt E path_exists stdin w = (Finished r, rest, w') ->
  exists age skipped1 base skipped2 drawing,
    stdin = Player_name r :: age
              :: skipped1 ++ base :: skipped2 ++ drawing :: rest
    /\ int_of_str age = Return (Player_age r)
    /\ BaseImagePath r = py "./Images/Base/" ++ base
    /\ AnalyzingImagePath r = py "./Images/Drawing/" ++ drawing
    /\ path_exists (BaseImagePath r) = true
    /\ path_exists (AnalyzingImagePath r) = true
    /\ Forall (fun a => path_exists (py "./Images/Base/" ++ a) = false)
              skipped1
    /\ Forall (fun a => path_exists (py "./Images/Drawing/" ++ a) = false)
              skipped2
    /\ analyze_drawing system_prompt E (BaseImagePath r)
         (AnalyzingImagePath r) w
       = (Return (ArtScore r, ArtCategory r, ArtDetailScore r,
                  NameOfDrawing r), w').
Proof.
  unfold Player_playing.
  destruct stdin as [|name [|age stdin2]]; [discriminate | discriminate |].
  destruct (int_of_str age) as [a|e] eqn:Eage; [|discriminate].
  destruct (ask_path path_exists (py "./Images/Base/") stdin2)
    as [[base stdin3]|] eqn:Eb; [|discriminate].
  destruct (ask_path path_exists (py "./Images/Drawing/") stdin3)
    as [[drawing stdin4]|] eqn:Ed; [|discriminate].
  destruct (analyze_drawing system_prompt E base drawing w)
    as [[[[[s c] d] n]|e] w1] eqn:Ea; [|discriminate].
  intros [= <- <- <-]. cbn.
  destruct (ask_path_found _ _ _ _ Eb) as (sk1 & b & -> & -> & Hb & Hs1).
  destruct (ask_path_found _ _ _ _ Ed) as (sk2 & dr & -> & -> & Hd & Hs2).
  exists age, sk1, b, sk2, dr.
  repeat (split; [assumption || reflexivity|]). exact Ea.
Qed.

(** X21. Conversely: given a name, an age that [int()] accepts and, after
    any number of answers naming missing files, a base image and a drawing
    that exist, [Player_playing] reads exactly these lines and calls
    [DrawingScore] with the tuple [analyze_drawing] returns for the two
    paths; when pydantic takes these arguments as they are, the session
    finishes with this record. *)
Theorem session_finishes_on_valid_answers
    (name age : str) (skipped1 : list str) (base : str)
    (skipped2 : list str) (drawing : str) (rest : list str)
    (age_value : Z) (w w' : world)
    (score : Z) (category : str) (detail : Z) (title : str) :
  int_of_str age = Return age_value ->
  Forall (fun a => path_exists (py "./Images/Base/" ++ a) = false) skipped1 ->
  path_exists (py "./Images/Base/" ++ base) = true ->
  Forall (fun a => path_exists (py "./Images/Drawing/" ++ a) = false)
         skipped2 ->
  path_exists (py "./Images/Drawing/" ++ drawing) = true ->
  analyze_drawing system_prompt E (py "./Images/Base/" ++ base)
    (py "./Images/Drawing/" ++ drawing) w
  = (Return (score, category, detail, title), w') ->
  let r := {| Player_name := name;
              Player_age := age_value;
              ArtCategory := category;
              ArtDetailScore := detail;
              BaseImagePath := py "./Images/Base/" ++ base;
              AnalyzingImagePath := py "./Images/Drawing/" ++ drawing;
              ArtScore := score;
              NameOfDrawing := title |} in
  accepted_as_is r = true ->
  Player_playing system_prompt E path_exists
    (name :: age :: skipped1 ++ base :: skipped2 ++ drawing :: rest) w
  = (Finished r, rest, w').
Proof.
  intros Hage Hs1 Hb Hs2 Hd Ha r _.
  unfold Player_playing. rewrite Hage.
  rewrite (ask_path_finds _ _ _ _ Hs1 Hb).
  rewrite (ask_path_finds _ _ _ _ Hs2 Hd).
  rewrite Ha. reflexivity.
Qed.

End SessionFacts.


(** ** The scores of a session *)

Section SessionScore.
Context {B : Builtins}.
Variable system_prompt : str.
Variable E : env.
Variable path_exists : str -> bool.
Local Open Scope Z_scope.

Lemma process_ai_response_scored (raw : str) (w w' : world) (t : score_tuple) :
  process_ai_response raw w = (Return t, w') -> scored t.
Proof.
  rewrite process_ai_response_eq.
  set (w0 := record (Interpreted raw) w).
  assert (Hfb : forall e (w1 : world),
             (if caught_by [JSONDecodeError; KeyError; ValueError] e
              then (fallback raw, w1) else (@Raise score_tuple e, w1))
             = (Return t, w') -> scored t).
  { intros e w1. destruct (caught_by _ e); [|discriminate].
    intros [= Hf _]. rewrite (fallback_returns _ _ Hf). left; reflexivity. }
  destruct (process_body_cases raw) as [H | [[e H] | (d & _ & H)]]; rewrite H.
  - intros [= <- _]. left; reflexivity.
  - apply Hfb.
  - rewrite score_analysis_object.
    destruct (add_category _ w0) as [[[c sc]|e] w1] eqn:Ea; cbn [fst snd];
      [|apply Hfb].
    destruct (add_category_cases _ _ _ _ _ Ea) as (n & _ & -> & Hsc).
    destruct (py_int _) as [dt|e]; [|apply Hfb].
    cbv zeta. destruct (print_score _ _ _ _) as [[]|e]; [|apply Hfb].
    intros [= <- _]. right. split.
    + destruct Hsc as [[-> _] | [-> _]]; [left | right]; reflexivity.
    + exists n; reflexivity.
Qed.

Lemma analyze_drawing_scored (base_image_path drawing_path : str)
    (w w' : world) (t : score_tuple) :
  analyze_drawing system_prompt E base_image_path drawing_path w
  = (Return t, w') ->
  scored t.
Proof.
  unfold analyze_drawing, try_except, bind, lift.
  destruct (read_binary E base_image_path) as [base|e];
    [|rewrite caught_by_Exception; intros [= <- _]; left; reflexivity].
  destruct (read_binary E drawing_path) as [drawing|e];
    [|rewrite caught_by_Exception; intros [= <- _]; left; reflexivity].
  destruct (chat_create E _) as [[|[text|] rest]|e];
    try (rewrite caught_by_Exception);
    try (intros [= <- _]; left; reflexivity).
  destruct (is_blank text); [intros [= <- _]; left; reflexivity|].
  destruct (py_print _) as [[]|e];
    [|rewrite caught_by_Exception; intros [= <- _]; left; reflexivity].
  destruct (process_ai_response text w) as [[t'|e] w1] eqn:Ep.
  - intros [= <- _]. exact (process_ai_response_scored _ _ _ _ Ep).
  - rewrite caught_by_Exception. intros [= <- _]. left; reflexivity.
Qed.

(** X22. Whatever the answers, the service and the registry, the scores of
    a finished session are the sentinel's, or the total is the detail
    score plus 1 or plus 10 and the category is a lower-cased string. *)
Theorem finished_session_score
    (stdin rest : list str) (w w' : world) (r : DrawingScore) :
  Player_playing system_prompt E path_exists stdin w = (Finished r, rest, w') ->
  (ArtScore r = 0 /\ ArtCategory r = py "unknown"
   /\ ArtDetailScore r = 0 /\ NameOfDrawing r = py "unknown")
  \/ ((ArtScore r = 1 + ArtDetailScore r \/ ArtScore r = 10 + ArtDetailScore r)
      /\ exists name, ArtCategory r = lower name).
Proof.
  unfold Player_playing.
  destruct stdin as [|name [|age stdin2]]; [discriminate | discriminate |].
  destruct (int_of_str age) as [a|e]; [|discriminate].
  destruct (ask_path path_exists _ stdin2) as [[base stdin3]|];
    [|discriminate].
  destruct (ask_path path_exists _ stdin3) as [[drawing stdin4]|];
    [|discriminate].
  destruct (analyze_drawing system_prompt E base drawing w)
    as [[[[[s c] d] n]|e] w1] eqn:Ea; [|discriminate].
  intros [= <- _ _]. cbn.
  destruct (analyze_drawing_scored _ _ _ _ _ Ea) as [Hs | Hs].
  - left. injection Hs as -> -> -> ->. auto.
  - right. exact Hs.
Qed.

End SessionScore.

(* ================================================================== *)
(** * The theorems at concrete inputs *)
(* ================================================================== *)


Lemma ascii_lower_idempotent (s : str) :
  lower (Builtins := ascii_builtins) (lower (Builtins := ascii_builtins) s)
  = lower (Builtins := ascii_builtins) s.
Proof.
  cbn [lower ascii_builtins]. rewrite map_map. apply map_ext.
  intros c. unfold ascii_lower_char.
  destruct (N.leb 65 c && N.leb c 90)%bool eqn:E; [|rewrite E; reflexivity].
  apply andb_true_iff in E as [E1 E2].
  apply N.leb_le in E1, E2.
  destruct (N.leb_spec (c + 32) 90); [lia|].
  rewrite andb_false_r. reflexivity.
Qed.

Lemma ascii_lower_char_high (c : N) :
  is_high_surrogate (ascii_lower_char c) = is_high_surrogate c.
Proof.
  unfold ascii_lower_char, is_high_surrogate.
  destruct (N.leb 65 c && N.leb c 90)%bool eqn:E; [|reflexivity].
  apply andb_true_iff in E as [E1 E2]. apply N.leb_le in E1, E2.
  destruct (N.leb_spec 55296 (c + 32)); [lia|].
  destruct (N.leb_spec 55296 c); [lia|]. reflexivity.
Qed.

Lemma ascii_lower_char_low (c : N) :
  is_low_surrogate (ascii_lower_char c) = is_low_surrogate c.
Proof.
  unfold ascii_lower_char, is_low_surrogate.
  destruct (N.leb 65 c && N.leb c 90)%bool eqn:E; [|reflexivity].
  apply andb_true_iff in E as [E1 E2]. apply N.leb_le in E1, E2.
  destruct (N.leb_spec 56320 (c + 32)); [lia|].
  destruct (N.leb_spec 56320 c); [lia|]. reflexivity.
Qed.

Lemma ascii_lower_text_ok (s : str) :
  text_ok s = true -> text_ok (lower (Builtins := ascii_builtins) s) = true.
Proof.
  cbn [lower ascii_builtins]. unfold text_ok.
  rewrite !andb_true_iff. intros [Hr Hp]. split.
  - rewrite forallb_forall in *. intros x Hx.
    apply in_map_iff in Hx as (c & <- & Hc).
    specialize (Hr c Hc). apply N.leb_le in Hr. apply N.leb_le.
    unfold ascii_lower_char.
    destruct (N.leb 65 c && N.leb c 90)%bool eqn:E; [|exact Hr].
    apply andb_true_iff in E as [E1 E2]. apply N.leb_le in E2. lia.
  - clear Hr. induction s as [|a s IH]; [reflexivity|].
    destruct s as [|b t]; [reflexivity|].
    change (pair_free (a :: b :: t))
      with (negb (is_high_surrogate a && is_low_surrogate b)
            && pair_free (b :: t))%bool in Hp.
    apply andb_true_iff in Hp as [H1 H2].
    change (map ascii_lower_char (a :: b :: t))
      with (ascii_lower_char a :: ascii_lower_char b :: map ascii_lower_char t).
    change (pair_free (ascii_lower_char a :: ascii_lower_char b
                         :: map ascii_lower_char t))
      with (negb (is_high_surrogate (ascii_lower_char a)
                  && is_low_surrogate (ascii_lower_char b))
            && pair_free (map ascii_lower_char (b :: t)))%bool.
    rewrite ascii_lower_char_high, ascii_lower_char_low, H1.
    exact (IH H2).
Qed.

Lemma blank_response_short_circuits_witness :
  analyze_drawing (B := ascii_builtins) (py "rubric") blank_env
    (py "base.png") (py "drawing.png") empty_world
  = (Return sentinel, empty_world).
Proof.
  apply (blank_response_short_circuits (B := ascii_builtins) (py "rubric")
           blank_env (py "base.png") (py "drawing.png") empty_world
           [137; 80; 78; 71]%N [137; 80; 78; 71]%N (Some (py "   ")) []);
    reflexivity.
Defined.

Lemma analyze_drawing_catches_everything_witness :
  read_binary no_files_env (py "base.png") = Raise FileNotFoundError
  /\ analyze_drawing (B := ascii_builtins) (py "rubric") no_files_env
       (py "base.png") (py "drawing.png") empty_world
     = (Return sentinel, empty_world).
Proof.
  split; [reflexivity|].
  apply (proj1 (proj2 (analyze_drawing_catches_everything
                         (B := ascii_builtins) (py "rubric") no_files_env
                         (py "base.png") (py "drawing.png") empty_world))
           FileNotFoundError).
  reflexivity.
Defined.

Lemma registry_round_trip_witness :
  let cats := [py "landscape"; py "portrait"] in
  let w' := snd (write_registry (map JStr cats) empty_world) in
  Forall (fun s => text_ok s = true) cats
  /\ read_categories (B := ascii_builtins) w'
     = (Return (JList (map JStr cats)), w').
Proof.
  intros cats w'.
  assert (H : Forall (fun s => text_ok s = true) cats)
    by (repeat constructor).
  split; [exact H|].
  exact (proj2 (proj2 (registry_round_trip (B := ascii_builtins) cats
                         empty_world H))).
Defined.

Lemma first_call_scores_ten_later_calls_one_witness :
  let w1 := snd (add_category (B := ascii_builtins)
                   (JStr (py "Landscape")) empty_world) in
  plain_registry empty_world
  /\ stored (B := ascii_builtins) empty_world []
  /\ text_ok (lower (Builtins := ascii_builtins) (py "Landscape")) = true
  /\ add_category (B := ascii_builtins) (JStr (py "Landscape")) empty_world
     = (Return (py "landscape", 10%Z), w1)
  /\ add_category (B := ascii_builtins) (JStr (py "LANDSCAPE")) w1
     = (Return (py "landscape", 1%Z), w1).
Proof.
  intros w1.
  assert (Hs : stored (B := ascii_builtins) empty_world []) by reflexivity.
  assert (Ht : text_ok (lower (Builtins := ascii_builtins) (py "Landscape"))
               = true) by reflexivity.
  split; [exact I|]. split; [exact Hs|]. split; [exact Ht|].
  pose proof (first_call_scores_ten_later_calls_one (B := ascii_builtins)
                ascii_lower_idempotent empty_world [] (py "Landscape")
                I Hs Ht (fun c (H : In c []) => False_ind _ H))
    as (Hfirst & _ & _ & _ & Hlater).
  split; [exact Hfirst|].
  exact (Hlater [] (py "LANDSCAPE") (Forall_nil _) eq_refl).
Defined.

Lemma sun_picture_scores_14_then_5_witness :
  let w1 := snd (process_ai_response (B := ascii_builtins)
                   sun_picture empty_world) in
  plain_registry empty_world
  /\ stored (B := ascii_builtins) empty_world []
  /\ process_ai_response (B := ascii_builtins) sun_picture empty_world
     = (Return (14%Z, py "landscape", 4%Z, py "Sun Picture"), w1)
  /\ process_ai_response (B := ascii_builtins) sun_picture w1
     = (Return (5%Z, py "landscape", 4%Z, py "Sun Picture"),
        record (Interpreted sun_picture) w1).
Proof.
  intros w1.
  assert (Hs : stored (B := ascii_builtins) empty_world []) by reflexivity.
  split; [exact I|]. split; [exact Hs|].
  pose proof (sun_picture_scores_14_then_5 (B := ascii_builtins)
                (fun s _ => eq_refl) empty_world []
                I Hs (fun c (H : In c []) => False_ind _ H))
    as (Hfirst & Hstored & Hlater).
  split; [exact Hfirst|].
  exact (Hlater w1 Hstored).
Defined.



Lemma score_ten_means_one_new_entry_witness :
  let w' := with_new_category empty_world [] (py "landscape") in
  add_category (B := ascii_builtins) (JStr (py "Landscape")) empty_world
  = (Return (py "landscape", 10%Z), w')
  /\ exists n,
       JStr (py "Landscape") = JStr n
       /\ py "landscape" = lower (Builtins := ascii_builtins) n
       /\ ((10%Z = 1%Z /\ w' = empty_world
            /\ exists categories items x,
                 fst (read_categories (B := ascii_builtins) empty_world)
                 = Return categories
                 /\ py_iter categories = Return items
                 /\ In (JStr x) items
                 /\ lower (Builtins := ascii_builtins) x
                    = lower (Builtins := ascii_builtins) n)
           \/ (10%Z = 10%Z
               /\ exists cats,
                    stored (B := ascii_builtins) empty_world cats
                    /\ Forall (fun x => lower (Builtins := ascii_builtins) x
                                        <> lower (Builtins := ascii_builtins) n)
                              cats
                    /\ w' = with_new_category empty_world cats
                              (lower (Builtins := ascii_builtins) n))).
Proof.
  intros w'.
  assert (Hrun : add_category (B := ascii_builtins) (JStr (py "Landscape"))
                   empty_world
                 = (Return (py "landscape", 10%Z), w'))
    by (vm_compute; reflexivity).
  split; [exact Hrun|].
  exact (score_ten_means_one_new_entry (B := ascii_builtins) _ _ _ _ _ Hrun).
Defined.

Lemma registry_after_calls_witness :
  let names := [py "Cat"; py "cat"; py "Dog"] in
  let w' := after_calls (B := ascii_builtins) names empty_world in
  plain_registry empty_world
  /\ stored (B := ascii_builtins) empty_world []
  /\ Forall (fun n => text_ok (lower (Builtins := ascii_builtins) n) = true)
            names
  /\ stored (B := ascii_builtins) w' [py "cat"; py "dog"]
  /\ length (events w') = 2%nat.
Proof.
  intros names w'.
  assert (Hs : stored (B := ascii_builtins) empty_world []) by reflexivity.
  assert (Hn : Forall (fun n => text_ok (lower (Builtins := ascii_builtins) n)
                                = true) names)
    by (repeat constructor).
  split; [exact I|]. split; [exact Hs|]. split; [exact Hn|].
  destruct (registry_after_calls (B := ascii_builtins) empty_world [] names
              I Hs Hn) as (H1 & H2 & _).
  split; [exact H1|].
  exact H2.
Defined.

Lemma misshapen_registry_raises_witness :
  let text := pyq "{'categories': 'sea'}" in
  let w := {| registry_file := Some text; events := [] |} in
  registry_file w = Some text
  /\ json_loads (B := ascii_builtins) text
     = Return (JDict [(py "categories", JStr (py "sea"))])
  /\ add_category (B := ascii_builtins) (JStr (py "E")) w
     = (Return (py "e", 1%Z), w)
  /\ add_category (B := ascii_builtins) (JStr (py "sea")) w
     = (Raise AttributeError, w).
Proof.
  intros text w.
  assert (Hl : json_loads (B := ascii_builtins) text
               = Return (JDict [(py "categories", JStr (py "sea"))]))
    by (vm_compute; reflexivity).
  split; [reflexivity|]. split; [exact Hl|]. split.
  - exact (misshapen_registry_raises (B := ascii_builtins) w text _ (py "E")
             eq_refl Hl (JStr (py "sea")) eq_refl).
  - exact (misshapen_registry_raises (B := ascii_builtins) w text _ (py "sea")
             eq_refl Hl (JStr (py "sea")) eq_refl).
Defined.

Lemma non_string_entry_stops_the_search_witness :
  let w := {| registry_file := Some (pyq "{'categories': ['sea', 5]}");
              events := [] |} in
  fst (read_categories (B := ascii_builtins) w)
  = Return (JList (map JStr [py "sea"] ++ JInt 5 :: []))
  /\ add_category (B := ascii_builtins) (JStr (py "Sea")) w
     = (Return (py "sea", 1%Z), w)
  /\ add_category (B := ascii_builtins) (JStr (py "sky")) w
     = (Raise AttributeError, w).
Proof.
  intros w.
  assert (Hr : fst (read_categories (B := ascii_builtins) w)
               = Return (JList (map JStr [py "sea"] ++ JInt 5 :: [])))
    by (vm_compute; reflexivity).
  assert (Hbad : forall s, JInt 5 <> JStr s) by (intros s; discriminate).
  split; [exact Hr|]. split.
  - exact (non_string_entry_stops_the_search (B := ascii_builtins) w
             [py "sea"] (JInt 5) [] (py "Sea") Hr Hbad).
  - exact (non_string_entry_stops_the_search (B := ascii_builtins) w
             [py "sea"] (JInt 5) [] (py "sky") Hr Hbad).
Defined.

Lemma field_lookups_never_fail_witness :
  let s := strip sun_picture in
  json_loads (B := ascii_builtins)
    (slice s (find 123%N s) (rfind 125%N s + 1))
  = Return sun_picture_analysis
  /\ exists d,
       sun_picture_analysis = JDict d
       /\ forall key default,
            py_get sun_picture_analysis key default
            = Return (get_or d key default).
Proof.
  intros s.
  assert (Hl : json_loads (B := ascii_builtins)
                 (slice s (find 123%N s) (rfind 125%N s + 1))
               = Return sun_picture_analysis)
    by (vm_compute; reflexivity).
  split; [exact Hl|].
  refine (field_lookups_never_fail (B := ascii_builtins) sun_picture
            sun_picture_analysis _ Hl).
  vm_compute; discriminate.
Defined.

Lemma text_around_braces_is_ignored_witness :
  let body := 123%N :: pyq "'detail_count': 2" ++ [125%N] in
  exists r f l,
    process_ai_response (B := ascii_builtins)
      (py "Here you go: " ++ body ++ py " Bye.") empty_world
    = (r, extends empty_world f
            (Interpreted (py "Here you go: " ++ body ++ py " Bye.") :: l))
    /\ process_ai_response (B := ascii_builtins) body empty_world
       = (r, extends empty_world f (Interpreted body :: l)).
Proof.
  apply (text_around_braces_is_ignored (B := ascii_builtins)
           (py "Here you go: ") (pyq "'detail_count': 2") (py " Bye.")
           empty_world);
    vm_compute; intuition discriminate.
Defined.

Lemma closing_brace_first_falls_back_witness :
  (rfind 125%N (strip (py "} {")) < find 123%N (strip (py "} {")))%Z
  /\ forallb encodable (strip (py "} {")) = true
  /\ process_ai_response (B := ascii_builtins) (py "} {") empty_world
     = (Return sentinel, record (Interpreted (py "} {")) empty_world).
Proof.
  assert (H : (rfind 125%N (strip (py "} {")) < find 123%N (strip (py "} {")))%Z)
    by (vm_compute; reflexivity).
  assert (He : forallb encodable (strip (py "} {")) = true)
    by (vm_compute; reflexivity).
  split; [exact H|]. split; [exact He|].
  exact (proj2 (closing_brace_first_falls_back (B := ascii_builtins) _ _ H) He).
Defined.

Lemma missing_category_is_registered_as_unknown_witness :
  let raw := pyq "{'Name': 'Boat'}" in
  stored (B := ascii_builtins) empty_world []
  /\ stored (B := ascii_builtins)
       (snd (process_ai_response (B := ascii_builtins) raw empty_world))
       (resolved (B := ascii_builtins) [] (py "unknown")).
Proof.
  intros raw.
  assert (Hs : stored (B := ascii_builtins) empty_world []) by reflexivity.
  split; [exact Hs|].
  refine (missing_category_is_registered_as_unknown (B := ascii_builtins)
            raw empty_world [(py "Name", JStr (py "Boat"))] []
            _ _ eq_refl I Hs eq_refl).
  - vm_compute; discriminate.
  - vm_compute; reflexivity.
Defined.

Lemma registry_survives_any_response_witness :
  let w' := snd (process_ai_response (B := ascii_builtins)
                   sun_picture empty_world) in
  plain_text sun_picture = true
  /\ plain_registry w'
  /\ (stored (B := ascii_builtins) w' []
      \/ exists n, stored (B := ascii_builtins) w'
                     ([] ++ [lower (Builtins := ascii_builtins) n])).
Proof.
  intros w'.
  assert (Hraw : plain_text sun_picture = true) by (vm_compute; reflexivity).
  assert (Hs : stored (B := ascii_builtins) empty_world []) by reflexivity.
  split; [exact Hraw|].
  exact (registry_survives_any_response (B := ascii_builtins)
           ascii_lower_text_ok sun_picture empty_world [] Hraw I Hs).
Defined.

Lemma replayed_response_scores_no_bonus_witness :
  let w1 := snd (process_ai_response (B := ascii_builtins)
                   sun_picture empty_world) in
  plain_text sun_picture = true
  /\ process_ai_response (B := ascii_builtins) sun_picture empty_world
     = (Return (14%Z, py "landscape", 4%Z, py "Sun Picture"), w1)
  /\ exists total' category' detail' name',
       process_ai_response (B := ascii_builtins) sun_picture w1
       = (Return (total', category', detail', name'),
          record (Interpreted sun_picture) w1)
       /\ ((total', category', detail', name') = sentinel
           \/ total' = (1 + detail')%Z)
       /\ ((14%Z, py "landscape", 4%Z, py "Sun Picture") <> sentinel ->
           (total', category', detail', name')
           = ((1 + 4)%Z, py "landscape", 4%Z, py "Sun Picture")
           /\ (14 = 1 + 4 \/ 14 = 10 + 4)%Z).
Proof.
  intros w1.
  assert (Hrun : process_ai_response (B := ascii_builtins) sun_picture
                   empty_world
                 = (Return (14%Z, py "landscape", 4%Z, py "Sun Picture"), w1))
    by (vm_compute; reflexivity).
  assert (Hraw : plain_text sun_picture = true) by (vm_compute; reflexivity).
  split; [exact Hraw|]. split; [exact Hrun|].
  exact (replayed_response_scores_no_bonus (B := ascii_builtins)
           ascii_lower_idempotent ascii_lower_text_ok
           sun_picture empty_world w1 14%Z 4%Z (py "landscape")
           (py "Sun Picture") Hraw I Hrun).
Defined.

Lemma integral_float_counts_exactly_witness :
  match_number (py "4.0") = Some (JFloat (FDec false 40 (-1)), [])
  /\ py_int (B := ascii_builtins) (JFloat (FDec false 40 (-1))) = Return 4%Z.
Proof.
  split; [vm_compute; reflexivity|].
  apply (integral_float_counts_exactly (B := ascii_builtins) false 40 (-1) 4);
    [lia | reflexivity].
Defined.

Lemma quoted_count_is_read_as_number_witness :
  py_int (B := ascii_builtins) (JStr (py "12")) = Return 12%Z.
Proof.
  apply (quoted_count_is_read_as_number (B := ascii_builtins) (py "12"));
    [discriminate | vm_compute; lia | reflexivity].
Defined.

Lemma request_determines_the_images_witness :
  let base := [137; 80; 78; 71]%N in
  let drawing := [255; 216; 255]%N in
  Forall (fun x => (x < 256)%N) (base ++ drawing ++ base ++ drawing)
  /\ base = base /\ drawing = drawing.
Proof.
  intros base drawing.
  assert (Hb : Forall (fun x => (x < 256)%N)
                 (base ++ drawing ++ base ++ drawing))
    by (repeat constructor).
  split; [exact Hb|].
  exact (request_determines_the_images (py "rubric") base drawing base drawing
           Hb eq_refl).
Defined.

Lemma finished_session_analysed_existing_files_witness :
  let stdin := [py "Ada"; py "9"; py "Missing.png"; py "BasePic1.png";
                py "DrawingPic1.png"; py "unread"] in
  let r := {| Player_name := py "Ada"; Player_age := 9;
              ArtCategory := py "landscape"; ArtDetailScore := 4;
              BaseImagePath := py "./Images/Base/BasePic1.png";
              AnalyzingImagePath := py "./Images/Drawing/DrawingPic1.png";
              ArtScore := 14; NameOfDrawing := py "Sun Picture" |} in
  let w' := snd (Player_playing (B := ascii_builtins) (py "rubric") sun_env
                   studio stdin empty_world) in
  Player_playing (B := ascii_builtins) (py "rubric") sun_env studio stdin
    empty_world
  = (Finished r, [py "unread"], w')
  /\ exists age skipped1 base skipped2 drawing,
       stdin = Player_name r :: age
                 :: skipped1 ++ base :: skipped2 ++ drawing :: [py "unread"]
       /\ int_of_str (B := ascii_builtins) age = Return (Player_age r)
       /\ BaseImagePath r = py "./Images/Base/" ++ base
       /\ AnalyzingImagePath r = py "./Images/Drawing/" ++ drawing
       /\ studio (BaseImagePath r) = true
       /\ studio (AnalyzingImagePath r) = true
       /\ Forall (fun a => studio (py "./Images/Base/" ++ a) = false) skipped1
       /\ Forall (fun a => studio (py "./Images/Drawing/" ++ a) = false)
                 skipped2
       /\ analyze_drawing (B := ascii_builtins) (py "rubric") sun_env
            (BaseImagePath r) (AnalyzingImagePath r) empty_world
          = (Return (ArtScore r, ArtCategory r, ArtDetailScore r,
                     NameOfDrawing r), w').
Proof.
  intros stdin r w'.
  assert (Hrun : Player_playing (B := ascii_builtins) (py "rubric") sun_env
                   studio stdin empty_world
                 = (Finished r, [py "unread"], w'))
    by (vm_compute; reflexivity).
  split; [exact Hrun|].
  exact (finished_session_analysed_existing_files (B := ascii_builtins)
           (py "rubric") sun_env studio stdin [py "unread"] empty_world w' r
           Hrun).
Defined.

Lemma session_finishes_on_valid_answers_witness :
  let r := {| Player_name := py "Ada"; Player_age := 9;
              ArtCategory := py "landscape"; ArtDetailScore := 4;
              BaseImagePath := py "./Images/Base/" ++ py "BasePic1.png";
              AnalyzingImagePath :=
                py "./Images/Drawing/" ++ py "DrawingPic1.png";
              ArtScore := 14; NameOfDrawing := py "Sun Picture" |} in
  let w' := snd (analyze_drawing (B := ascii_builtins) (py "rubric") sun_env
                   (BaseImagePath r) (AnalyzingImagePath r) empty_world) in
  int_of_str (B := ascii_builtins) (py " 9 ") = Return 9%Z
  /\ accepted_as_is r = true
  /\ Player_playing (B := ascii_builtins) (py "rubric") sun_env studio
       (py "Ada" :: py " 9 "
          :: [py "Missing.png"] ++ py "BasePic1.png"
          :: [] ++ py "DrawingPic1.png" :: [py "unread"])
       empty_world
     = (Finished r, [py "unread"], w').
Proof.
  intros r w'.
  assert (Hage : int_of_str (B := ascii_builtins) (py " 9 ") = Return 9%Z)
    by (vm_compute; reflexivity).
  assert (Hr : accepted_as_is r = true) by (vm_compute; reflexivity).
  split; [exact Hage|]. split; [exact Hr|].
  apply (session_finishes_on_valid_answers (B := ascii_builtins) (py "rubric")
           sun_env studio (py "Ada") (py " 9 ") [py "Missing.png"]
           (py "BasePic1.png") [] (py "DrawingPic1.png") [py "unread"]
           9%Z empty_world w' 14%Z (py "landscape") 4%Z (py "Sun Picture")
           Hage).
  - repeat constructor.
  - reflexivity.
  - constructor.
  - reflexivity.
  - vm_compute; reflexivity.
  - exact Hr.
Defined.

Lemma finished_session_score_witness :
  let stdin := [py "Ada"; py "9"; py "BasePic1.png"; py "DrawingPic1.png"] in
  let r := {| Player_name := py "Ada"; Player_age := 9;
              ArtCategory := py "landscape"; ArtDetailScore := 4;
              BaseImagePath := py "./Images/Base/BasePic1.png";
              AnalyzingImagePath := py "./Images/Drawing/DrawingPic1.png";
              ArtScore := 14; NameOfDrawing := py "Sun Picture" |} in
  let w' := snd (Player_playing (B := ascii_builtins) (py "rubric") sun_env
                   studio stdin empty_world) in
  Player_playing (B := ascii_builtins) (py "rubric") sun_env studio stdin
    empty_world
  = (Finished r, [], w')
  /\ ((ArtScore r = 0 /\ ArtCategory r = py "unknown"
       /\ ArtDetailScore r = 0 /\ NameOfDrawing r = py "unknown")%Z
      \/ ((ArtScore r = 1 + ArtDetailScore r
           \/ ArtScore r = 10 + ArtDetailScore r)%Z
          /\ exists name,
               ArtCategory r = lower (Builtins := ascii_builtins) name)).
Proof.
  intros stdin r w'.
  assert (Hrun : Player_playing (B := ascii_builtins) (py "rubric") sun_env
                   studio stdin empty_world
                 = (Finished r, [], w'))
    by (vm_compute; reflexivity).
  split; [exact Hrun|].
  exact (finished_session_score (B := ascii_builtins) (py "rubric") sun_env
           studio stdin [] empty_world w' r Hrun).
Defined.
